(** * ITB-100 thermal battery: the charge/discharge engine and its cycle drivers

    A shallow embedding of [src/models/itb100_system_model.py]:
    the [ITB100Specs] dataclass, the [ThermalBatteryModel] class with its two
    step methods, and the drivers [simulate_discharge] and [simulate_charge].

    Numbers.  The Python code computes on binary64 floats.  Here a float is
    an exact real number ([R]): [+], [-], [*], [/] are the field operations,
    [np.exp] is [exp], and the comparisons are the order of [R].  Rounding,
    infinities and NaN are outside the model.  Python raises
    [ZeroDivisionError] on a zero divisor, where the division of [R] returns
    a value: on specifications with a zero divisor the model says what a
    call would return if it returned.  The statements that need the sign of
    a quantity assume [positive_specs], which the default specifications
    satisfy.

    A float literal with an integer value (0.0, 1.0, 20.0, 58.0) is written as
    that integer.

    State.  The methods mutate [self] and return a tuple; here a method takes
    the object and returns the tuple together with the object after the call. *)

From Stdlib Require Import Reals Lra Lia List Bool ZArith.
From Stdlib Require String.
Import ListNotations.

Open Scope R_scope.

(** ** Comparisons as booleans *)

Definition Rltb (x y : R) : bool := if Rlt_dec x y then true else false.
Definition Rleb (x y : R) : bool := if Rle_dec x y then true else false.

Notation "x <? y" := (Rltb x y) (at level 70, no associativity) : R_scope.
Notation "x <=? y" := (Rleb x y) (at level 70, no associativity) : R_scope.
Notation "x >? y" := (Rltb y x) (at level 70, no associativity) : R_scope.
Notation "x >=? y" := (Rleb y x) (at level 70, no associativity) : R_scope.

(** ** System specifications (the [ITB100Specs] dataclass) *)

Record ITB100Specs : Type := {
  (* Phase change material properties *)
  T_phase : R;
  T_phase_K : R;
  delta_H_fusion : R;
  k_sat_solid : R;
  k_sat_liquid : R;
  rho_sat_solid : R;
  rho_sat_liquid : R;
  cp_sat_solid : R;
  cp_sat_liquid : R;
  (* System geometry *)
  M_sat : R;
  A_hx : R;
  delta_sat : R;
  V_total : R;
  (* Heat exchanger *)
  L_tube : R;
  D_tube : R;
  N_plates : Z;
  t_plate : R;
  k_aluminum : R;
  (* Hydraulic properties *)
  m_dot_design : R;
  cp_water : R;
  (* System performance *)
  UA_effective : R;
  (* Performance targets *)
  Q_discharge_target : R;
  Q_charge_target : R;
  t_charge_design : R;
  t_discharge_design : R;
  (* Energy storage *)
  E_storage : R;
  (* Economic parameters *)
  capital_cost : R;
  lifetime_cycles : Z;
  lifetime_years : R
}.

(** The field defaults of the dataclass: [ITB100Specs()]. *)
Definition default_specs : ITB100Specs := {|
  T_phase := 58;
  T_phase_K := 331.15;
  delta_H_fusion := 264.4e3;
  k_sat_solid := 0.5;
  k_sat_liquid := 0.54;
  rho_sat_solid := 1450;
  rho_sat_liquid := 1280;
  cp_sat_solid := 2100;
  cp_sat_liquid := 3500;
  M_sat := 227.1;
  A_hx := 26.1;
  delta_sat := 0.003;
  V_total := 0.16;
  L_tube := 4;
  D_tube := 0.01905;
  N_plates := 52;
  t_plate := 0.002;
  k_aluminum := 205;
  m_dot_design := 0.074;
  cp_water := 4186;
  UA_effective := 111.7;
  Q_discharge_target := 2010;
  Q_charge_target := 2780;
  t_charge_design := 6;
  t_discharge_design := 8.29;
  E_storage := 16.71;
  capital_cost := 3500;
  lifetime_cycles := 1000;
  lifetime_years := 10
|}.

(** The specifications on which no division of the engine has a zero
    divisor and the physical quantities have their physical sign. *)
Record positive_specs (s : ITB100Specs) : Prop := {
  pos_delta_H_fusion : 0 < delta_H_fusion s;
  pos_cp_sat_solid : 0 < cp_sat_solid s;
  pos_cp_sat_liquid : 0 < cp_sat_liquid s;
  pos_M_sat : 0 < M_sat s;
  pos_m_dot_design : 0 < m_dot_design s;
  pos_cp_water : 0 < cp_water s;
  pos_UA_effective : 0 < UA_effective s;
  pos_E_storage : 0 < E_storage s
}.

(** ** Outcome of a call *)

(** [ConfigurationError] is the error the specification asks of the
    constructors; [IndexError] is raised by an index out of range. *)
Inductive exception : Type :=
| ConfigurationError
| IndexError.

Inductive outcome (A : Type) : Type :=
| Returns (a : A)
| Raises (e : exception).

Arguments Returns {A} a.
Arguments Raises {A} e.

(** The dataclass generates [__init__], which stores every field as it is
    given; there is no [__post_init__]. *)
Definition ITB100Specs_init (fields : ITB100Specs) : outcome ITB100Specs :=
  Returns fields.

(** ** Thermal dynamics model (the [ThermalBatteryModel] class) *)

Record ThermalBatteryModel : Type := {
  specs : ITB100Specs;
  T_sat : R;
  solid_fraction : R;
  E_stored : R;
  time : R
}.

Definition reset_state (self : ThermalBatteryModel) : ThermalBatteryModel := {|
  specs := specs self;
  T_sat := 20;
  solid_fraction := 1;
  E_stored := 0;
  time := 0
|}.

(** [__init__] stores [specs] and calls [reset_state], which sets the four
    other attributes; the zeros below stand for the attributes not yet set. *)
Definition ThermalBatteryModel_init (s : ITB100Specs)
  : outcome ThermalBatteryModel :=
  Returns (reset_state
    {| specs := s; T_sat := 0; solid_fraction := 0; E_stored := 0; time := 0 |}).

Definition get_state_of_charge (self : ThermalBatteryModel) : R :=
  let E_max := E_storage (specs self) * 3.6e6 in
  Rmax 0 (Rmin 1 (E_stored self / E_max)).

(** Attribute assignments on [self]. *)
Definition set_T_sat (self : ThermalBatteryModel) (v : R) :=
  {| specs := specs self; T_sat := v; solid_fraction := solid_fraction self;
     E_stored := E_stored self; time := time self |}.
Definition set_solid_fraction (self : ThermalBatteryModel) (v : R) :=
  {| specs := specs self; T_sat := T_sat self; solid_fraction := v;
     E_stored := E_stored self; time := time self |}.
Definition set_E_stored (self : ThermalBatteryModel) (v : R) :=
  {| specs := specs self; T_sat := T_sat self;
     solid_fraction := solid_fraction self; E_stored := v; time := time self |}.
Definition set_time (self : ThermalBatteryModel) (v : R) :=
  {| specs := specs self; T_sat := T_sat self;
     solid_fraction := solid_fraction self; E_stored := E_stored self;
     time := v |}.

(** [step_discharge]: one discharge time step.  Returns
    [(Q_actual, T_water_out)] and the object after the call. *)
Definition step_discharge (self : ThermalBatteryModel) (T_water_in dt : R)
  : (R * R) * ThermalBatteryModel :=
  let s := specs self in
  (* battery depleted: fully solid and below phase temperature *)
  if (solid_fraction self >=? 0.99) && (T_sat self <? T_phase s) then
    ((0, T_water_in), self)
  (* battery not warmer than the inlet water *)
  else if T_sat self <=? T_water_in + 0.5 then
    ((0, T_water_in), self)
  else
    let NTU := UA_effective s / (m_dot_design s * cp_water s) in
    let effectiveness := 1 - exp (- NTU) in
    let Q_max := m_dot_design s * cp_water s * (T_sat self - T_water_in) in
    let Q_actual := effectiveness * Q_max in
    let Q_actual := Rmax 0 Q_actual in
    let T_water_out :=
      if Q_actual >? 0 then
        let delta_T_water := Q_actual / (m_dot_design s * cp_water s) in
        T_water_in + delta_T_water
      else T_water_in in
    let '(Q_actual, self) :=
      if Q_actual >? 0 then
        let dE := Q_actual * dt in
        if T_sat self >? T_phase s + 0.1 then
          (* cooling liquid (sensible heat) *)
          let dT := dE / (M_sat s * cp_sat_liquid s) in
          let self := set_T_sat self (T_sat self - dT) in
          let self := set_E_stored self (E_stored self - dE) in
          let self :=
            if T_sat self <=? T_phase s then set_T_sat self (T_phase s)
            else self in
          (Q_actual, self)
        else if solid_fraction self <? 0.99 then
          (* phase change (solidification) *)
          let dm_solidified := dE / delta_H_fusion s in
          let self :=
            set_solid_fraction self
              (solid_fraction self + dm_solidified / M_sat s) in
          let self :=
            set_solid_fraction self (Rmin 1 (solid_fraction self)) in
          let self := set_E_stored self (E_stored self - dE) in
          let self := set_T_sat self (T_phase s) in
          (Q_actual, self)
        else
          (* fully solid, cooling down: no useful energy *)
          let dT := dE / (M_sat s * cp_sat_solid s) in
          let self := set_T_sat self (T_sat self - dT) in
          let self := set_E_stored self (E_stored self - dE) in
          (0, self)
      else (Q_actual, self) in
    let self := set_time self (time self + dt) in
    ((Q_actual, T_water_out), self).

(** [step_charge]: one charge time step. *)
Definition step_charge (self : ThermalBatteryModel) (T_water_in dt : R)
  : (R * R) * ThermalBatteryModel :=
  let s := specs self in
  (* battery fully charged *)
  if (solid_fraction self <=? 0.01) && (T_sat self >=? T_phase s + 5) then
    ((0, T_water_in), self)
  (* inlet water not warmer than the battery *)
  else if T_water_in <=? T_sat self + 0.5 then
    ((0, T_water_in), self)
  else
    let NTU := UA_effective s / (m_dot_design s * cp_water s) in
    let effectiveness := 1 - exp (- NTU) in
    let Q_max := m_dot_design s * cp_water s * (T_water_in - T_sat self) in
    let Q_actual := effectiveness * Q_max in
    let Q_actual := Rmax 0 Q_actual in
    let T_water_out :=
      if Q_actual >? 0 then
        let delta_T_water := Q_actual / (m_dot_design s * cp_water s) in
        T_water_in - delta_T_water
      else T_water_in in
    let self :=
      if Q_actual >? 0 then
        let dE := Q_actual * dt in
        if T_sat self <? T_phase s - 0.1 then
          (* heating solid (sensible heat) *)
          let dT := dE / (M_sat s * cp_sat_solid s) in
          let self := set_T_sat self (T_sat self + dT) in
          let self := set_E_stored self (E_stored self + dE) in
          if T_sat self >=? T_phase s then set_T_sat self (T_phase s)
          else self
        else if solid_fraction self >? 0.01 then
          (* phase change (melting) *)
          let dm_melted := dE / delta_H_fusion s in
          let self :=
            set_solid_fraction self
              (solid_fraction self - dm_melted / M_sat s) in
          let self :=
            set_solid_fraction self (Rmax 0 (solid_fraction self)) in
          let self := set_E_stored self (E_stored self + dE) in
          set_T_sat self (T_phase s)
        else
          (* fully liquid, heating up (superheat) *)
          let dT := dE / (M_sat s * cp_sat_liquid s) in
          let self := set_T_sat self (T_sat self + dT) in
          set_E_stored self (E_stored self + dE)
      else self in
    let self := set_time self (time self + dt) in
    ((Q_actual, T_water_out), self).

(** ** A small error monad for calls that can raise *)

Definition bind {A B : Type} (c : outcome A) (k : A -> outcome B) : outcome B :=
  match c with
  | Returns a => k a
  | Raises e => Raises e
  end.

Notation "x <- c ;; k" := (bind c (fun x => k))
  (at level 61, c at next level, right associativity).

(** Indexing an array: [a[i]] raises [IndexError] out of range. *)
Definition index (a : list R) (i : nat) : outcome R :=
  match nth_error a i with
  | Some x => Returns x
  | None => Raises IndexError
  end.

(** ** The two numpy reductions used for the summaries *)

(** [np.trapz(y, x)]: the composite trapezoidal rule. *)
Fixpoint trapz (y x : list R) : R :=
  match y, x with
  | y0 :: y', x0 :: x' =>
      match y', x' with
      | y1 :: _, x1 :: _ => (x1 - x0) * (y1 + y0) / 2 + trapz y' x'
      | _, _ => 0
      end
  | _, _ => 0
  end.

(** [np.mean(a)]. *)
Definition mean (a : list R) : R := fold_right Rplus 0 a / INR (length a).

(** [a[-1] if len(a) > 0 else 0]. *)
Definition last_or_zero (a : list R) : R := last a 0.

(** ** Discharge simulation *)

(** The six history lists of the loop; they are appended to in lock step. *)
Record History : Type := {
  time_history : list R;
  T_sat_history : list R;
  T_out_history : list R;
  Q_history : list R;
  Q_available_history : list R;
  SOC_history : list R;
  solid_fraction_history : list R
}.

Definition empty_history : History := {|
  time_history := []; T_sat_history := []; T_out_history := [];
  Q_history := []; Q_available_history := []; SOC_history := [];
  solid_fraction_history := []
|}.

(** The dictionary returned by [simulate_discharge]. *)
Record DischargeResult : Type := {
  d_time : list R;
  d_T_sat : list R;
  d_T_out : list R;
  d_Q : list R;
  d_SOC : list R;
  d_solid_fraction : list R;
  d_total_energy : R;
  d_avg_power : R;
  d_duration : R
}.

Definition max_time : R := 12 * 3600.

(** The [while time < max_time] loop.  [fuel] bounds the number of
    iterations; [None] means the bound was too small.  The result is the
    value of the locals [model], [time] and the histories at loop exit. *)
Fixpoint discharge_loop (fuel : nat) (model : ThermalBatteryModel)
    (T_supply dt : R) (time : R) (h : History)
  : option (ThermalBatteryModel * R * History) :=
  if time <? max_time then
    match fuel with
    | O => None
    | S fuel =>
        let '((Q_actual, T_out), model) := step_discharge model T_supply dt in
        (* record state *)
        let h := {|
          time_history := time_history h ++ [time / 3600];
          T_sat_history := T_sat_history h ++ [T_sat model];
          T_out_history := T_out_history h ++ [T_out];
          Q_history := Q_history h ++ [Q_actual / 1000];
          Q_available_history := Q_available_history h;
          SOC_history := SOC_history h ++ [get_state_of_charge model];
          solid_fraction_history :=
            solid_fraction_history h ++ [solid_fraction model]
        |} in
        let time := time + dt in
        (* stop if the battery is depleted or power drops to near zero *)
        if (get_state_of_charge model <? 0.01)
           || ((Q_actual <? 100) && (time >? 3600))
        then Some (model, time, h)
        else discharge_loop fuel model T_supply dt time h
    end
  else Some (model, time, h).

Definition simulate_discharge_fuel (fuel : nat) (specs : ITB100Specs)
    (T_supply T_return_target dt : R) : option (outcome DischargeResult) :=
  match ThermalBatteryModel_init specs with
  | Raises e => Some (Raises e)
  | Returns model =>
      (* initialise the battery to the fully charged state *)
      let model := set_T_sat model (T_phase specs) in
      let model := set_solid_fraction model 0.05 in
      let model := set_E_stored model (E_storage specs * 3.6e6) in
      match discharge_loop fuel model T_supply dt 0 empty_history with
      | None => None
      | Some (_, _, h) =>
          Some (Returns {|
            d_time := time_history h;
            d_T_sat := T_sat_history h;
            d_T_out := T_out_history h;
            d_Q := Q_history h;
            d_SOC := SOC_history h;
            d_solid_fraction := solid_fraction_history h;
            d_total_energy := trapz (Q_history h) (time_history h);
            d_avg_power := mean (Q_history h);
            d_duration := last_or_zero (time_history h)
          |})
      end
  end.

(** A number of iterations after which [time] has passed [max_time]. *)
Definition steps_bound (dt : R) : nat := Z.to_nat (up (max_time / dt)).

Definition simulate_discharge (specs : ITB100Specs)
    (T_supply T_return_target dt : R) : option (outcome DischargeResult) :=
  simulate_discharge_fuel (steps_bound dt) specs T_supply T_return_target dt.

(** ** Charge simulation *)

(** The dictionary returned by [simulate_charge]. *)
Record ChargeResult : Type := {
  c_time : list R;
  c_T_sat : list R;
  c_T_out : list R;
  c_Q : list R;
  c_Q_available : list R;
  c_SOC : list R;
  c_solid_fraction : list R;
  c_total_energy : R;
  c_avg_power : R;
  c_duration : R
}.

(** The [for i in range(n_steps)] loop: [remaining] iterations are left and
    the next index is [i]. *)
Fixpoint charge_loop (remaining : nat) (i : nat) (model : ThermalBatteryModel)
    (solar_profile T_collector : list R) (dt : R) (time : R) (h : History)
  : outcome (ThermalBatteryModel * R * History) :=
  match remaining with
  | O => Returns (model, time, h)
  | S remaining =>
      Q_available <- index solar_profile i ;;
      T_in <- index T_collector i ;;
      (* attempt to charge *)
      let '((Q_actual, T_out), model) := step_charge model T_in dt in
      let Q_actual := Rmin Q_actual Q_available in
      (* record state *)
      let h := {|
        time_history := time_history h ++ [time / 3600];
        T_sat_history := T_sat_history h ++ [T_sat model];
        T_out_history := T_out_history h ++ [T_out];
        Q_history := Q_history h ++ [Q_actual / 1000];
        Q_available_history := Q_available_history h ++ [Q_available / 1000];
        SOC_history := SOC_history h ++ [get_state_of_charge model];
        solid_fraction_history :=
          solid_fraction_history h ++ [solid_fraction model]
      |} in
      let time := time + dt in
      (* stop if fully charged *)
      if get_state_of_charge model >=? 0.99 then Returns (model, time, h)
      else charge_loop remaining (S i) model solar_profile T_collector dt time h
  end.

Definition simulate_charge (specs : ITB100Specs)
    (solar_profile T_collector : list R) (dt : R) : outcome ChargeResult :=
  model <- ThermalBatteryModel_init specs ;;
  (* initialise the battery to the depleted state *)
  let model := set_T_sat model 20 in
  let model := set_solid_fraction model 1 in
  let model := set_E_stored model 0 in
  let n_steps := length solar_profile in
  r <- charge_loop n_steps 0 model solar_profile T_collector dt 0
         empty_history ;;
  let '(_, _, h) := r in
  Returns {|
    c_time := time_history h;
    c_T_sat := T_sat_history h;
    c_T_out := T_out_history h;
    c_Q := Q_history h;
    c_Q_available := Q_available_history h;
    c_SOC := SOC_history h;
    c_solid_fraction := solid_fraction_history h;
    c_total_energy := trapz (Q_history h) (time_history h);
    c_avg_power := mean (Q_history h);
    c_duration := last_or_zero (time_history h)
  |}.

(** * Vocabulary of the statements

    The definitions below name conditions and expressions of the source so
    that the statements can refer to them; each is read off the code. *)

(** [effectiveness], a local of both step methods. *)
Definition effectiveness (s : ITB100Specs) : R :=
  1 - exp (- (UA_effective s / (m_dot_design s * cp_water s))).

(** The local [Q_actual] of [step_discharge] after the floor at zero. *)
Definition discharge_power (self : ThermalBatteryModel) (T_water_in : R) : R :=
  let s := specs self in
  Rmax 0 (effectiveness s
          * (m_dot_design s * cp_water s * (T_sat self - T_water_in))).

(** The local [Q_actual] of [step_charge] after the floor at zero. *)
Definition charge_power (self : ThermalBatteryModel) (T_water_in : R) : R :=
  let s := specs self in
  Rmax 0 (effectiveness s
          * (m_dot_design s * cp_water s * (T_water_in - T_sat self))).

(** The conditions of the two early returns of [step_discharge]. *)
Definition depleted (self : ThermalBatteryModel) : Prop :=
  0.99 <= solid_fraction self /\ T_sat self < T_phase (specs self).

Definition discharge_guard (self : ThermalBatteryModel) (T_water_in : R) : Prop :=
  depleted self \/ T_sat self <= T_water_in + 0.5.

(** The conditions of the two early returns of [step_charge]. *)
Definition fully_charged (self : ThermalBatteryModel) : Prop :=
  solid_fraction self <= 0.01 /\ T_phase (specs self) + 5 <= T_sat self.

Definition charge_guard (self : ThermalBatteryModel) (T_water_in : R) : Prop :=
  fully_charged self \/ T_water_in <= T_sat self + 0.5.

(** The paths of [step_discharge], one constructor per path: the two early
    returns together, the path on which the floored power is zero, and the
    three branches of the state update. *)
Inductive discharge_case (self : ThermalBatteryModel) (T_water_in dt : R)
  : (R * R) * ThermalBatteryModel -> Prop :=
| discharge_guarded :
    discharge_guard self T_water_in ->
    discharge_case self T_water_in dt ((0, T_water_in), self)
| discharge_idle :
    ~ discharge_guard self T_water_in ->
    discharge_power self T_water_in = 0 ->
    discharge_case self T_water_in dt
      ((0, T_water_in), set_time self (time self + dt))
| discharge_liquid :
    let s := specs self in
    let P := discharge_power self T_water_in in
    ~ discharge_guard self T_water_in ->
    0 < P ->
    T_phase s + 0.1 < T_sat self ->
    discharge_case self T_water_in dt
      ((P, T_water_in + P / (m_dot_design s * cp_water s)),
       {| specs := s;
          T_sat := Rmax (T_phase s)
                     (T_sat self - P * dt / (M_sat s * cp_sat_liquid s));
          solid_fraction := solid_fraction self;
          E_stored := E_stored self - P * dt;
          time := time self + dt |})
| discharge_latent :
    let s := specs self in
    let P := discharge_power self T_water_in in
    ~ discharge_guard self T_water_in ->
    0 < P ->
    T_sat self <= T_phase s + 0.1 ->
    solid_fraction self < 0.99 ->
    discharge_case self T_water_in dt
      ((P, T_water_in + P / (m_dot_design s * cp_water s)),
       {| specs := s;
          T_sat := T_phase s;
          solid_fraction :=
            Rmin 1 (solid_fraction self
                    + P * dt / delta_H_fusion s / M_sat s);
          E_stored := E_stored self - P * dt;
          time := time self + dt |})
| discharge_solid :
    let s := specs self in
    let P := discharge_power self T_water_in in
    ~ discharge_guard self T_water_in ->
    0 < P ->
    T_sat self <= T_phase s + 0.1 ->
    0.99 <= solid_fraction self ->
    discharge_case self T_water_in dt
      ((0, T_water_in + P / (m_dot_design s * cp_water s)),
       {| specs := s;
          T_sat := T_sat self - P * dt / (M_sat s * cp_sat_solid s);
          solid_fraction := solid_fraction self;
          E_stored := E_stored self - P * dt;
          time := time self + dt |}).

(** The paths of [step_charge], in the same order. *)
Inductive charge_case (self : ThermalBatteryModel) (T_water_in dt : R)
  : (R * R) * ThermalBatteryModel -> Prop :=
| charge_guarded :
    charge_guard self T_water_in ->
    charge_case self T_water_in dt ((0, T_water_in), self)
| charge_idle :
    ~ charge_guard self T_water_in ->
    charge_power self T_water_in = 0 ->
    charge_case self T_water_in dt
      ((0, T_water_in), set_time self (time self + dt))
| charge_solid :
    let s := specs self in
    let P := charge_power self T_water_in in
    ~ charge_guard self T_water_in ->
    0 < P ->
    T_sat self < T_phase s - 0.1 ->
    charge_case self T_water_in dt
      ((P, T_water_in - P / (m_dot_design s * cp_water s)),
       {| specs := s;
          T_sat := Rmin (T_phase s)
                     (T_sat self + P * dt / (M_sat s * cp_sat_solid s));
          solid_fraction := solid_fraction self;
          E_stored := E_stored self + P * dt;
          time := time self + dt |})
| charge_latent :
    let s := specs self in
    let P := charge_power self T_water_in in
    ~ charge_guard self T_water_in ->
    0 < P ->
    T_phase s - 0.1 <= T_sat self ->
    0.01 < solid_fraction self ->
    charge_case self T_water_in dt
      ((P, T_water_in - P / (m_dot_design s * cp_water s)),
       {| specs := s;
          T_sat := T_phase s;
          solid_fraction :=
            Rmax 0 (solid_fraction self
                    - P * dt / delta_H_fusion s / M_sat s);
          E_stored := E_stored self + P * dt;
          time := time self + dt |})
| charge_liquid :
    let s := specs self in
    let P := charge_power self T_water_in in
    ~ charge_guard self T_water_in ->
    0 < P ->
    T_phase s - 0.1 <= T_sat self ->
    solid_fraction self <= 0.01 ->
    charge_case self T_water_in dt
      ((P, T_water_in - P / (m_dot_design s * cp_water s)),
       {| specs := s;
          T_sat := T_sat self + P * dt / (M_sat s * cp_sat_liquid s);
          solid_fraction := solid_fraction self;
          E_stored := E_stored self + P * dt;
          time := time self + dt |}).

(** States used as concrete inputs. *)
Definition state_of (T f E : R) : ThermalBatteryModel :=
  {| specs := default_specs; T_sat := T; solid_fraction := f;
     E_stored := E; time := 0 |}.

(** The guard of [step_discharge] as the specification words it: fully solid
    and at or below the phase-change temperature, or the medium not at least
    0.5 degrees above the inlet. *)
Definition discharge_guard_as_specified
    (self : ThermalBatteryModel) (T_water_in : R) : Prop :=
  (0.99 <= solid_fraction self /\ T_sat self <= T_phase (specs self))
  \/ ~ (T_water_in + 0.5 <= T_sat self).

(** The fully-solid sensible-cooling regime: the last branch of the state
    update of [step_discharge]. *)
Definition solid_cooling_regime (self : ThermalBatteryModel) : Prop :=
  0.99 <= solid_fraction self /\ T_sat self <= T_phase (specs self) + 0.1.

(** The effectiveness-NTU power as the specification words it:
    [max(0, (1 - exp(-UA / (m_dot * cp_water))) * m_dot * cp_water * dT)]
    for a driving temperature difference [dT]. *)
Definition ntu_power_spec (s : ITB100Specs) (driving_difference : R) : R :=
  Rmax 0 ((1 - exp (- (UA_effective s / (m_dot_design s * cp_water s))))
          * m_dot_design s * cp_water s * driving_difference).

(** The state in which [simulate_discharge] starts its loop (fully charged)
    and the one in which [simulate_charge] starts (depleted). *)
Definition discharge_initial_state (s : ITB100Specs) : ThermalBatteryModel :=
  {| specs := s; T_sat := T_phase s; solid_fraction := 0.05;
     E_stored := E_storage s * 3.6e6; time := 0 |}.

Definition charge_initial_state (s : ITB100Specs) : ThermalBatteryModel :=
  {| specs := s; T_sat := 20; solid_fraction := 1; E_stored := 0; time := 0 |}.

(** The states a simulation can be in: the two initial states and whatever
    the step methods make of them, for any inlet temperature and [dt]. *)
Inductive reachable (s : ITB100Specs) : ThermalBatteryModel -> Prop :=
| reachable_charged : reachable s (discharge_initial_state s)
| reachable_depleted : reachable s (charge_initial_state s)
| reachable_discharge (self : ThermalBatteryModel) (T_water_in dt : R) :
    reachable s self ->
    reachable s (snd (step_discharge self T_water_in dt))
| reachable_charge (self : ThermalBatteryModel) (T_water_in dt : R) :
    reachable s self ->
    reachable s (snd (step_charge self T_water_in dt)).

(** The phase plateau as the specification words it. *)
Definition plateau (self : ThermalBatteryModel) : Prop :=
  0 < solid_fraction self < 1 -> T_sat self = T_phase (specs self).

(** The phase plateau between the two thresholds the code treats as fully
    liquid (0.01) and fully solid (0.99). *)
Definition plateau_band (self : ThermalBatteryModel) : Prop :=
  0.01 < solid_fraction self < 0.99 -> T_sat self = T_phase (specs self).

(** An uninterrupted sequence of discharge steps, one [(T_water_in, dt)] per
    call, and the same for charge steps. *)
Fixpoint discharge_steps (self : ThermalBatteryModel) (calls : list (R * R))
  : ThermalBatteryModel :=
  match calls with
  | [] => self
  | (T_water_in, dt) :: calls =>
      discharge_steps (snd (step_discharge self T_water_in dt)) calls
  end.

Fixpoint charge_steps (self : ThermalBatteryModel) (calls : list (R * R))
  : ThermalBatteryModel :=
  match calls with
  | [] => self
  | (T_water_in, dt) :: calls =>
      charge_steps (snd (step_charge self T_water_in dt)) calls
  end.

(** [ITB100Specs(M_sat=mass, UA_effective=UA, m_dot_design=flow)]: the
    fields of a constructor call with three keyword arguments, the other
    fields at their defaults. *)
Definition specs_with (mass UA flow : R) : ITB100Specs := {|
  T_phase := T_phase default_specs;
  T_phase_K := T_phase_K default_specs;
  delta_H_fusion := delta_H_fusion default_specs;
  k_sat_solid := k_sat_solid default_specs;
  k_sat_liquid := k_sat_liquid default_specs;
  rho_sat_solid := rho_sat_solid default_specs;
  rho_sat_liquid := rho_sat_liquid default_specs;
  cp_sat_solid := cp_sat_solid default_specs;
  cp_sat_liquid := cp_sat_liquid default_specs;
  M_sat := mass;
  A_hx := A_hx default_specs;
  delta_sat := delta_sat default_specs;
  V_total := V_total default_specs;
  L_tube := L_tube default_specs;
  D_tube := D_tube default_specs;
  N_plates := N_plates default_specs;
  t_plate := t_plate default_specs;
  k_aluminum := k_aluminum default_specs;
  m_dot_design := flow;
  cp_water := cp_water default_specs;
  UA_effective := UA;
  Q_discharge_target := Q_discharge_target default_specs;
  Q_charge_target := Q_charge_target default_specs;
  t_charge_design := t_charge_design default_specs;
  t_discharge_design := t_discharge_design default_specs;
  E_storage := E_storage default_specs;
  capital_cost := capital_cost default_specs;
  lifetime_cycles := lifetime_cycles default_specs;
  lifetime_years := lifetime_years default_specs
|}.

(** A configuration is invalid when the storage mass is negative, or [UA] or
    the mass flow rate is not positive. *)
Definition invalid_configuration (s : ITB100Specs) : Prop :=
  M_sat s < 0 \/ UA_effective s <= 0 \/ m_dot_design s <= 0.

(** ** The runs behind the two simulations *)

(** The battery of [simulate_discharge] after [n] calls of
    [model.step_discharge(T_supply, dt)]. *)
Definition discharge_state_at (s : ITB100Specs) (T_supply dt : R) (n : nat)
  : ThermalBatteryModel :=
  discharge_steps (discharge_initial_state s) (repeat (T_supply, dt) n).

(** What call number [j] (counting from 0) of the loop returns. *)
Definition discharge_call (s : ITB100Specs) (T_supply dt : R) (j : nat)
  : R * R :=
  fst (step_discharge (discharge_state_at s T_supply dt j) T_supply dt).

(** The histories of [simulate_discharge] after [n] iterations. *)
Fixpoint discharge_history (s : ITB100Specs) (T_supply dt : R) (n : nat)
  : History :=
  match n with
  | O => empty_history
  | S j =>
      let h := discharge_history s T_supply dt j in
      let model := discharge_state_at s T_supply dt (S j) in
      {| time_history := time_history h ++ [INR j * dt / 3600];
         T_sat_history := T_sat_history h ++ [T_sat model];
         T_out_history :=
           T_out_history h ++ [snd (discharge_call s T_supply dt j)];
         Q_history :=
           Q_history h ++ [fst (discharge_call s T_supply dt j) / 1000];
         Q_available_history := Q_available_history h;
         SOC_history := SOC_history h ++ [get_state_of_charge model];
         solid_fraction_history :=
           solid_fraction_history h ++ [solid_fraction model] |}
  end.

(** The three stopping conditions of the discharge loop, read after [n]
    iterations, when the local [time] is [n * dt]: the state of charge is
    below 1%, or the power just delivered is below 100 W and more than one
    hour is simulated, or [time] has reached [max_time]. *)
Definition stops_after (s : ITB100Specs) (T_supply dt : R) (n : nat) : Prop :=
  get_state_of_charge (discharge_state_at s T_supply dt n) < 0.01
  \/ (fst (discharge_call s T_supply dt (pred n)) < 100
      /\ 3600 < INR n * dt)
  \/ max_time <= INR n * dt.

(** The battery of [simulate_charge] before iteration [i]: after the calls
    [model.step_charge(T_collector[j], dt)] for [j < i]. *)
Definition charge_state_at (s : ITB100Specs) (T_collector : list R) (dt : R)
    (i : nat) : ThermalBatteryModel :=
  charge_steps (charge_initial_state s)
    (map (fun T_in => (T_in, dt)) (firstn i T_collector)).

(** What the call of iteration [i] returns (the engine's own figures). *)
Definition charge_call (s : ITB100Specs) (T_collector : list R) (dt : R)
    (i : nat) : R * R :=
  fst (step_charge (charge_state_at s T_collector dt i)
         (nth i T_collector 0) dt).

(** The histories of [simulate_charge] after [n] iterations. *)
Fixpoint charge_history (s : ITB100Specs) (solar_profile T_collector : list R)
    (dt : R) (n : nat) : History :=
  match n with
  | O => empty_history
  | S i =>
      let h := charge_history s solar_profile T_collector dt i in
      let model := charge_state_at s T_collector dt (S i) in
      let Q_available := nth i solar_profile 0 in
      let Q_actual := Rmin (fst (charge_call s T_collector dt i)) Q_available in
      {| time_history := time_history h ++ [INR i * dt / 3600];
         T_sat_history := T_sat_history h ++ [T_sat model];
         T_out_history :=
           T_out_history h ++ [snd (charge_call s T_collector dt i)];
         Q_history := Q_history h ++ [Q_actual / 1000];
         Q_available_history :=
           Q_available_history h ++ [Q_available / 1000];
         SOC_history := SOC_history h ++ [get_state_of_charge model];
         solid_fraction_history :=
           solid_fraction_history h ++ [solid_fraction model] |}
  end.

(** The dictionary [simulate_discharge] builds from the histories. *)
Definition discharge_result (h : History) : DischargeResult := {|
  d_time := time_history h;
  d_T_sat := T_sat_history h;
  d_T_out := T_out_history h;
  d_Q := Q_history h;
  d_SOC := SOC_history h;
  d_solid_fraction := solid_fraction_history h;
  d_total_energy := trapz (Q_history h) (time_history h);
  d_avg_power := mean (Q_history h);
  d_duration := last_or_zero (time_history h)
|}.

(** ** The default discharge run

    [simulate_discharge(specs, T_supply=40.0, dt=60.0)], the call made by
    [main], while the medium solidifies at the plateau. *)

(** The power delivered at the plateau against the 40 degree supply. *)
Definition plateau_power : R :=
  discharge_power (discharge_initial_state default_specs) 40.

(** The solid fraction gained in one 60 second step at that power. *)
Definition plateau_increment : R := plateau_power * 60 / 264.4e3 / 227.1.

(** The battery after [k] steps of latent heat release. *)
Definition latent_state (k : nat) : ThermalBatteryModel := {|
  specs := default_specs;
  T_sat := 58;
  solid_fraction := 0.05 + INR k * plateau_increment;
  E_stored := 16.71 * 3.6e6 - INR k * (plateau_power * 60);
  time := INR k * 60
|}.

(** * The rest of [itb100_system_model.py] *)

(** ** The conduction estimate of the model class *)

Definition get_effective_thermal_conductivity (self : ThermalBatteryModel)
  : R :=
  let k_solid := k_sat_solid (specs self) in
  let k_liquid := k_sat_liquid (specs self) in
  solid_fraction self * k_solid + (1 - solid_fraction self) * k_liquid.

(** Heat flux in W/m2: positive = charging, negative = discharging. *)
Definition calculate_heat_flux (self : ThermalBatteryModel) (T_water_avg : R)
  : R :=
  let k_eff := get_effective_thermal_conductivity self in
  let delta_T := T_water_avg - T_sat self in
  let q_flux := (k_eff / delta_sat (specs self)) * delta_T in
  q_flux.

Definition calculate_power (self : ThermalBatteryModel) (T_water_avg : R)
  : R :=
  let q_flux := calculate_heat_flux self T_water_avg in
  let Q := q_flux * A_hx (specs self) in
  Q.

(** ** Vocabulary of the further statements *)

(** The medium is on the side of the phase change its temperature says:
    below the phase-change temperature it counts as fully solid, above it as
    fully liquid (with the thresholds of the code). *)
Definition phase_consistent (self : ThermalBatteryModel) : Prop :=
  (T_sat self < T_phase (specs self) -> 0.99 <= solid_fraction self)
  /\ (T_phase (specs self) < T_sat self -> solid_fraction self <= 0.01).

(** The latent-heat branch of [step_discharge] is taken. *)
Definition releases_latent_heat (self : ThermalBatteryModel) (T_water_in : R)
  : Prop :=
  ~ discharge_guard self T_water_in
  /\ T_sat self <= T_phase (specs self) + 0.1
  /\ solid_fraction self < 0.99.

(** The latent-heat branch of [step_charge] is taken. *)
Definition absorbs_latent_heat (self : ThermalBatteryModel) (T_water_in : R)
  : Prop :=
  ~ charge_guard self T_water_in
  /\ T_phase (specs self) - 0.1 <= T_sat self
  /\ 0.01 < solid_fraction self.

(** ** Solar thermal system modelling *)

Import Stdlib.Strings.String.StringSyntax.
Local Open Scope string_scope.
Local Open Scope R_scope.

(** [np.linspace(start, stop, num)], for [num >= 2]: [num] evenly spaced
    samples, [arange(0, num) * step + start] with
    [step = (stop - start) / (num - 1)]. *)
Definition linspace (start stop : R) (num : nat) : list R :=
  let step := (stop - start) / INR (num - 1) in
  map (fun i => INR i * step + start) (seq 0 num).

(** [np.clip(a, a_min, a_max)] on one element:
    [minimum(a_max, maximum(a, a_min))]. *)
Definition clip (a a_min a_max : R) : R := Rmin a_max (Rmax a a_min).

(** [generate_solar_profile]: returns
    [(time_hours, Q_collector, T_collector)].  The arguments [location] and
    [date] are not read. *)
Definition generate_solar_profile (location date : String.string)
    (collector_area collector_efficiency : R)
  : list R * list R * list R :=
  (* 9 AM to 3 PM in 5-minute intervals *)
  let time_hours := linspace 9 15 73 in
  let hour_of_day := time_hours in
  let peak_irradiance := 800 in
  (* Gaussian profile centred at noon *)
  let irradiance :=
    map (fun h => peak_irradiance * exp (- ((h - 12) ^ 2) / 4.5))
      hour_of_day in
  let cloud_factor := 0.85 in
  let irradiance := map (fun I => I * cloud_factor) irradiance in
  (* collector output *)
  let Q_collector :=
    map (fun I => I * collector_area * collector_efficiency) irradiance in
  let T_ambient := -2 in
  let normalized_intensity :=
    map (fun I => I / (peak_irradiance * cloud_factor)) irradiance in
  let T_stagnation := 120 in
  let T_rise :=
    map (fun x => (T_stagnation - T_ambient) * (1 - exp (-3 * x)))
      normalized_intensity in
  let T_collector := map (fun rise => T_ambient + rise) T_rise in
  (* operating range for charging *)
  let T_collector := map (fun T => clip T 60 95) T_collector in
  (time_hours, Q_collector, T_collector).

(** The hour of sample [i], the irradiance there (after the cloud factor)
    and the two outputs there. *)
Definition sample_hour (i : nat) : R := INR i * ((15 - 9) / INR (73 - 1)) + 9.

Definition sample_irradiance (i : nat) : R :=
  800 * exp (- ((sample_hour i - 12) ^ 2) / 4.5) * 0.85.

Definition sample_power (collector_area collector_efficiency : R) (i : nat)
  : R :=
  sample_irradiance i * collector_area * collector_efficiency.

Definition sample_temperature (i : nat) : R :=
  clip (-2 + (120 - -2) * (1 - exp (-3 * (sample_irradiance i / (800 * 0.85)))))
    60 95.

(** ** Economic analysis (the [EconomicModel] class) *)

(** Python's [/] on two floats raises [ZeroDivisionError] on a zero divisor;
    [None] stands for the raised error. *)
Definition float_div (x y : R) : option R :=
  if Req_dec_T y 0 then None else Some (x / y).

(** [d.get(key, default)] on a dictionary with string keys. *)
Fixpoint dict_get (d : list (String.string * R)) (key : String.string)
    (default : R) : R :=
  match d with
  | [] => default
  | (k, v) :: d => if String.eqb k key then v else dict_get d key default
  end.

(** [sub in s] on strings. *)
Definition contains (sub s : String.string) : bool :=
  match String.index 0 sub s with
  | Some _ => true
  | None => false
  end.

(** The local dictionary [fuel_costs], in dollars per kWh. *)
Definition fuel_costs : list (String.string * R) :=
  [ ("natural_gas", 0.80 / 29.3);
    ("propane", 2.50 / 27.0);
    ("heating_oil", 3.00 / 40.0);
    ("electric_resistance", 0.15);
    ("heat_pump", 0.15 / 3.0) ].

(** The dictionary returned by [calculate_annual_savings]. *)
Record AnnualSavings : Type := {
  annual_energy_delivered : R;
  annual_fuel_savings : R;
  annual_pump_cost : R;
  net_annual_savings : R;
  simple_payback_years : R;
  npv_10yr : R;
  cost_per_kwh_delivered : R
}.

(** [np.sum]. *)
Definition np_sum (a : list R) : R := fold_right Rplus 0 a.

(** [EconomicModel.calculate_annual_savings]; of [self] only [self.specs]
    is read.  [None] stands for [ZeroDivisionError]. *)
Definition calculate_annual_savings (self_specs : ITB100Specs)
    (cycles_per_year : Z) (heat_source : String.string)
  : option AnnualSavings :=
  (* energy delivered per cycle *)
  let energy_per_cycle := E_storage self_specs in
  let annual_energy := energy_per_cycle * IZR cycles_per_year in
  let fuel_cost_per_kwh := dict_get fuel_costs heat_source 0.10 in
  let furnace_efficiency :=
    if contains "gas" heat_source then 0.90 else 1.0 in
  let annual_fuel_savings :=
    (annual_energy / furnace_efficiency) * fuel_cost_per_kwh in
  (* operating costs (pump electricity) *)
  let pump_power := 50 in
  let hours_per_cycle :=
    t_discharge_design self_specs + t_charge_design self_specs in
  let annual_pump_energy :=
    pump_power * hours_per_cycle * IZR cycles_per_year / 1000 in
  let annual_pump_cost := annual_pump_energy * 0.15 in
  let net_annual_savings := annual_fuel_savings - annual_pump_cost in
  match float_div (capital_cost self_specs) net_annual_savings with
  | None => None
  | Some simple_payback =>
      let discount_rate := 0.03 in
      let years := seq 1 10 in
      let cash_flows :=
        map (fun y => net_annual_savings / ((1 + discount_rate) ^ y)) years in
      let npv_10yr := np_sum cash_flows - capital_cost self_specs in
      match float_div (capital_cost self_specs)
              (annual_energy * lifetime_years self_specs) with
      | None => None
      | Some cost_per_kwh =>
          Some {|
            annual_energy_delivered := annual_energy;
            annual_fuel_savings := annual_fuel_savings;
            annual_pump_cost := annual_pump_cost;
            net_annual_savings := net_annual_savings;
            simple_payback_years := simple_payback;
            npv_10yr := npv_10yr;
            cost_per_kwh_delivered := cost_per_kwh
          |}
      end
  end.

(** The present value of one dollar a year over the ten years, at the 3%
    discount rate of the code. *)
Definition annuity_factor : R :=
  np_sum (map (fun y => 1 / ((1 + 0.03) ^ y)) (seq 1 10)).


(** * Properties *)

(** ** Reflection of the comparisons *)

Lemma Rltb_spec (x y : R) : reflect (x < y) (x <? y).
Proof. unfold Rltb; destruct (Rlt_dec x y); constructor; assumption. Qed.

Lemma Rleb_spec (x y : R) : reflect (x <= y) (x <=? y).
Proof. unfold Rleb; destruct (Rle_dec x y); constructor; assumption. Qed.

(** Case analysis on every comparison of the goal. *)
Ltac cmp_cases :=
  repeat match goal with
  | |- context [Rltb ?a ?b] => destruct (Rltb_spec a b)
  | |- context [Rleb ?a ?b] => destruct (Rleb_spec a b)
  end.

Lemma Rmax_0_nonneg (x : R) : 0 <= Rmax 0 x.
Proof. apply Rmax_l. Qed.

Lemma clamp_bounds (x : R) : 0 <= Rmax 0 (Rmin 1 x) <= 1.
Proof.
  split; [apply Rmax_l|].
  apply Rmax_lub; [lra | apply Rmin_l].
Qed.

Lemma clamp_monotone (x y : R) :
  x <= y -> Rmax 0 (Rmin 1 x) <= Rmax 0 (Rmin 1 y).
Proof.
  intros Hxy. apply Rle_max_compat_l. apply Rle_min_compat_l. exact Hxy.
Qed.

(** ** [step_discharge] follows one of its paths *)

(** The clamp at the end of the liquid-cooling branch, as a maximum. *)
Lemma clamp_at_phase (self : ThermalBatteryModel) (Tp : R) :
  (if T_sat self <=? Tp then set_T_sat self Tp else self)
  = set_T_sat self (Rmax Tp (T_sat self)).
Proof.
  destruct self as [s T f E t]; unfold set_T_sat; cbn.
  destruct (Rleb_spec T Tp) as [H|H].
  - rewrite Rmax_left by exact H. reflexivity.
  - rewrite Rmax_right by lra. reflexivity.
Qed.

Lemma discharge_power_nonneg (self : ThermalBatteryModel) (T_water_in : R) :
  0 <= discharge_power self T_water_in.
Proof. apply Rmax_0_nonneg. Qed.

Lemma charge_power_nonneg (self : ThermalBatteryModel) (T_water_in : R) :
  0 <= charge_power self T_water_in.
Proof. apply Rmax_0_nonneg. Qed.

Lemma step_discharge_case (self : ThermalBatteryModel) (T_water_in dt : R) :
  discharge_case self T_water_in dt (step_discharge self T_water_in dt).
Proof.
  unfold step_discharge. cbv zeta.
  fold (effectiveness (specs self)). fold (discharge_power self T_water_in).
  destruct (Rleb_spec 0.99 (solid_fraction self)) as [Hs|Hs];
    destruct (Rltb_spec (T_sat self) (T_phase (specs self))) as [Ht|Ht];
    cbn [andb];
    try (apply discharge_guarded; left; split; assumption).
  all: destruct (Rleb_spec (T_sat self) (T_water_in + 0.5)) as [Hb|Hb];
    [apply discharge_guarded; right; assumption|].
  all: assert (Hg : ~ discharge_guard self T_water_in)
    by (unfold discharge_guard, depleted; tauto).
  all: destruct (Rltb_spec 0 (discharge_power self T_water_in)) as [HP|HP];
    [| assert (HP0 : discharge_power self T_water_in = 0)
         by (pose proof (discharge_power_nonneg self T_water_in); lra);
       rewrite HP0; apply discharge_idle; assumption ].
  all: destruct (Rltb_spec (T_phase (specs self) + 0.1) (T_sat self)) as [Hl|Hl];
    [ rewrite clamp_at_phase; apply discharge_liquid; assumption |].
  all: destruct (Rltb_spec (solid_fraction self) 0.99) as [Hf|Hf];
    [ apply discharge_latent; try assumption; lra
    | apply discharge_solid; try assumption; lra ].
Qed.

(** ** [step_charge] follows one of its paths *)

(** The clamp at the end of the solid-heating branch, as a minimum. *)
Lemma clamp_below_phase (self : ThermalBatteryModel) (Tp : R) :
  (if T_sat self >=? Tp then set_T_sat self Tp else self)
  = set_T_sat self (Rmin Tp (T_sat self)).
Proof.
  destruct self as [s T f E t]; unfold set_T_sat; cbn.
  destruct (Rleb_spec Tp T) as [H|H].
  - rewrite Rmin_left by exact H. reflexivity.
  - rewrite Rmin_right by lra. reflexivity.
Qed.

Lemma step_charge_case (self : ThermalBatteryModel) (T_water_in dt : R) :
  charge_case self T_water_in dt (step_charge self T_water_in dt).
Proof.
  unfold step_charge. cbv zeta.
  fold (effectiveness (specs self)). fold (charge_power self T_water_in).
  destruct (Rleb_spec (solid_fraction self) 0.01) as [Hs|Hs];
    destruct (Rleb_spec (T_phase (specs self) + 5) (T_sat self)) as [Ht|Ht];
    cbn [andb];
    try (apply charge_guarded; left; split; assumption).
  all: destruct (Rleb_spec T_water_in (T_sat self + 0.5)) as [Hb|Hb];
    [apply charge_guarded; right; assumption|].
  all: assert (Hg : ~ charge_guard self T_water_in)
    by (unfold charge_guard, fully_charged; tauto).
  all: destruct (Rltb_spec 0 (charge_power self T_water_in)) as [HP|HP];
    [| assert (HP0 : charge_power self T_water_in = 0)
         by (pose proof (charge_power_nonneg self T_water_in); lra);
       rewrite HP0; apply charge_idle; assumption ].
  all: destruct (Rltb_spec (T_sat self) (T_phase (specs self) - 0.1)) as [Hl|Hl];
    [ rewrite clamp_below_phase; apply charge_solid; assumption |].
  all: destruct (Rltb_spec 0.01 (solid_fraction self)) as [Hf|Hf];
    [ apply charge_latent; try assumption; lra
    | apply charge_liquid; try assumption; lra ].
Qed.

(** ** Facts shared by the statements below *)

Lemma default_specs_positive : positive_specs default_specs.
Proof. split; cbn; lra. Qed.

Lemma effectiveness_pos (s : ITB100Specs) :
  positive_specs s -> 0 < effectiveness s.
Proof.
  intros [_ _ _ _ Hm Hc Hu _]. unfold effectiveness.
  assert (Hn : 0 < UA_effective s / (m_dot_design s * cp_water s)).
  { apply Rdiv_lt_0_compat; [exact Hu | apply Rmult_lt_0_compat; assumption]. }
  assert (He : exp (- (UA_effective s / (m_dot_design s * cp_water s))) < exp 0).
  { apply exp_increasing. lra. }
  rewrite exp_0 in He. lra.
Qed.

Lemma effectiveness_lt_1 (s : ITB100Specs) : effectiveness s < 1.
Proof.
  unfold effectiveness.
  pose proof (exp_pos (- (UA_effective s / (m_dot_design s * cp_water s)))).
  lra.
Qed.

Lemma discharge_power_pos (self : ThermalBatteryModel) (T_water_in : R) :
  positive_specs (specs self) ->
  T_water_in + 0.5 < T_sat self ->
  0 < discharge_power self T_water_in.
Proof.
  intros Hp Ht. pose proof (effectiveness_pos _ Hp) as He.
  destruct Hp as [_ _ _ _ Hm Hc _ _].
  unfold discharge_power; cbv zeta.
  eapply Rlt_le_trans; [| apply Rmax_r].
  apply Rmult_lt_0_compat; [exact He|].
  apply Rmult_lt_0_compat; [apply Rmult_lt_0_compat; assumption | lra].
Qed.

Lemma charge_power_pos (self : ThermalBatteryModel) (T_water_in : R) :
  positive_specs (specs self) ->
  T_sat self + 0.5 < T_water_in ->
  0 < charge_power self T_water_in.
Proof.
  intros Hp Ht. pose proof (effectiveness_pos _ Hp) as He.
  destruct Hp as [_ _ _ _ Hm Hc _ _].
  unfold charge_power; cbv zeta.
  eapply Rlt_le_trans; [| apply Rmax_r].
  apply Rmult_lt_0_compat; [exact He|].
  apply Rmult_lt_0_compat; [apply Rmult_lt_0_compat; assumption | lra].
Qed.

Lemma step_discharge_specs (self : ThermalBatteryModel) (T_water_in dt : R) :
  specs (snd (step_discharge self T_water_in dt)) = specs self.
Proof. destruct (step_discharge_case self T_water_in dt); reflexivity. Qed.

Lemma step_charge_specs (self : ThermalBatteryModel) (T_water_in dt : R) :
  specs (snd (step_charge self T_water_in dt)) = specs self.
Proof. destruct (step_charge_case self T_water_in dt); reflexivity. Qed.

(** In every path the stored energy moves by the floored power times [dt];
    on the guarded paths that power is not computed and nothing moves. *)
Lemma step_discharge_energy (self : ThermalBatteryModel) (T_water_in dt : R) :
  ~ discharge_guard self T_water_in ->
  E_stored (snd (step_discharge self T_water_in dt))
  = E_stored self - discharge_power self T_water_in * dt.
Proof.
  intros Hg.
  destruct (step_discharge_case self T_water_in dt) as [G|_ H0|s P|s P|s P];
    cbn; try reflexivity.
  - contradiction.
  - rewrite H0. ring.
Qed.

Lemma step_charge_energy (self : ThermalBatteryModel) (T_water_in dt : R) :
  E_stored (snd (step_charge self T_water_in dt))
  = E_stored self + fst (fst (step_charge self T_water_in dt)) * dt.
Proof.
  destruct (step_charge_case self T_water_in dt) as [G|_ H0|s P|s P|s P];
    cbn; try reflexivity; ring.
Qed.

(** Closes a goal about literals after exposing the fields. *)
Ltac by_fields :=
  unfold discharge_guard, charge_guard, depleted, fully_charged, state_of;
  cbn; try tauto; lra.


(** ** Guards *)

(** C10. When a guard branch of [step_discharge] or [step_charge] fires, the
    call returns zero power and the inlet temperature and leaves every field
    of the state (temperature, solid fraction, stored energy, elapsed time)
    as it was; on every other path the elapsed time advances by [dt]. *)
Theorem guard_branches_preserve_state
    (self : ThermalBatteryModel) (T_water_in dt : R) :
  (discharge_guard self T_water_in ->
     step_discharge self T_water_in dt = ((0, T_water_in), self))
  /\ (charge_guard self T_water_in ->
     step_charge self T_water_in dt = ((0, T_water_in), self))
  /\ (~ discharge_guard self T_water_in ->
     time (snd (step_discharge self T_water_in dt)) = time self + dt)
  /\ (~ charge_guard self T_water_in ->
     time (snd (step_charge self T_water_in dt)) = time self + dt).
Proof.
  repeat split; intros Hg.
  - destruct (step_discharge_case self T_water_in dt);
      [reflexivity | contradiction ..].
  - destruct (step_charge_case self T_water_in dt);
      [reflexivity | contradiction ..].
  - destruct (step_discharge_case self T_water_in dt);
      [contradiction | reflexivity ..].
  - destruct (step_charge_case self T_water_in dt);
      [contradiction | reflexivity ..].
Qed.

(** A depleted battery at 20 degrees against a 40 degree inlet, and a battery
    at the plateau against the same inlet. *)
Lemma guard_branches_preserve_state_witness :
  (discharge_guard (state_of 20 1 0) 40 /\
   step_discharge (state_of 20 1 0) 40 60 = ((0, 40), state_of 20 1 0))
  /\ (~ discharge_guard (state_of 58 0.05 0) 40 /\
      time (snd (step_discharge (state_of 58 0.05 0) 40 60)) = 0 + 60).
Proof.
  split; split.
  - by_fields.
  - apply (proj1 (guard_branches_preserve_state (state_of 20 1 0) 40 60)).
    by_fields.
  - by_fields.
  - apply (proj1 (proj2 (proj2
             (guard_branches_preserve_state (state_of 58 0.05 0) 40 60)))).
    by_fields.
Defined.

(** C3, as stated, fails: a fully solid medium exactly at the phase-change
    temperature, 18 degrees above the inlet, is inside the specified guard,
    yet the call returns an outlet temperature above the inlet. *)
Lemma discharge_at_phase_temperature_warms_outlet :
  discharge_guard_as_specified (state_of 58 1 0) 40
  /\ fst (step_discharge (state_of 58 1 0) 40 60) <> (0, 40).
Proof.
  split.
  - unfold discharge_guard_as_specified, state_of; cbn. left. lra.
  - pose proof (discharge_power_pos (state_of 58 1 0) 40
                  default_specs_positive) as HP.
    destruct (step_discharge_case (state_of 58 1 0) 40 60)
      as [G|G H0|s P G HP' Hl|s P G HP' Hl Hf|s P G HP' Hl Hf];
      cbn in *.
    + exfalso. revert G. by_fields.
    + exfalso. cbn in HP. lra.
    + exfalso. lra.
    + exfalso. lra.
    + intros E. injection E as E. subst s; cbn in E.
      assert (0 < P / (0.074 * 4186)) by (apply Rdiv_lt_0_compat; lra).
      lra.
Qed.

(** C3, amended.  If the medium is fully solid ([solid_fraction >= 0.99]) and
    strictly below the phase-change temperature, or if it is not more than
    0.5 degrees above the inlet, [step_discharge] returns zero power and the
    inlet temperature.  Under the guard as specified (at or below the
    phase-change temperature) the returned power is still zero. *)
Theorem discharge_guard_returns_inlet
    (self : ThermalBatteryModel) (T_water_in dt : R) :
  (discharge_guard self T_water_in ->
     fst (step_discharge self T_water_in dt) = (0, T_water_in))
  /\ (discharge_guard_as_specified self T_water_in ->
     fst (fst (step_discharge self T_water_in dt)) = 0).
Proof.
  split; intros Hg.
  - destruct (step_discharge_case self T_water_in dt);
      [reflexivity | contradiction ..].
  - destruct (step_discharge_case self T_water_in dt)
      as [G|G H0|s P G HP Hl|s P G HP Hl Hf|s P G HP Hl Hf];
      cbn; try reflexivity; exfalso;
      unfold discharge_guard_as_specified, discharge_guard, depleted in *;
      subst s; lra.
Qed.

Lemma discharge_guard_returns_inlet_witness :
  (discharge_guard (state_of 20 1 0) 40 /\
   fst (step_discharge (state_of 20 1 0) 40 60) = (0, 40))
  /\ (discharge_guard_as_specified (state_of 58 1 0) 40 /\
      fst (fst (step_discharge (state_of 58 1 0) 40 60)) = 0).
Proof.
  split; split.
  - by_fields.
  - apply (proj1 (discharge_guard_returns_inlet (state_of 20 1 0) 40 60)).
    by_fields.
  - unfold discharge_guard_as_specified, state_of; cbn. left. lra.
  - apply (proj2 (discharge_guard_returns_inlet (state_of 58 1 0) 40 60)).
    unfold discharge_guard_as_specified, state_of; cbn. left. lra.
Defined.

(** ** The effectiveness-NTU power *)

(** The floored power of the code is the specified formula: the two differ
    in the grouping of the product only. *)
Lemma discharge_power_ntu (self : ThermalBatteryModel) (T_water_in : R) :
  discharge_power self T_water_in
  = ntu_power_spec (specs self) (T_sat self - T_water_in).
Proof.
  unfold discharge_power, ntu_power_spec, effectiveness; cbv zeta.
  f_equal. ring.
Qed.

Lemma charge_power_ntu (self : ThermalBatteryModel) (T_water_in : R) :
  charge_power self T_water_in
  = ntu_power_spec (specs self) (T_water_in - T_sat self).
Proof.
  unfold charge_power, ntu_power_spec, effectiveness; cbv zeta.
  f_equal. ring.
Qed.

(** C4. On a call not rejected by the guards, the power that [step_discharge]
    computes is [P = max(0, (1 - exp(-UA/(m_dot*cp_water))) * m_dot * cp_water
    * (T_sat - T_in))]: the stored energy moves by [P * dt], the returned
    outlet temperature is [T_in + P / (m_dot * cp_water)], and the returned
    power is [P] outside the solid-cooling regime.  [step_charge] is the
    mirror: with the driving difference [T_in - T_sat] it returns [P], the
    outlet [T_in - P / (m_dot * cp_water)], and adds [P * dt]. *)
Theorem effectiveness_ntu_formula
    (self : ThermalBatteryModel) (T_water_in dt : R) :
  let s := specs self in
  (~ discharge_guard self T_water_in ->
     let P := ntu_power_spec s (T_sat self - T_water_in) in
     let r := step_discharge self T_water_in dt in
     snd (fst r) = T_water_in + P / (m_dot_design s * cp_water s)
     /\ E_stored (snd r) = E_stored self - P * dt
     /\ (~ solid_cooling_regime self -> fst (fst r) = P))
  /\ (~ charge_guard self T_water_in ->
     let P := ntu_power_spec s (T_water_in - T_sat self) in
     let r := step_charge self T_water_in dt in
     fst (fst r) = P
     /\ snd (fst r) = T_water_in - P / (m_dot_design s * cp_water s)
     /\ E_stored (snd r) = E_stored self + P * dt).
Proof.
  cbv zeta. split; intros Hg.
  - rewrite <- discharge_power_ntu.
    destruct (step_discharge_case self T_water_in dt)
      as [G|G H0|s P G HP Hl|s P G HP Hl Hf|s P G HP Hl Hf];
      try contradiction; cbn.
    + rewrite H0. repeat split; try intros _; unfold Rdiv; ring.
    + repeat split.
    + repeat split.
    + repeat split. intros Hn. exfalso. apply Hn. split; assumption.
  - rewrite <- charge_power_ntu.
    destruct (step_charge_case self T_water_in dt)
      as [G|G H0|s P G HP Hl|s P G HP Hl Hf|s P G HP Hl Hf];
      try contradiction; cbn.
    + rewrite H0. repeat split; unfold Rdiv; ring.
    + repeat split.
    + repeat split.
    + repeat split.
Qed.

Lemma effectiveness_ntu_formula_witness :
  ~ discharge_guard (state_of 58 0.05 0) 40
  /\ (let P := ntu_power_spec default_specs (58 - 40) in
      let r := step_discharge (state_of 58 0.05 0) 40 60 in
      snd (fst r) = 40 + P / (0.074 * 4186)
      /\ E_stored (snd r) = 0 - P * 60
      /\ (~ solid_cooling_regime (state_of 58 0.05 0) -> fst (fst r) = P)).
Proof.
  split.
  - by_fields.
  - apply (proj1 (effectiveness_ntu_formula (state_of 58 0.05 0) 40 60)).
    by_fields.
Defined.

(** ** The solid-cooling regime *)

(** C6. In the fully-solid sensible-cooling regime of [step_discharge]
    ([solid_fraction >= 0.99], not caught by the guards, temperature not
    above the phase-change temperature plus 0.1) the returned power is zero,
    yet the stored energy decreases by the energy removed; on every path past
    the guards, whichever of the three regimes is taken, the stored energy
    decreases by the floored power times [dt], a positive amount when the
    specifications and [dt] are positive. *)
Theorem solid_cooling_gives_no_credit
    (self : ThermalBatteryModel) (T_water_in dt : R) :
  ~ discharge_guard self T_water_in ->
  let r := step_discharge self T_water_in dt in
  let dE := discharge_power self T_water_in * dt in
  (solid_cooling_regime self -> fst (fst r) = 0)
  /\ E_stored (snd r) = E_stored self - dE
  /\ (positive_specs (specs self) -> 0 < dt ->
      0 < dE /\ E_stored (snd r) < E_stored self).
Proof.
  intros Hg r dE. subst r dE.
  rewrite step_discharge_energy by exact Hg.
  split; [| split].
  - intros [Hf Hl].
    destruct (step_discharge_case self T_water_in dt)
      as [G|G H0|s P G HP Hl'|s P G HP Hl' Hf'|s P G HP Hl' Hf'];
      cbn; try reflexivity; exfalso; subst s; lra.
  - reflexivity.
  - intros Hp Hdt.
    assert (HP : 0 < discharge_power self T_water_in).
    { apply discharge_power_pos; [exact Hp|].
      unfold discharge_guard in Hg. lra. }
    assert (0 < discharge_power self T_water_in * dt)
      by (apply Rmult_lt_0_compat; assumption).
    lra.
Qed.

Lemma solid_cooling_gives_no_credit_witness :
  ~ discharge_guard (state_of 58 1 1000) 40
  /\ (let r := step_discharge (state_of 58 1 1000) 40 60 in
      let dE := discharge_power (state_of 58 1 1000) 40 * 60 in
      (solid_cooling_regime (state_of 58 1 1000) -> fst (fst r) = 0)
      /\ E_stored (snd r) = 1000 - dE
      /\ (positive_specs default_specs -> 0 < 60 ->
          0 < dE /\ E_stored (snd r) < 1000)).
Proof.
  split.
  - by_fields.
  - apply (solid_cooling_gives_no_credit (state_of 58 1 1000) 40 60).
    by_fields.
Defined.

(** ** Bounds of the state *)

(** C2. From a state with [solid_fraction] in [0, 1], one call of
    [step_discharge] or of [step_charge] (any inlet temperature, any positive
    [dt]) leaves [solid_fraction] in [0, 1]; and [get_state_of_charge]
    returns a value in [0, 1] in every state. *)
Theorem state_bounds (self : ThermalBatteryModel) (T_water_in dt : R) :
  (positive_specs (specs self) -> 0 < dt ->
   0 <= solid_fraction self <= 1 ->
   0 <= solid_fraction (snd (step_discharge self T_water_in dt)) <= 1
   /\ 0 <= solid_fraction (snd (step_charge self T_water_in dt)) <= 1)
  /\ 0 <= get_state_of_charge self <= 1
  /\ 0 <= get_state_of_charge (snd (step_discharge self T_water_in dt)) <= 1
  /\ 0 <= get_state_of_charge (snd (step_charge self T_water_in dt)) <= 1.
Proof.
  split; [| repeat split; apply clamp_bounds].
  intros [HH _ _ HM _ _ _ _] Hdt Hf. split.
  - destruct (step_discharge_case self T_water_in dt)
      as [G|G H0|s P G HP Hl|s P G HP Hl Hf'|s P G HP Hl Hf'];
      cbn; try exact Hf.
    assert (0 < P * dt / delta_H_fusion s / M_sat s).
    { repeat apply Rdiv_lt_0_compat; try assumption.
      apply Rmult_lt_0_compat; assumption. }
    split; [apply Rmin_glb; lra | apply Rmin_l].
  - destruct (step_charge_case self T_water_in dt)
      as [G|G H0|s P G HP Hl|s P G HP Hl Hf'|s P G HP Hl Hf'];
      cbn; try exact Hf.
    assert (0 < P * dt / delta_H_fusion s / M_sat s).
    { repeat apply Rdiv_lt_0_compat; try assumption.
      apply Rmult_lt_0_compat; assumption. }
    split; [apply Rmax_l | apply Rmax_lub; lra].
Qed.

Lemma state_bounds_witness :
  (positive_specs default_specs /\ 0 < 60 /\ 0 <= 0.05 <= 1)
  /\ 0 <= solid_fraction (snd (step_discharge (state_of 58 0.05 0) 40 60)) <= 1
  /\ 0 <= solid_fraction (snd (step_charge (state_of 58 0.05 0) 40 60)) <= 1.
Proof.
  split.
  - split; [exact default_specs_positive | lra].
  - apply (proj1 (state_bounds (state_of 58 0.05 0) 40 60)).
    + exact default_specs_positive.
    + lra.
    + cbn; lra.
Defined.

(** ** Monotonicity of the state of charge *)

Lemma state_of_charge_le (m1 m2 : ThermalBatteryModel) :
  specs m1 = specs m2 ->
  0 < E_storage (specs m2) ->
  E_stored m1 <= E_stored m2 ->
  get_state_of_charge m1 <= get_state_of_charge m2.
Proof.
  intros Hs HE Hle. unfold get_state_of_charge; cbv zeta. rewrite Hs.
  apply clamp_monotone. apply Rmult_le_compat_r; [| exact Hle].
  apply Rlt_le, Rinv_0_lt_compat. lra.
Qed.

Lemma step_discharge_energy_le (self : ThermalBatteryModel) (T_water_in dt : R) :
  0 < dt ->
  E_stored (snd (step_discharge self T_water_in dt)) <= E_stored self.
Proof.
  intros Hdt.
  destruct (step_discharge_case self T_water_in dt)
    as [G|G H0|s P G HP Hl|s P G HP Hl Hf|s P G HP Hl Hf];
    cbn; try lra;
    assert (0 < P * dt) by (apply Rmult_lt_0_compat; assumption); lra.
Qed.

Lemma step_charge_energy_le (self : ThermalBatteryModel) (T_water_in dt : R) :
  0 < dt ->
  E_stored self <= E_stored (snd (step_charge self T_water_in dt)).
Proof.
  intros Hdt.
  destruct (step_charge_case self T_water_in dt)
    as [G|G H0|s P G HP Hl|s P G HP Hl Hf|s P G HP Hl Hf];
    cbn; try lra;
    assert (0 < P * dt) by (apply Rmult_lt_0_compat; assumption); lra.
Qed.

Lemma step_discharge_soc (self : ThermalBatteryModel) (T_water_in dt : R) :
  0 < E_storage (specs self) -> 0 < dt ->
  get_state_of_charge (snd (step_discharge self T_water_in dt))
  <= get_state_of_charge self.
Proof.
  intros HE Hdt. apply state_of_charge_le.
  - apply step_discharge_specs.
  - exact HE.
  - apply step_discharge_energy_le, Hdt.
Qed.

Lemma step_charge_soc (self : ThermalBatteryModel) (T_water_in dt : R) :
  0 < E_storage (specs self) -> 0 < dt ->
  get_state_of_charge self
  <= get_state_of_charge (snd (step_charge self T_water_in dt)).
Proof.
  intros HE Hdt. apply state_of_charge_le.
  - symmetry. apply step_charge_specs.
  - rewrite step_charge_specs. exact HE.
  - apply step_charge_energy_le, Hdt.
Qed.

Lemma discharge_steps_app (self : ThermalBatteryModel) (a b : list (R * R)) :
  discharge_steps self (a ++ b) = discharge_steps (discharge_steps self a) b.
Proof.
  revert self. induction a as [|[T dt] a IH]; intros self; cbn;
    [reflexivity | apply IH].
Qed.

Lemma charge_steps_app (self : ThermalBatteryModel) (a b : list (R * R)) :
  charge_steps self (a ++ b) = charge_steps (charge_steps self a) b.
Proof.
  revert self. induction a as [|[T dt] a IH]; intros self; cbn;
    [reflexivity | apply IH].
Qed.

Lemma discharge_steps_specs (self : ThermalBatteryModel) (calls : list (R * R)) :
  specs (discharge_steps self calls) = specs self.
Proof.
  revert self. induction calls as [|[T dt] calls IH]; intros self; cbn.
  - reflexivity.
  - rewrite IH. apply step_discharge_specs.
Qed.

Lemma charge_steps_specs (self : ThermalBatteryModel) (calls : list (R * R)) :
  specs (charge_steps self calls) = specs self.
Proof.
  revert self. induction calls as [|[T dt] calls IH]; intros self; cbn.
  - reflexivity.
  - rewrite IH. apply step_charge_specs.
Qed.

Lemma discharge_steps_soc (self : ThermalBatteryModel) (calls : list (R * R)) :
  0 < E_storage (specs self) ->
  Forall (fun call => 0 < snd call) calls ->
  get_state_of_charge (discharge_steps self calls) <= get_state_of_charge self.
Proof.
  intros HE Hall. revert self HE.
  induction Hall as [|[T dt] calls Hdt _ IH]; intros self HE; cbn.
  - apply Rle_refl.
  - eapply Rle_trans.
    + apply IH. rewrite step_discharge_specs. exact HE.
    + apply (step_discharge_soc self T dt HE Hdt).
Qed.

Lemma charge_steps_soc (self : ThermalBatteryModel) (calls : list (R * R)) :
  0 < E_storage (specs self) ->
  Forall (fun call => 0 < snd call) calls ->
  get_state_of_charge self <= get_state_of_charge (charge_steps self calls).
Proof.
  intros HE Hall. revert self HE.
  induction Hall as [|[T dt] calls Hdt _ IH]; intros self HE; cbn.
  - apply Rle_refl.
  - eapply Rle_trans.
    + apply (step_charge_soc self T dt HE Hdt).
    + apply IH. rewrite step_charge_specs. exact HE.
Qed.

(** C7. With positive specifications, a call of [step_discharge] with a
    positive [dt] never increases [get_state_of_charge] and a call of
    [step_charge] never decreases it, whatever the state and the inlet
    temperature; hence along an uninterrupted sequence of discharge calls the
    state of charge after more calls is at most the one after fewer, and
    along a sequence of charge calls at least. *)
Theorem state_of_charge_monotone (self : ThermalBatteryModel) :
  positive_specs (specs self) ->
  (forall T_water_in dt : R, 0 < dt ->
     get_state_of_charge (snd (step_discharge self T_water_in dt))
     <= get_state_of_charge self
     /\ get_state_of_charge self
        <= get_state_of_charge (snd (step_charge self T_water_in dt)))
  /\ (forall earlier later : list (R * R),
        Forall (fun call => 0 < snd call) later ->
        get_state_of_charge (discharge_steps self (earlier ++ later))
        <= get_state_of_charge (discharge_steps self earlier)
        /\ get_state_of_charge (charge_steps self earlier)
           <= get_state_of_charge (charge_steps self (earlier ++ later))).
Proof.
  intros [_ _ _ _ _ _ _ HE]. split.
  - intros T_water_in dt Hdt. split.
    + apply step_discharge_soc; assumption.
    + apply step_charge_soc; assumption.
  - intros earlier later Hall. split.
    + rewrite discharge_steps_app. apply discharge_steps_soc; [| exact Hall].
      rewrite discharge_steps_specs. exact HE.
    + rewrite charge_steps_app. apply charge_steps_soc; [| exact Hall].
      rewrite charge_steps_specs. exact HE.
Qed.

Lemma state_of_charge_monotone_witness :
  positive_specs default_specs
  /\ get_state_of_charge
       (snd (step_discharge (discharge_initial_state default_specs) 40 60))
     <= get_state_of_charge (discharge_initial_state default_specs)
  /\ get_state_of_charge (discharge_initial_state default_specs)
     <= get_state_of_charge
          (charge_steps (discharge_initial_state default_specs)
             ([] ++ [(70, 60); (80, 30)])).
Proof.
  pose proof (state_of_charge_monotone
                (discharge_initial_state default_specs)
                default_specs_positive) as [Hstep Hseq].
  split; [exact default_specs_positive | split].
  - apply Hstep. lra.
  - apply (Hseq [] [(70, 60); (80, 30)]).
    repeat constructor; cbn; lra.
Defined.

(** ** The phase plateau *)

Lemma step_discharge_plateau_band
    (self : ThermalBatteryModel) (T_water_in dt : R) :
  plateau_band self ->
  plateau_band (snd (step_discharge self T_water_in dt)).
Proof.
  unfold plateau_band. intros Hinv.
  destruct (step_discharge_case self T_water_in dt)
    as [G|G H0|s P G HP Hl|s P G HP Hl Hf|s P G HP Hl Hf];
    cbn; try exact Hinv.
  - (* liquid cooling: the solid fraction is outside the band already *)
    intros Hband. specialize (Hinv Hband). subst s. lra.
  - (* latent: the temperature is set to the phase-change temperature *)
    reflexivity.
  - (* solid cooling: the solid fraction stays at or above 0.99 *)
    intros Hband. lra.
Qed.

Lemma step_charge_plateau_band
    (self : ThermalBatteryModel) (T_water_in dt : R) :
  plateau_band self ->
  plateau_band (snd (step_charge self T_water_in dt)).
Proof.
  unfold plateau_band. intros Hinv.
  destruct (step_charge_case self T_water_in dt)
    as [G|G H0|s P G HP Hl|s P G HP Hl Hf|s P G HP Hl Hf];
    cbn; try exact Hinv.
  - intros Hband. specialize (Hinv Hband). subst s. lra.
  - reflexivity.
  - intros Hband. lra.
Qed.

(** C1, as stated, fails.  A state at the phase-change temperature with
    solid fraction 0.995 satisfies the plateau predicate; the code treats it
    as fully solid, and one discharge call against a 40 degree inlet cools it
    below the phase-change temperature with the solid fraction still 0.995.
    The mirror holds for charging at solid fraction 0.005. *)
Lemma plateau_lost_beyond_thresholds :
  (plateau (state_of 58 0.995 0)
   /\ ~ plateau (snd (step_discharge (state_of 58 0.995 0) 40 60)))
  /\ (plateau (state_of 58 0.005 0)
      /\ ~ plateau (snd (step_charge (state_of 58 0.005 0) 70 60))).
Proof.
  split; split; try (intros _; reflexivity).
  - pose proof (discharge_power_pos (state_of 58 0.995 0) 40
                  default_specs_positive) as HP.
    unfold plateau.
    destruct (step_discharge_case (state_of 58 0.995 0) 40 60)
      as [G|G H0|s P G HP' Hl|s P G HP' Hl Hf|s P G HP' Hl Hf];
      cbn in *.
    + exfalso. revert G. by_fields.
    + exfalso. lra.
    + exfalso. lra.
    + exfalso. lra.
    + intros Hp. subst s; cbn in Hp.
      assert (0 < P * 60 / (227.1 * 2100))
        by (apply Rdiv_lt_0_compat; lra).
      lra.
  - pose proof (charge_power_pos (state_of 58 0.005 0) 70
                  default_specs_positive) as HP.
    unfold plateau.
    destruct (step_charge_case (state_of 58 0.005 0) 70 60)
      as [G|G H0|s P G HP' Hl|s P G HP' Hl Hf|s P G HP' Hl Hf];
      cbn in *.
    + exfalso. revert G. by_fields.
    + exfalso. lra.
    + exfalso. lra.
    + exfalso. lra.
    + intros Hp. subst s; cbn in Hp.
      assert (0 < P * 60 / (227.1 * 3500))
        by (apply Rdiv_lt_0_compat; lra).
      lra.
Qed.

(** C1, amended.  Whenever [0.01 < solid_fraction < 0.99], the temperature
    equals the phase-change temperature exactly: the predicate is preserved
    by every call of [step_discharge] and of [step_charge], for any inlet
    temperature and any [dt], and it holds in every state reachable from the
    initial state of either simulation. *)
Theorem plateau_band_invariant :
  (forall (self : ThermalBatteryModel) (T_water_in dt : R),
     plateau_band self ->
     plateau_band (snd (step_discharge self T_water_in dt))
     /\ plateau_band (snd (step_charge self T_water_in dt)))
  /\ (forall (s : ITB100Specs) (self : ThermalBatteryModel),
        reachable s self -> plateau_band self).
Proof.
  split.
  - intros self T_water_in dt Hinv. split.
    + apply step_discharge_plateau_band, Hinv.
    + apply step_charge_plateau_band, Hinv.
  - intros s self Hr. induction Hr.
    + intros _. reflexivity.
    + unfold plateau_band; cbn. lra.
    + apply step_discharge_plateau_band. assumption.
    + apply step_charge_plateau_band. assumption.
Qed.

Lemma plateau_band_invariant_witness :
  reachable default_specs
    (snd (step_discharge (discharge_initial_state default_specs) 40 60))
  /\ plateau_band
       (snd (step_discharge (discharge_initial_state default_specs) 40 60)).
Proof.
  assert (Hr : reachable default_specs
            (snd (step_discharge (discharge_initial_state default_specs)
                    40 60)))
    by (apply reachable_discharge, reachable_charged).
  split; [exact Hr |].
  exact (proj2 plateau_band_invariant default_specs _ Hr).
Defined.

(** ** Construction *)

(** C9, as stated, fails: neither constructor validates anything.  With a
    negative storage mass, and with [UA] and the flow rate zero, both
    constructions return. *)
Lemma construction_accepts_invalid_configuration :
  invalid_configuration (specs_with (-1) 0 0)
  /\ ITB100Specs_init (specs_with (-1) 0 0)
     <> Raises ConfigurationError
  /\ ThermalBatteryModel_init (specs_with (-1) 0 0)
     <> Raises ConfigurationError.
Proof.
  split; [| split].
  - left. cbn. lra.
  - discriminate.
  - discriminate.
Qed.

(** C9, amended.  Construction performs no validation: for any field values
    [ITB100Specs] returns the specification holding the values as given, and
    [ThermalBatteryModel] returns the model over these specifications in the
    reset state (20 degrees, fully solid, no stored energy, time zero); no
    configuration error is ever raised. *)
Theorem construction_never_fails (fields : ITB100Specs) :
  ITB100Specs_init fields = Returns fields
  /\ ThermalBatteryModel_init fields
     = Returns {| specs := fields; T_sat := 20; solid_fraction := 1;
                  E_stored := 0; time := 0 |}
  /\ (forall e : exception,
        ITB100Specs_init fields <> Raises e
        /\ ThermalBatteryModel_init fields <> Raises e).
Proof.
  split; [reflexivity | split; [reflexivity |]].
  intros e. split; discriminate.
Qed.

(** ** Lists and indices *)

Lemma firstn_snoc (l : list R) (i : nat) :
  (i < length l)%nat -> firstn (S i) l = firstn i l ++ [nth i l 0].
Proof.
  revert i. induction l as [|x l IH]; intros i Hi; cbn in Hi.
  - lia.
  - destruct i as [|i]; [reflexivity|].
    cbn [firstn nth app]. f_equal. apply IH. lia.
Qed.

Lemma index_in_range (a : list R) (i : nat) :
  (i < length a)%nat -> index a i = Returns (nth i a 0).
Proof.
  intros Hi. unfold index.
  rewrite (nth_error_nth' a 0 Hi). reflexivity.
Qed.

Lemma nth_map_seq (f : nat -> R) (n i : nat) :
  (i < n)%nat -> nth i (map f (seq 0 n)) 0 = f i.
Proof.
  intros Hi.
  rewrite (nth_indep _ 0 (f 0%nat)) by (rewrite length_map, length_seq; exact Hi).
  rewrite map_nth, seq_nth by exact Hi. reflexivity.
Qed.

Lemma time_after_step (k : nat) (dt : R) : INR k * dt + dt = INR (S k) * dt.
Proof. rewrite S_INR. ring. Qed.

(** ** The charge loop *)

Lemma charge_state_at_S (s : ITB100Specs) (T_collector : list R) (dt : R)
    (i : nat) :
  (i < length T_collector)%nat ->
  charge_state_at s T_collector dt (S i)
  = snd (step_charge (charge_state_at s T_collector dt i)
           (nth i T_collector 0) dt).
Proof.
  intros Hi. unfold charge_state_at.
  rewrite (firstn_snoc _ _ Hi), map_app, charge_steps_app. reflexivity.
Qed.

(** From index [i] the loop runs to some index [n], through the states and
    histories of the run, as long as both arrays are long enough. *)
Lemma charge_loop_run (s : ITB100Specs) (solar_profile T_collector : list R)
    (dt : R) (remaining : nat) :
  forall i : nat,
    (i + remaining <= length solar_profile)%nat ->
    (i + remaining <= length T_collector)%nat ->
    exists n : nat,
      (i <= n <= i + remaining)%nat
      /\ charge_loop remaining i (charge_state_at s T_collector dt i)
           solar_profile T_collector dt (INR i * dt)
           (charge_history s solar_profile T_collector dt i)
         = Returns (charge_state_at s T_collector dt n, INR n * dt,
                    charge_history s solar_profile T_collector dt n).
Proof.
  induction remaining as [|remaining IH]; intros i Hs Hc.
  - exists i. split; [lia | reflexivity].
  - cbn [charge_loop].
    rewrite index_in_range by lia. cbn [bind].
    rewrite index_in_range by lia. cbn [bind].
    assert (Hi : (i < length T_collector)%nat) by lia.
    pose proof (charge_state_at_S s T_collector dt i Hi) as Hnext.
    assert (Hcall : fst (step_charge (charge_state_at s T_collector dt i)
                           (nth i T_collector 0) dt)
                    = charge_call s T_collector dt i) by reflexivity.
    destruct (step_charge (charge_state_at s T_collector dt i)
                (nth i T_collector 0) dt) as [[Q_actual T_out] model].
    cbn [fst snd] in Hnext, Hcall. subst model.
    rewrite time_after_step.
    assert (Hh :
      {| time_history :=
           time_history (charge_history s solar_profile T_collector dt i)
           ++ [INR i * dt / 3600];
         T_sat_history :=
           T_sat_history (charge_history s solar_profile T_collector dt i)
           ++ [T_sat (charge_state_at s T_collector dt (S i))];
         T_out_history :=
           T_out_history (charge_history s solar_profile T_collector dt i)
           ++ [T_out];
         Q_history :=
           Q_history (charge_history s solar_profile T_collector dt i)
           ++ [Rmin Q_actual (nth i solar_profile 0) / 1000];
         Q_available_history :=
           Q_available_history
             (charge_history s solar_profile T_collector dt i)
           ++ [nth i solar_profile 0 / 1000];
         SOC_history :=
           SOC_history (charge_history s solar_profile T_collector dt i)
           ++ [get_state_of_charge (charge_state_at s T_collector dt (S i))];
         solid_fraction_history :=
           solid_fraction_history
             (charge_history s solar_profile T_collector dt i)
           ++ [solid_fraction (charge_state_at s T_collector dt (S i))] |}
      = charge_history s solar_profile T_collector dt (S i)).
    { cbn [charge_history]. rewrite <- Hcall. reflexivity. }
    rewrite Hh.
    destruct (Rleb_spec 0.99
                (get_state_of_charge (charge_state_at s T_collector dt (S i))))
      as [Hfull|Hfull].
    + exists (S i). split; [lia | reflexivity].
    + destruct (IH (S i)) as [n [Hn Hrun]]; [lia | lia |].
      exists n. split; [lia | exact Hrun].
Qed.

Lemma charge_history_Q (s : ITB100Specs) (solar_profile T_collector : list R)
    (dt : R) (n : nat) :
  Q_history (charge_history s solar_profile T_collector dt n)
  = map (fun i => Rmin (fst (charge_call s T_collector dt i))
                    (nth i solar_profile 0) / 1000)
      (seq 0 n).
Proof.
  induction n as [|n IH]; [reflexivity|].
  rewrite seq_S, map_app. cbn [charge_history Q_history]. rewrite IH.
  reflexivity.
Qed.

Lemma charge_history_Q_available
    (s : ITB100Specs) (solar_profile T_collector : list R) (dt : R) (n : nat) :
  Q_available_history (charge_history s solar_profile T_collector dt n)
  = map (fun i => nth i solar_profile 0 / 1000) (seq 0 n).
Proof.
  induction n as [|n IH]; [reflexivity|].
  rewrite seq_S, map_app. cbn [charge_history Q_available_history].
  rewrite IH. reflexivity.
Qed.

Lemma charge_history_time (s : ITB100Specs) (solar_profile T_collector : list R)
    (dt : R) (n : nat) :
  time_history (charge_history s solar_profile T_collector dt n)
  = map (fun i => INR i * dt / 3600) (seq 0 n).
Proof.
  induction n as [|n IH]; [reflexivity|].
  rewrite seq_S, map_app. cbn [charge_history time_history]. rewrite IH.
  reflexivity.
Qed.

Lemma charge_history_T_sat (s : ITB100Specs)
    (solar_profile T_collector : list R) (dt : R) (n : nat) :
  T_sat_history (charge_history s solar_profile T_collector dt n)
  = map (fun i => T_sat (charge_state_at s T_collector dt (S i))) (seq 0 n).
Proof.
  induction n as [|n IH]; [reflexivity|].
  rewrite seq_S, map_app. cbn [charge_history T_sat_history]. rewrite IH.
  reflexivity.
Qed.

Lemma charge_history_T_out (s : ITB100Specs)
    (solar_profile T_collector : list R) (dt : R) (n : nat) :
  T_out_history (charge_history s solar_profile T_collector dt n)
  = map (fun i => snd (charge_call s T_collector dt i)) (seq 0 n).
Proof.
  induction n as [|n IH]; [reflexivity|].
  rewrite seq_S, map_app. cbn [charge_history T_out_history]. rewrite IH.
  reflexivity.
Qed.

Lemma charge_history_SOC (s : ITB100Specs)
    (solar_profile T_collector : list R) (dt : R) (n : nat) :
  SOC_history (charge_history s solar_profile T_collector dt n)
  = map (fun i => get_state_of_charge (charge_state_at s T_collector dt (S i)))
      (seq 0 n).
Proof.
  induction n as [|n IH]; [reflexivity|].
  rewrite seq_S, map_app. cbn [charge_history SOC_history]. rewrite IH.
  reflexivity.
Qed.

Lemma charge_history_solid_fraction (s : ITB100Specs)
    (solar_profile T_collector : list R) (dt : R) (n : nat) :
  solid_fraction_history (charge_history s solar_profile T_collector dt n)
  = map (fun i => solid_fraction (charge_state_at s T_collector dt (S i)))
      (seq 0 n).
Proof.
  induction n as [|n IH]; [reflexivity|].
  rewrite seq_S, map_app. cbn [charge_history solid_fraction_history].
  rewrite IH. reflexivity.
Qed.

(** Every run of the loop that returns, whatever the lengths of the two
    arrays: it has read [n - i] samples of both, its model is the state
    after [n] engine steps, its clock is [n * dt], its histories are those
    of the run, and it has left early exactly on a full battery. *)
Lemma charge_loop_returns (s : ITB100Specs) (solar_profile T_collector : list R)
    (dt : R) (remaining : nat) :
  forall (i : nat) (r : ThermalBatteryModel * R * History),
    (i + remaining <= length solar_profile)%nat ->
    (i <= length T_collector)%nat ->
    charge_loop remaining i (charge_state_at s T_collector dt i)
      solar_profile T_collector dt (INR i * dt)
      (charge_history s solar_profile T_collector dt i)
    = Returns r ->
    exists n : nat,
      (i <= n <= i + remaining)%nat
      /\ (n <= length T_collector)%nat
      /\ r = (charge_state_at s T_collector dt n, INR n * dt,
              charge_history s solar_profile T_collector dt n)
      /\ (forall j : nat, (i < j < n)%nat ->
            get_state_of_charge (charge_state_at s T_collector dt j) < 0.99)
      /\ ((n < i + remaining)%nat ->
          (i < n)%nat
          /\ 0.99 <= get_state_of_charge (charge_state_at s T_collector dt n))
      /\ ((0 < remaining)%nat -> (i < n)%nat).
Proof.
  induction remaining as [|remaining IH]; intros i r Hs Hc Hrun.
  - cbn [charge_loop] in Hrun. injection Hrun as <-.
    exists i. repeat split; try lia; reflexivity.
  - cbn [charge_loop] in Hrun.
    rewrite index_in_range in Hrun by lia. cbn [bind] in Hrun.
    destruct (Nat.eq_dec i (length T_collector)) as [Heq|Hne].
    + unfold index in Hrun.
      rewrite (proj2 (nth_error_None T_collector i)) in Hrun by lia.
      discriminate Hrun.
    + assert (Hi : (i < length T_collector)%nat) by lia.
      rewrite index_in_range in Hrun by exact Hi. cbn [bind] in Hrun.
      pose proof (charge_state_at_S s T_collector dt i Hi) as Hnext.
      assert (Hcall : fst (step_charge (charge_state_at s T_collector dt i)
                             (nth i T_collector 0) dt)
                      = charge_call s T_collector dt i) by reflexivity.
      revert Hrun.
      destruct (step_charge (charge_state_at s T_collector dt i)
                  (nth i T_collector 0) dt) as [[Q_actual T_out] model].
      cbn [fst snd] in Hnext, Hcall. subst model.
      rewrite time_after_step.
      match goal with
      | |- context [if _ then Returns (_, _, ?h) else _] =>
          assert (Hh : h = charge_history s solar_profile T_collector dt (S i))
            by (cbn [charge_history]; rewrite <- Hcall; reflexivity);
          rewrite Hh
      end.
      destruct (Rleb_spec 0.99
                  (get_state_of_charge (charge_state_at s T_collector dt (S i))))
        as [Hfull|Hfull]; intros Hrun.
      * injection Hrun as <-.
        exists (S i). repeat split; try lia; try reflexivity. exact Hfull.
      * destruct (IH (S i) r) as [n [Hn [Hc' [Hr [Hbelow [Hstop _]]]]]];
          [lia | lia | exact Hrun |].
        exists n. split; [lia |]. split; [exact Hc' |]. split; [exact Hr |].
        split; [| split].
        -- intros j Hj. destruct (Nat.eq_dec j (S i)) as [->|Hne'];
             [lra | apply Hbelow; lia].
        -- intros Hlt. destruct Hstop as [Hin Hsoc]; [lia |].
           split; [lia | exact Hsoc].
        -- intros _. lia.
Qed.

(** The same for the whole of [simulate_charge]: a result it returns is the
    record of the first [n] engine steps. *)
Lemma simulate_charge_returns (s : ITB100Specs)
    (solar_profile T_collector : list R) (dt : R) (res : ChargeResult) :
  simulate_charge s solar_profile T_collector dt = Returns res ->
  exists n : nat,
    (n <= length solar_profile)%nat
    /\ (n <= length T_collector)%nat
    /\ charge_loop (length solar_profile) 0 (charge_initial_state s)
         solar_profile T_collector dt 0 empty_history
       = Returns (charge_state_at s T_collector dt n, INR n * dt,
                  charge_history s solar_profile T_collector dt n)
    /\ res = (let h := charge_history s solar_profile T_collector dt n in
              {| c_time := time_history h;
                 c_T_sat := T_sat_history h;
                 c_T_out := T_out_history h;
                 c_Q := Q_history h;
                 c_Q_available := Q_available_history h;
                 c_SOC := SOC_history h;
                 c_solid_fraction := solid_fraction_history h;
                 c_total_energy := trapz (Q_history h) (time_history h);
                 c_avg_power := mean (Q_history h);
                 c_duration := last_or_zero (time_history h) |})
    /\ (forall j : nat, (0 < j < n)%nat ->
          get_state_of_charge (charge_state_at s T_collector dt j) < 0.99)
    /\ ((n < length solar_profile)%nat ->
        (0 < n)%nat
        /\ 0.99 <= get_state_of_charge (charge_state_at s T_collector dt n))
    /\ ((0 < length solar_profile)%nat -> (0 < n)%nat).
Proof.
  unfold simulate_charge, ThermalBatteryModel_init. cbn [bind].
  change (set_E_stored _ 0) with (charge_initial_state s).
  destruct (charge_loop (length solar_profile) 0 (charge_initial_state s)
              solar_profile T_collector dt 0 empty_history)
    as [r|e] eqn:Hloop; cbn [bind]; [| discriminate].
  assert (Hloop' :
    charge_loop (length solar_profile) 0 (charge_state_at s T_collector dt 0)
      solar_profile T_collector dt (INR 0 * dt)
      (charge_history s solar_profile T_collector dt 0)
    = Returns r).
  { replace (INR 0 * dt) with 0 by (cbn; ring). exact Hloop. }
  apply charge_loop_returns in Hloop'; [| lia | lia].
  destruct Hloop' as [n [Hn [Hc [-> [Hbelow [Hstop Hsome]]]]]].
  intros Hres. injection Hres as <-.
  exists n. split; [lia |]. split; [exact Hc |].
  split; [reflexivity |]. split; [reflexivity |].
  split; [exact Hbelow |]. split; [| exact Hsome].
  intros Hlt. apply Hstop. lia.
Qed.

(** The index at which a run stops is determined by the states of charge:
    it is the first full battery, or the end of the profile. *)
Lemma charge_stop_unique (soc : nat -> R) (len n n' : nat) :
  (n <= len)%nat -> (n' <= len)%nat ->
  (forall j : nat, (0 < j < n)%nat -> soc j < 0.99) ->
  ((n < len)%nat -> (0 < n)%nat /\ 0.99 <= soc n) ->
  (forall j : nat, (0 < j < n')%nat -> soc j < 0.99) ->
  ((n' < len)%nat -> (0 < n')%nat /\ 0.99 <= soc n') ->
  n = n'.
Proof.
  intros Hn Hn' Hbelow Hstop Hbelow' Hstop'.
  destruct (lt_eq_lt_dec n n') as [[Hlt | Heq] | Hgt]; [| exact Heq |].
  - exfalso. destruct Hstop as [Hpos Hfull]; [lia |].
    specialize (Hbelow' n). assert (Hj : (0 < n < n')%nat) by lia.
    specialize (Hbelow' Hj). lra.
  - exfalso. destruct Hstop' as [Hpos Hfull]; [lia |].
    specialize (Hbelow n'). assert (Hj : (0 < n' < n)%nat) by lia.
    specialize (Hbelow Hj). lra.
Qed.

(** The power the engine returns past its guards is the floored power. *)
Lemma step_charge_power (self : ThermalBatteryModel) (T_water_in dt : R) :
  ~ charge_guard self T_water_in ->
  fst (fst (step_charge self T_water_in dt)) = charge_power self T_water_in.
Proof.
  intros Hg.
  destruct (step_charge_case self T_water_in dt)
    as [G|G H0|s P G HP Hl|s P G HP Hl Hf|s P G HP Hl Hf];
    cbn; try reflexivity; [contradiction | symmetry; exact H0].
Qed.

(** An instance of the energy that is clipped from the record and kept by
    the state: with no power available and a 70 degree collector, the
    recorded power is zero and the depleted battery still gains energy. *)
Lemma clipped_energy_stays_in_state :
  let model := charge_initial_state default_specs in
  let engine := step_charge model 70 60 in
  Rmin (fst (fst engine)) 0 / 1000 = 0
  /\ E_stored model + 0 * 60 < E_stored (snd engine).
Proof.
  cbv zeta.
  assert (Hg : ~ charge_guard (charge_initial_state default_specs) 70)
    by by_fields.
  pose proof (charge_power_pos (charge_initial_state default_specs) 70
                default_specs_positive) as HP.
  rewrite step_charge_energy, (step_charge_power _ _ _ Hg).
  cbn [charge_initial_state T_sat E_stored] in *.
  split.
  - rewrite Rmin_right by lra. lra.
  - lra.
Qed.

(** The state of charge that goes on record in that instance is positive. *)
Lemma clipped_energy_is_recorded_as_charge :
  0 < get_state_of_charge
        (snd (step_charge (charge_initial_state default_specs) 70 60)).
Proof.
  destruct clipped_energy_stays_in_state as [_ HE]. cbv zeta in HE.
  unfold get_state_of_charge. rewrite step_charge_specs.
  set (E := E_stored (snd (step_charge (charge_initial_state default_specs)
                             70 60))) in *.
  cbn [charge_initial_state specs E_stored default_specs E_storage] in *.
  assert (Hfrac : 0 < E / (16.71 * 3.6e6))
    by (apply Rdiv_lt_0_compat; lra).
  eapply Rlt_le_trans; [| apply Rmax_r].
  apply Rmin_glb_lt; lra.
Qed.

(** C5. Every result [simulate_charge] returns is the record of the loop's
    own run: it has one sample per iteration, at least one for a profile
    that is not empty, and fewer than the profile has only after a state of
    charge of 99% was recorded as the last sample; the loop ends in the
    state reached by that many engine steps.  At every sample index [i] the
    recorded absorbed power is the minimum of the power the engine computed
    in that iteration and the profile's available power (both series in
    kW), so it never exceeds the available power recorded at the same
    index; the temperature, solid fraction and state of charge recorded at
    [i] are those of the state the engine left, whose stored energy is the
    energy before the step plus the engine's power times [dt], which the
    available power does not enter: what was clipped from the record stays
    in the state, and with it the state gains more than the record shows.
    Hence another power profile of the same length changes no recorded
    time, temperature, solid fraction or state of charge.  With positive
    specifications and a collector array at least as long as the profile
    the simulation does return. *)
Theorem charge_power_clamped
    (s : ITB100Specs) (solar_profile T_collector : list R) (dt : R) :
  (positive_specs s ->
   (length solar_profile <= length T_collector)%nat ->
   exists res : ChargeResult,
     simulate_charge s solar_profile T_collector dt = Returns res)
  /\ forall res : ChargeResult,
       simulate_charge s solar_profile T_collector dt = Returns res ->
       let n := length (c_Q res) in
       (length (c_time res) = n /\ length (c_T_sat res) = n
        /\ length (c_T_out res) = n /\ length (c_Q_available res) = n
        /\ length (c_SOC res) = n /\ length (c_solid_fraction res) = n)
       /\ (n <= length solar_profile)%nat
       /\ (n <= length T_collector)%nat
       /\ (solar_profile <> [] -> (1 <= n)%nat)
       /\ (forall i : nat, (S i < n)%nat -> nth i (c_SOC res) 0 < 0.99)
       /\ ((n < length solar_profile)%nat ->
           0.99 <= nth (pred n) (c_SOC res) 0)
       /\ (exists h : History,
             charge_loop (length solar_profile) 0 (charge_initial_state s)
               solar_profile T_collector dt 0 empty_history
             = Returns (charge_state_at s T_collector dt n, INR n * dt, h)
             /\ Q_history h = c_Q res
             /\ Q_available_history h = c_Q_available res
             /\ SOC_history h = c_SOC res)
       /\ (forall i : nat, (i < n)%nat ->
             let model := charge_state_at s T_collector dt i in
             let engine := step_charge model (nth i T_collector 0) dt in
             let Q_engine := fst (fst engine) in
             let Q_available := nth i solar_profile 0 in
             nth i (c_Q res) 0 = Rmin Q_engine Q_available / 1000
             /\ nth i (c_Q_available res) 0 = Q_available / 1000
             /\ nth i (c_Q res) 0 <= nth i (c_Q_available res) 0
             /\ nth i (c_T_out res) 0 = snd (fst engine)
             /\ nth i (c_T_sat res) 0 = T_sat (snd engine)
             /\ nth i (c_solid_fraction res) 0 = solid_fraction (snd engine)
             /\ nth i (c_SOC res) 0 = get_state_of_charge (snd engine)
             /\ snd engine = charge_state_at s T_collector dt (S i)
             /\ E_stored (snd engine) = E_stored model + Q_engine * dt
             /\ (0 < dt -> Q_available < Q_engine ->
                 nth i (c_Q res) 0 * 1000 * dt
                 < E_stored (snd engine) - E_stored model))
       /\ (forall (solar_profile' : list R) (res' : ChargeResult),
             length solar_profile' = length solar_profile ->
             simulate_charge s solar_profile' T_collector dt = Returns res' ->
             c_time res' = c_time res
             /\ c_T_sat res' = c_T_sat res
             /\ c_T_out res' = c_T_out res
             /\ c_SOC res' = c_SOC res
             /\ c_solid_fraction res' = c_solid_fraction res).
Proof.
  split.
  { intros _ Hlen.
    destruct (charge_loop_run s solar_profile T_collector dt
                (length solar_profile) 0) as [n [Hn Hrun]];
      [lia | exact Hlen |].
    eexists.
    unfold simulate_charge, ThermalBatteryModel_init. cbn [bind].
    replace (INR 0 * dt) with 0 in Hrun by (cbn; ring).
    change (set_E_stored _ 0) with (charge_state_at s T_collector dt 0).
    change empty_history with (charge_history s solar_profile T_collector dt 0).
    rewrite Hrun. cbn [bind]. reflexivity. }
  intros res Hres.
  destruct (simulate_charge_returns s solar_profile T_collector dt res Hres)
    as [n [Hn [Hc [Hloop [-> [Hbelow [Hstop Hsome]]]]]]].
  cbv zeta.
  cbn [c_time c_T_sat c_T_out c_Q c_Q_available c_SOC c_solid_fraction].
  rewrite charge_history_time, charge_history_T_sat, charge_history_T_out,
    charge_history_Q, charge_history_Q_available, charge_history_SOC,
    charge_history_solid_fraction.
  rewrite !length_map, !length_seq.
  split; [repeat split |]. split; [exact Hn |]. split; [exact Hc |].
  split.
  { intros Hne. apply Hsome.
    destruct solar_profile; [contradiction | cbn; lia]. }
  split.
  { intros i Hi. rewrite nth_map_seq by lia. apply Hbelow. lia. }
  split.
  { intros Hlt. destruct (Hstop Hlt) as [Hpos Hsoc].
    rewrite nth_map_seq by lia.
    replace (S (pred n)) with n by lia. exact Hsoc. }
  split.
  { exists (charge_history s solar_profile T_collector dt n).
    split; [exact Hloop |].
    rewrite charge_history_Q, charge_history_Q_available, charge_history_SOC.
    repeat split. }
  split.
  { intros i Hi. rewrite !nth_map_seq by exact Hi.
    assert (HiT : (i < length T_collector)%nat) by lia.
    rewrite (charge_state_at_S s T_collector dt i HiT).
    fold (charge_call s T_collector dt i).
    pose proof (step_charge_energy (charge_state_at s T_collector dt i)
                  (nth i T_collector 0) dt) as HE.
    fold (charge_call s T_collector dt i) in HE.
    split; [reflexivity |]. split; [reflexivity |].
    split; [apply Rmult_le_compat_r; [lra | apply Rmin_r] |].
    split; [reflexivity |]. split; [reflexivity |]. split; [reflexivity |].
    split; [reflexivity |]. split; [reflexivity |]. split; [exact HE |].
    intros Hdt Hclip. rewrite HE, Rmin_right by lra.
    assert (Hlt : nth i solar_profile 0 * dt
                  < fst (charge_call s T_collector dt i) * dt)
      by (apply Rmult_lt_compat_r; assumption).
    lra. }
  intros solar_profile' res' Hlen' Hres'.
  destruct (simulate_charge_returns s solar_profile' T_collector dt res' Hres')
    as [n' [Hn' [Hc' [_ [-> [Hbelow' [Hstop' _]]]]]]].
  rewrite Hlen' in Hn', Hstop'.
  assert (Heq : n' = n).
  { apply (charge_stop_unique
             (fun j => get_state_of_charge (charge_state_at s T_collector dt j))
             (length solar_profile)); assumption. }
  subst n'.
  cbv zeta.
  cbn [c_time c_T_sat c_T_out c_SOC c_solid_fraction].
  rewrite charge_history_time, charge_history_T_sat, charge_history_T_out,
    charge_history_SOC, charge_history_solid_fraction.
  repeat split.
Qed.

Lemma charge_power_clamped_witness :
  positive_specs default_specs
  /\ (length [0] <= length [70])%nat
  /\ exists res : ChargeResult,
       simulate_charge default_specs [0] [70] 60 = Returns res
       /\ length (c_Q res) = 1%nat
       /\ nth 0 (c_Q res) 0 = 0
       /\ nth 0 (c_Q res) 0 <= nth 0 (c_Q_available res) 0
       /\ 0 < nth 0 (c_SOC res) 0.
Proof.
  assert (Hlen : (length [0] <= length [70])%nat) by (cbn; lia).
  split; [exact default_specs_positive |]. split; [exact Hlen |].
  destruct (charge_power_clamped default_specs [0] [70] 60)
    as [Hreturns Hrecord].
  destruct (Hreturns default_specs_positive Hlen) as [res Hres].
  exists res. split; [exact Hres |].
  destruct (Hrecord res Hres)
    as [_ [Hn [_ [Hsome [_ [_ [_ [Hall _]]]]]]]].
  cbv zeta in Hall. cbn [length] in Hn.
  assert (Hone : length (c_Q res) = 1%nat).
  { assert ((1 <= length (c_Q res))%nat) by (apply Hsome; discriminate). lia. }
  split; [exact Hone |].
  assert (Hi : (0 < length (c_Q res))%nat) by lia.
  destruct (Hall 0%nat Hi) as [HQ [_ [Hle [_ [_ [_ [Hsoc _]]]]]]].
  change (charge_state_at default_specs [70] 60 0)
    with (charge_initial_state default_specs) in HQ, Hsoc.
  change (nth 0 [70] 0) with 70 in HQ, Hsoc.
  change (nth 0 [0] 0) with 0 in HQ.
  split; [rewrite HQ; apply clipped_energy_stays_in_state |].
  split; [exact Hle |].
  rewrite Hsoc. exact clipped_energy_is_recorded_as_charge.
Defined.

(** A collector array shorter than the power profile ends the simulation
    with [IndexError] when the loop reaches the missing sample. *)
Lemma simulate_charge_short_collector (s : ITB100Specs) (dt : R) :
  simulate_charge s [1000] [] dt = Raises IndexError.
Proof. reflexivity. Qed.

(** ** The discharge loop *)

Lemma discharge_state_at_S (s : ITB100Specs) (T_supply dt : R) (k : nat) :
  discharge_state_at s T_supply dt (S k)
  = snd (step_discharge (discharge_state_at s T_supply dt k) T_supply dt).
Proof.
  unfold discharge_state_at.
  change (repeat (T_supply, dt) (S k))
    with ((T_supply, dt) :: repeat (T_supply, dt) k).
  rewrite repeat_cons, discharge_steps_app. reflexivity.
Qed.

(** More fuel does not change a result. *)
Lemma discharge_loop_more_fuel (T_supply dt : R) (fuel : nat) :
  forall (model : ThermalBatteryModel) (t : R) (h : History)
         (r : ThermalBatteryModel * R * History) (fuel' : nat),
    discharge_loop fuel model T_supply dt t h = Some r ->
    (fuel <= fuel')%nat ->
    discharge_loop fuel' model T_supply dt t h = Some r.
Proof.
  induction fuel as [|fuel IH]; intros model t h r fuel' Hrun Hle.
  - cbn in Hrun. destruct fuel'; cbn;
      destruct (Rltb_spec t max_time); congruence.
  - destruct fuel' as [|fuel']; [lia|].
    cbn [discharge_loop] in *.
    destruct (Rltb_spec t max_time); [| exact Hrun].
    destruct (step_discharge model T_supply dt) as [[Q_actual T_out] model'].
    destruct ((get_state_of_charge model' <? 0.01)
              || (Q_actual <? 100) && (t + dt >? 3600)); [exact Hrun |].
    apply IH; [exact Hrun | lia].
Qed.

Lemma steps_bound_enough (dt : R) :
  0 < dt -> max_time <= INR (steps_bound dt) * dt.
Proof.
  intros Hdt. unfold steps_bound.
  destruct (archimed (max_time / dt)) as [Hup _].
  assert (Hpos : 0 < max_time / dt)
    by (apply Rdiv_lt_0_compat; [unfold max_time; lra | exact Hdt]).
  assert (Hz : (0 <= up (max_time / dt))%Z).
  { apply le_IZR. lra. }
  rewrite INR_IZR_INZ, Z2Nat.id by exact Hz.
  apply Rlt_le.
  apply (Rmult_lt_compat_r dt) in Hup; [| exact Hdt].
  unfold Rdiv in Hup. rewrite Rmult_assoc, Rinv_l, Rmult_1_r in Hup by lra.
  exact Hup.
Qed.

(** From [k] iterations done, with enough fuel, the loop runs to some number
    [n] of iterations, through the states and histories of the run; it stops
    after the first iteration past [k] at which a stopping condition holds. *)
Lemma discharge_loop_run (s : ITB100Specs) (T_supply dt : R) (fuel : nat) :
  forall k : nat,
    max_time <= INR (k + fuel) * dt ->
    exists n : nat,
      (k <= n)%nat
      /\ discharge_loop fuel (discharge_state_at s T_supply dt k) T_supply dt
           (INR k * dt) (discharge_history s T_supply dt k)
         = Some (discharge_state_at s T_supply dt n, INR n * dt,
                 discharge_history s T_supply dt n)
      /\ (n = k -> max_time <= INR k * dt)
      /\ ((k < n)%nat ->
          INR k * dt < max_time
          /\ INR (pred n) * dt < max_time
          /\ stops_after s T_supply dt n)
      /\ (forall j : nat, (k < j < n)%nat -> ~ stops_after s T_supply dt j).
Proof.
  induction fuel as [|fuel IH]; intros k Hfuel.
  - rewrite Nat.add_0_r in Hfuel.
    exists k. cbn [discharge_loop].
    destruct (Rltb_spec (INR k * dt) max_time) as [Ht|Ht]; [lra|].
    repeat split; try lia; try reflexivity. intros _; exact Hfuel.
  - cbn [discharge_loop].
    destruct (Rltb_spec (INR k * dt) max_time) as [Ht|Ht].
    2:{ exists k. repeat split; try lia; try reflexivity. intros _; lra. }
    pose proof (discharge_state_at_S s T_supply dt k) as Hnext.
    assert (Hcall : fst (step_discharge (discharge_state_at s T_supply dt k)
                           T_supply dt)
                    = discharge_call s T_supply dt k) by reflexivity.
    destruct (step_discharge (discharge_state_at s T_supply dt k) T_supply dt)
      as [[Q_actual T_out] model].
    cbn [fst snd] in Hnext, Hcall. subst model.
    rewrite time_after_step.
    assert (Hh :
      {| time_history :=
           time_history (discharge_history s T_supply dt k)
           ++ [INR k * dt / 3600];
         T_sat_history :=
           T_sat_history (discharge_history s T_supply dt k)
           ++ [T_sat (discharge_state_at s T_supply dt (S k))];
         T_out_history :=
           T_out_history (discharge_history s T_supply dt k) ++ [T_out];
         Q_history :=
           Q_history (discharge_history s T_supply dt k)
           ++ [Q_actual / 1000];
         Q_available_history :=
           Q_available_history (discharge_history s T_supply dt k);
         SOC_history :=
           SOC_history (discharge_history s T_supply dt k)
           ++ [get_state_of_charge (discharge_state_at s T_supply dt (S k))];
         solid_fraction_history :=
           solid_fraction_history (discharge_history s T_supply dt k)
           ++ [solid_fraction (discharge_state_at s T_supply dt (S k))] |}
      = discharge_history s T_supply dt (S k)).
    { cbn [discharge_history]. rewrite <- Hcall. reflexivity. }
    rewrite Hh.
    assert (HQ : Q_actual = fst (discharge_call s T_supply dt k))
      by (rewrite <- Hcall; reflexivity).
    destruct (Rltb_spec
                (get_state_of_charge (discharge_state_at s T_supply dt (S k)))
                0.01) as [Hsoc|Hsoc]; cbn [orb].
    { (* depleted *)
      exists (S k). repeat split; try lia; try assumption.
      left. exact Hsoc. }
    destruct (Rltb_spec Q_actual 100) as [Hpow|Hpow]; cbn [andb];
      [destruct (Rltb_spec 3600 (INR (S k) * dt)) as [Hhour|Hhour] |].
    { (* power floor after the first hour *)
      exists (S k). repeat split; try lia; try assumption.
      right; left. cbn [pred]. rewrite <- HQ. split; assumption. }
    all: destruct (IH (S k)) as [n [Hn [Hrun [Hstay [Hgo Hfirst]]]]];
      [ replace (S k + fuel)%nat with (k + S fuel)%nat by lia; exact Hfuel |].
    all: assert (Hnow : ~ stops_after s T_supply dt (S k)
                        \/ max_time <= INR (S k) * dt)
      by (destruct (Rle_dec max_time (INR (S k) * dt)); [right; assumption |];
          left; unfold stops_after; cbn [pred]; rewrite <- HQ; tauto).
    all: exists n; split; [lia |]; split; [exact Hrun |];
      split; [intros ->; lia |]; split.
    all: try (intros _; split; [exact Ht |];
      destruct (Nat.eq_dec n (S k)) as [->|Hne];
      [ cbn [pred]; split; [exact Ht |];
        right; right; apply Hstay; reflexivity
      | destruct Hgo as [_ [Hlast Hstop]]; [lia |];
        split; assumption ]).
    all: intros j Hj; destruct (Nat.eq_dec j (S k)) as [->|Hne];
      [ destruct Hgo as [Hlt _]; [lia |];
        destruct Hnow as [Hnow|Hnow]; [exact Hnow | lra]
      | apply Hfirst; lia ].
Qed.

Lemma discharge_history_time (s : ITB100Specs) (T_supply dt : R) (n : nat) :
  time_history (discharge_history s T_supply dt n)
  = map (fun j => INR j * dt / 3600) (seq 0 n).
Proof.
  induction n as [|n IH]; [reflexivity|].
  rewrite seq_S, map_app. cbn [discharge_history time_history]. rewrite IH.
  reflexivity.
Qed.

Lemma discharge_history_Q (s : ITB100Specs) (T_supply dt : R) (n : nat) :
  Q_history (discharge_history s T_supply dt n)
  = map (fun j => fst (discharge_call s T_supply dt j) / 1000) (seq 0 n).
Proof.
  induction n as [|n IH]; [reflexivity|].
  rewrite seq_S, map_app. cbn [discharge_history Q_history]. rewrite IH.
  reflexivity.
Qed.

Lemma last_map_seq (f : nat -> R) (n : nat) :
  last_or_zero (map f (seq 0 (S n))) = f n.
Proof.
  unfold last_or_zero. rewrite seq_S, map_app. cbn [map Nat.add].
  apply last_last.
Qed.

(** The whole run: with a positive [dt] the simulation returns the
    dictionary of the histories after [n >= 1] iterations, where [n] is the
    first number of iterations after which a stopping condition holds. *)
Lemma simulate_discharge_run
    (s : ITB100Specs) (T_supply T_return_target dt : R) :
  0 < dt ->
  exists n : nat,
    (1 <= n)%nat
    /\ (forall fuel : nat, (steps_bound dt <= fuel)%nat ->
          simulate_discharge_fuel fuel s T_supply T_return_target dt
          = Some (Returns (discharge_result (discharge_history s T_supply dt n))))
    /\ INR (pred n) * dt < max_time
    /\ stops_after s T_supply dt n
    /\ (forall j : nat, (1 <= j < n)%nat -> ~ stops_after s T_supply dt j).
Proof.
  intros Hdt.
  destruct (discharge_loop_run s T_supply dt (steps_bound dt) 0)
    as [n [_ [Hrun [Hstay [Hgo Hfirst]]]]].
  { cbn [Nat.add]. apply steps_bound_enough, Hdt. }
  assert (Hn : (0 < n)%nat).
  { destruct n; [| lia]. specialize (Hstay eq_refl).
    cbn in Hstay. unfold max_time in Hstay. lra. }
  destruct (Hgo Hn) as [_ [Hlast Hstop]].
  replace (INR 0 * dt) with 0 in Hrun by (cbn; ring).
  change (discharge_history s T_supply dt 0) with empty_history in Hrun.
  change (discharge_state_at s T_supply dt 0)
    with (discharge_initial_state s) in Hrun.
  exists n. split; [lia |]. split; [| split; [exact Hlast | split]].
  - intros fuel Hle.
    unfold simulate_discharge_fuel, ThermalBatteryModel_init.
    change (set_E_stored _ (E_storage s * 3.6e6))
      with (discharge_initial_state s).
    rewrite (discharge_loop_more_fuel _ _ _ _ _ _ _ fuel Hrun Hle).
    reflexivity.
  - exact Hstop.
  - intros j Hj. apply Hfirst. lia.
Qed.

(** C8. For every positive [dt], [simulate_discharge] terminates: the
    iteration bound computed from [dt] is enough and any larger bound gives
    the same result.  It runs [n >= 1] iterations, sampled at the times
    [j * dt] for [j < n]; every recorded time and the returned duration are
    below 12 hours; and [n] is the first number of iterations after which one
    of the three stopping conditions holds: state of charge below 1%, power
    below 100 W with more than one hour simulated, or 12 hours reached. *)
Theorem discharge_loop_terminates
    (s : ITB100Specs) (T_supply T_return_target dt : R) :
  0 < dt ->
  exists (res : DischargeResult) (n : nat),
    simulate_discharge s T_supply T_return_target dt = Some (Returns res)
    /\ (forall fuel : nat, (steps_bound dt <= fuel)%nat ->
          simulate_discharge_fuel fuel s T_supply T_return_target dt
          = Some (Returns res))
    /\ (1 <= n)%nat
    /\ d_time res = map (fun j => INR j * dt / 3600) (seq 0 n)
    /\ d_Q res
       = map (fun j => fst (discharge_call s T_supply dt j) / 1000) (seq 0 n)
    /\ Forall (fun t => 0 <= t < 12) (d_time res)
    /\ d_duration res = INR (pred n) * dt / 3600
    /\ 0 <= d_duration res < 12
    /\ stops_after s T_supply dt n
    /\ (forall j : nat, (1 <= j < n)%nat -> ~ stops_after s T_supply dt j).
Proof.
  intros Hdt.
  destruct (simulate_discharge_run s T_supply T_return_target dt Hdt)
    as [n [Hn [Hfuel [Hlast [Hstop Hfirst]]]]].
  assert (Hbound : forall j : nat, (j < n)%nat ->
            0 <= INR j * dt / 3600 < 12).
  { intros j Hj.
    assert (0 <= INR j) by apply pos_INR.
    assert (INR j <= INR (pred n)) by (apply le_INR; lia).
    assert (0 <= INR j * dt) by (apply Rmult_le_pos; lra).
    assert (INR j * dt <= INR (pred n) * dt)
      by (apply Rmult_le_compat_r; lra).
    unfold max_time in Hlast. lra. }
  exists (discharge_result (discharge_history s T_supply dt n)), n.
  split; [apply Hfuel; apply Nat.le_refl |].
  split; [exact Hfuel |].
  split; [exact Hn |].
  cbn [discharge_result d_time d_Q d_duration].
  rewrite discharge_history_time, discharge_history_Q.
  split; [reflexivity |]. split; [reflexivity |].
  split.
  { apply Forall_forall. intros t Hin.
    apply in_map_iff in Hin. destruct Hin as [j [<- Hj]].
    apply in_seq in Hj. apply Hbound. lia. }
  destruct n as [|n]; [lia |].
  rewrite last_map_seq. cbn [pred] in *.
  split; [reflexivity |].
  split; [apply Hbound; lia |].
  split; [exact Hstop | exact Hfirst].
Qed.

Lemma discharge_loop_terminates_witness :
  0 < 60
  /\ exists (res : DischargeResult) (n : nat),
       simulate_discharge default_specs 40 45 60 = Some (Returns res)
       /\ 0 <= d_duration res < 12
       /\ stops_after default_specs 40 60 n
       /\ (forall j : nat, (1 <= j < n)%nat ->
             ~ stops_after default_specs 40 60 j).
Proof.
  assert (Hdt : 0 < 60) by lra.
  split; [exact Hdt |].
  destruct (discharge_loop_terminates default_specs 40 45 60 Hdt)
    as [res [n [Hrun [_ [_ [_ [_ [_ [_ [Hdur [Hstop Hfirst]]]]]]]]]]].
  exists res, n. repeat split; try assumption; apply Hdur.
Defined.

(** ** The default discharge run leaves the plateau

    In the run of [main] the solid fraction climbs in steps smaller than
    0.01, so it lands in [0.99, 1); the next call takes the solid-cooling
    branch and the recorded temperature drops below the phase-change
    temperature while the recorded solid fraction is still below 1. *)

Lemma default_effectiveness_bounds :
  0.26 < effectiveness default_specs < 0.37.
Proof.
  unfold effectiveness; cbn [default_specs UA_effective m_dot_design cp_water].
  set (NTU := 111.7 / (0.074 * 4186)).
  assert (HN : 0.36 < NTU < 0.361) by (unfold NTU; lra).
  split.
  - rewrite exp_Ropp.
    assert (H1 : 1 + NTU < exp NTU) by (apply exp_ineq1; lra).
    assert (H2 : / exp NTU < / 1.36)
      by (apply Rinv_lt_contravar; [nra | lra]).
    lra.
  - assert (H1 : 1 + - NTU < exp (- NTU)) by (apply exp_ineq1; lra).
    lra.
Qed.

Lemma plateau_power_bounds : 1449 < plateau_power < 2064.
Proof.
  pose proof default_effectiveness_bounds as He.
  unfold plateau_power, discharge_power.
  cbn [discharge_initial_state specs T_sat default_specs T_phase
       m_dot_design cp_water].
  rewrite Rmax_right by nra. nra.
Qed.

Lemma plateau_increment_bounds : 0.0014 < plateau_increment < 0.0021.
Proof.
  pose proof plateau_power_bounds as HP. unfold plateau_increment. lra.
Qed.

Lemma latent_state_guard (k : nat) :
  solid_fraction (latent_state k) < 1 ->
  ~ discharge_guard (latent_state k) 40.
Proof. unfold discharge_guard, depleted; cbn. lra. Qed.

(** Below 0.99 a step releases latent heat and moves to the next state. *)
Lemma latent_step (k : nat) :
  solid_fraction (latent_state k) < 0.99 ->
  step_discharge (latent_state k) 40 60
  = ((plateau_power, 40 + plateau_power / (0.074 * 4186)),
     latent_state (S k)).
Proof.
  intros Hf. pose proof plateau_power_bounds as HP.
  pose proof plateau_increment_bounds as Hc.
  destruct (step_discharge_case (latent_state k) 40 60)
    as [G|G H0|s P G HP' Hl|s P G HP' Hl Hf'|s P G HP' Hl Hf'].
  - exfalso. revert G. apply latent_state_guard. lra.
  - exfalso. change (plateau_power = 0) in H0. lra.
  - exfalso. cbn in Hl. lra.
  - change P with plateau_power. subst s.
    unfold latent_state in *.
    cbn [specs T_sat solid_fraction E_stored time default_specs T_phase
         m_dot_design cp_water delta_H_fusion M_sat] in *.
    fold plateau_increment.
    rewrite Rmin_right by lra.
    rewrite S_INR. apply f_equal2; [reflexivity |].
    f_equal; ring.
  - exfalso. lra.
Qed.

(** At or above 0.99 a step cools the solid and reports no power. *)
Lemma solid_step (k : nat) :
  0.99 <= solid_fraction (latent_state k) < 1 ->
  fst (fst (step_discharge (latent_state k) 40 60)) = 0
  /\ T_sat (snd (step_discharge (latent_state k) 40 60)) < 58
  /\ solid_fraction (snd (step_discharge (latent_state k) 40 60))
     = solid_fraction (latent_state k).
Proof.
  intros Hf. pose proof plateau_power_bounds as HP.
  destruct (step_discharge_case (latent_state k) 40 60)
    as [G|G H0|s P G HP' Hl|s P G HP' Hl Hf'|s P G HP' Hl Hf'].
  - exfalso. revert G. apply latent_state_guard. lra.
  - exfalso. change (plateau_power = 0) in H0. lra.
  - exfalso. cbn in Hl. lra.
  - exfalso. lra.
  - change P with plateau_power. subst s. cbn.
    repeat split; try reflexivity. lra.
Qed.

Lemma latent_fraction_increasing (j k : nat) :
  (j <= k)%nat ->
  solid_fraction (latent_state j) <= solid_fraction (latent_state k).
Proof.
  intros Hjk. pose proof plateau_increment_bounds as Hc. cbn.
  apply le_INR in Hjk. nra.
Qed.

(** While the solid fraction before the last step is below 0.99, the run is
    on the plateau. *)
Lemma latent_run (k : nat) :
  solid_fraction (latent_state (pred k)) < 0.99 ->
  discharge_state_at default_specs 40 60 k = latent_state k.
Proof.
  induction k as [|k IH]; intros Hf.
  - unfold discharge_state_at, latent_state, discharge_initial_state; cbn.
    f_equal; lra.
  - cbn [pred] in Hf.
    rewrite discharge_state_at_S, IH.
    + rewrite latent_step by exact Hf. reflexivity.
    + pose proof (latent_fraction_increasing (pred k) k (Nat.le_pred_l k)).
      lra.
Qed.

Lemma first_crossing (K : nat) :
  0.99 <= solid_fraction (latent_state K) ->
  exists n : nat,
    (1 <= n <= K)%nat
    /\ solid_fraction (latent_state (pred n)) < 0.99
    /\ 0.99 <= solid_fraction (latent_state n).
Proof.
  induction K as [|K IH]; intros HK.
  - exfalso. cbn in HK. lra.
  - destruct (Rle_dec 0.99 (solid_fraction (latent_state K))) as [Hle|Hlt].
    + destruct (IH Hle) as [n [Hn Hcross]]. exists n. split; [lia | exact Hcross].
    + exists (S K). split; [lia |]. cbn [pred]. split; [lra | exact HK].
Qed.

(** The solid fraction lands in [0.99, 1) after some number of steps. *)
Lemma crossing :
  exists n : nat,
    (1 <= n)%nat
    /\ solid_fraction (latent_state (pred n)) < 0.99
    /\ 0.99 <= solid_fraction (latent_state n) < 1.
Proof.
  pose proof plateau_increment_bounds as Hc.
  destruct (first_crossing 700) as [n [Hn [Hbelow Habove]]].
  { cbn [latent_state solid_fraction].
    replace (INR 700) with 700 by (rewrite INR_IZR_INZ; reflexivity). lra. }
  exists n. split; [lia |]. split; [exact Hbelow |]. split; [exact Habove |].
  destruct n as [|n]; [lia |].
  cbn [pred latent_state solid_fraction] in *. rewrite S_INR. lra.
Qed.

Lemma discharge_history_T_sat (s : ITB100Specs) (T_supply dt : R) (n : nat) :
  T_sat_history (discharge_history s T_supply dt n)
  = map (fun j => T_sat (discharge_state_at s T_supply dt (S j))) (seq 0 n).
Proof.
  induction n as [|n IH]; [reflexivity|].
  rewrite seq_S, map_app. cbn [discharge_history T_sat_history]. rewrite IH.
  reflexivity.
Qed.

Lemma discharge_history_solid_fraction
    (s : ITB100Specs) (T_supply dt : R) (n : nat) :
  solid_fraction_history (discharge_history s T_supply dt n)
  = map (fun j => solid_fraction (discharge_state_at s T_supply dt (S j)))
      (seq 0 n).
Proof.
  induction n as [|n IH]; [reflexivity|].
  rewrite seq_S, map_app.
  cbn [discharge_history solid_fraction_history]. rewrite IH.
  reflexivity.
Qed.

(** On the plateau no stopping condition holds. *)
Lemma plateau_keeps_running (j : nat) :
  (1 <= j)%nat ->
  solid_fraction (latent_state (pred j)) < 0.99 ->
  ~ stops_after default_specs 40 60 j.
Proof.
  intros Hj Hf.
  pose proof plateau_power_bounds as HP.
  pose proof plateau_increment_bounds as Hc.
  assert (Hprev : solid_fraction (latent_state (pred (pred j))) < 0.99).
  { pose proof (latent_fraction_increasing (pred (pred j)) (pred j)
                  (Nat.le_pred_l _)). lra. }
  assert (Hsum : INR j * plateau_increment < 0.95).
  { destruct j as [|j]; [lia |].
    cbn [pred latent_state solid_fraction] in Hf. rewrite S_INR. lra. }
  assert (Hpos : 0 <= INR j) by apply pos_INR.
  unfold stops_after.
  rewrite (latent_run j Hf).
  unfold discharge_call. rewrite (latent_run (pred j) Hprev).
  rewrite (latent_step (pred j) Hf). cbn [fst].
  intros [Hsoc | [[Hpow _] | Htime]].
  - unfold get_state_of_charge in Hsoc.
    cbn [latent_state specs E_stored default_specs E_storage] in Hsoc.
    assert (HE : INR j * (plateau_power * 60)
                 = INR j * plateau_increment * (264.4e3 * 227.1))
      by (unfold plateau_increment; field; repeat split; lra).
    rewrite HE in Hsoc.
    assert (Hfrac : 0.01 <= (16.71 * 3.6e6
                             - INR j * plateau_increment * (264.4e3 * 227.1))
                            / (16.71 * 3.6e6)).
    { apply Rmult_le_reg_r with (16.71 * 3.6e6); [lra |].
      unfold Rdiv. rewrite Rmult_assoc, Rinv_l by lra. lra. }
    assert (0.01 <= Rmin 1 ((16.71 * 3.6e6
                  - INR j * plateau_increment * (264.4e3 * 227.1))
                 / (16.71 * 3.6e6))) by (apply Rmin_glb; lra).
    pose proof (Rmax_r 0 (Rmin 1 ((16.71 * 3.6e6
                  - INR j * plateau_increment * (264.4e3 * 227.1))
                 / (16.71 * 3.6e6)))).
    lra.
  - lra.
  - unfold max_time in Htime. nra.
Qed.

(** The run of [main] records a sample below the phase-change temperature
    whose solid fraction is strictly between 0 and 1. *)
Lemma default_discharge_leaves_plateau :
  exists (res : DischargeResult) (i : nat),
    simulate_discharge default_specs 40 45 60 = Some (Returns res)
    /\ (i < length (d_T_sat res))%nat
    /\ nth i (d_T_sat res) 0 < T_phase default_specs
    /\ 0 < nth i (d_solid_fraction res) 0 < 1.
Proof.
  assert (Hdt : 0 < 60) by lra.
  destruct (simulate_discharge_run default_specs 40 45 60 Hdt)
    as [N [HN [Hfuel [_ [Hstop _]]]]].
  destruct crossing as [n [Hn [Hbelow Habove]]].
  assert (Hlt : (n < N)%nat).
  { destruct (Nat.lt_ge_cases n N) as [Hlt|Hge]; [exact Hlt |].
    exfalso. apply (plateau_keeps_running N HN); [| exact Hstop].
    assert (Hle : (pred N <= pred n)%nat) by lia.
    pose proof (latent_fraction_increasing (pred N) (pred n) Hle). lra. }
  pose proof (solid_step n Habove) as [_ [Hcold Hsame]].
  assert (Hstate : discharge_state_at default_specs 40 60 (S n)
                   = snd (step_discharge (latent_state n) 40 60))
    by (rewrite discharge_state_at_S, (latent_run n Hbelow); reflexivity).
  exists (discharge_result (discharge_history default_specs 40 60 N)), n.
  split; [apply Hfuel; apply Nat.le_refl |].
  cbn [discharge_result d_T_sat d_solid_fraction].
  rewrite discharge_history_T_sat, discharge_history_solid_fraction.
  rewrite length_map, length_seq.
  rewrite !nth_map_seq by exact Hlt.
  rewrite Hstate, Hsame.
  split; [exact Hlt |]. split; [exact Hcold | lra].
Qed.

(** * Further properties *)

(** ** The conduction estimate *)

(** X1. For a solid fraction in [0, 1] the effective conductivity is a
    weighted mean: it lies between the solid and the liquid conductivity,
    and equals them at solid fraction 1 and 0. *)
Theorem effective_conductivity_between (self : ThermalBatteryModel) :
  0 <= solid_fraction self <= 1 ->
  let k_solid := k_sat_solid (specs self) in
  let k_liquid := k_sat_liquid (specs self) in
  Rmin k_solid k_liquid <= get_effective_thermal_conductivity self
    <= Rmax k_solid k_liquid
  /\ (solid_fraction self = 1 ->
      get_effective_thermal_conductivity self = k_solid)
  /\ (solid_fraction self = 0 ->
      get_effective_thermal_conductivity self = k_liquid).
Proof.
  intros Hf k_solid k_liquid.
  unfold get_effective_thermal_conductivity; cbv zeta.
  fold k_solid k_liquid.
  pose proof (Rmin_l k_solid k_liquid). pose proof (Rmin_r k_solid k_liquid).
  pose proof (Rmax_l k_solid k_liquid). pose proof (Rmax_r k_solid k_liquid).
  repeat split.
  - nra.
  - nra.
  - intros ->. ring.
  - intros ->. ring.
Qed.

Lemma effective_conductivity_between_witness :
  0 <= 0.05 <= 1
  /\ Rmin 0.5 0.54
     <= get_effective_thermal_conductivity (state_of 58 0.05 0)
     <= Rmax 0.5 0.54.
Proof.
  assert (H : 0 <= solid_fraction (state_of 58 0.05 0) <= 1) by (cbn; lra).
  split; [lra |].
  exact (proj1 (effective_conductivity_between (state_of 58 0.05 0) H)).
Defined.

(** X2. With positive conductivities, slab half-thickness and exchanger
    area, and a solid fraction in [0, 1], [calculate_power] has the sign of
    the temperature difference between water and medium: positive exactly
    when the water is warmer (charging), negative exactly when it is cooler
    (discharging), zero exactly at equal temperatures. *)
Theorem calculate_power_sign (self : ThermalBatteryModel) (T_water_avg : R) :
  0 < k_sat_solid (specs self) ->
  0 < k_sat_liquid (specs self) ->
  0 < delta_sat (specs self) ->
  0 < A_hx (specs self) ->
  0 <= solid_fraction self <= 1 ->
  (0 < calculate_power self T_water_avg <-> T_sat self < T_water_avg)
  /\ (calculate_power self T_water_avg < 0 <-> T_water_avg < T_sat self)
  /\ (calculate_power self T_water_avg = 0 <-> T_water_avg = T_sat self).
Proof.
  intros Hks Hkl Hd HA Hf.
  unfold calculate_power, calculate_heat_flux,
    get_effective_thermal_conductivity; cbv zeta.
  set (k := solid_fraction self * k_sat_solid (specs self)
            + (1 - solid_fraction self) * k_sat_liquid (specs self)).
  assert (Hk : 0 < k) by (unfold k; nra).
  assert (Hc : 0 < k / delta_sat (specs self) * A_hx (specs self)).
  { apply Rmult_lt_0_compat; [apply Rdiv_lt_0_compat |]; assumption. }
  set (c := k / delta_sat (specs self) * A_hx (specs self)) in *.
  replace (k / delta_sat (specs self) * (T_water_avg - T_sat self)
           * A_hx (specs self))
    with (c * (T_water_avg - T_sat self)) by (unfold c; ring).
  repeat split; intros H; nra.
Qed.

Lemma calculate_power_sign_witness :
  (0 < 0.5 /\ 0 < 0.54 /\ 0 < 0.003 /\ 0 < 26.1 /\ 0 <= 0.05 <= 1)
  /\ (0 < calculate_power (state_of 58 0.05 0) 70 <-> 58 < 70).
Proof.
  split; [lra |].
  apply (calculate_power_sign (state_of 58 0.05 0) 70); cbn; lra.
Defined.

(** ** What one step returns *)

Lemma flow_capacity_pos (s : ITB100Specs) :
  positive_specs s -> 0 < m_dot_design s * cp_water s.
Proof.
  intros [_ _ _ _ Hm Hc _ _]. apply Rmult_lt_0_compat; assumption.
Qed.

(** Past the guards the floored power is the effectiveness times the
    largest possible transfer, and so lies strictly inside it. *)
Lemma discharge_power_inside (self : ThermalBatteryModel) (T_water_in : R) :
  positive_specs (specs self) ->
  T_water_in + 0.5 < T_sat self ->
  let C := m_dot_design (specs self) * cp_water (specs self) in
  discharge_power self T_water_in
  = effectiveness (specs self) * (C * (T_sat self - T_water_in))
  /\ 0 < discharge_power self T_water_in < C * (T_sat self - T_water_in).
Proof.
  intros Hp Ht C.
  pose proof (effectiveness_pos _ Hp) as He0.
  pose proof (effectiveness_lt_1 (specs self)) as He1.
  pose proof (flow_capacity_pos _ Hp) as HC. fold C in HC.
  assert (Hmax : 0 < C * (T_sat self - T_water_in))
    by (apply Rmult_lt_0_compat; lra).
  assert (Heq : discharge_power self T_water_in
                = effectiveness (specs self) * (C * (T_sat self - T_water_in))).
  { unfold discharge_power; cbv zeta. fold C.
    apply Rmax_right. apply Rlt_le, Rmult_lt_0_compat; assumption. }
  split; [exact Heq |]. rewrite Heq. split; nra.
Qed.

Lemma charge_power_inside (self : ThermalBatteryModel) (T_water_in : R) :
  positive_specs (specs self) ->
  T_sat self + 0.5 < T_water_in ->
  let C := m_dot_design (specs self) * cp_water (specs self) in
  charge_power self T_water_in
  = effectiveness (specs self) * (C * (T_water_in - T_sat self))
  /\ 0 < charge_power self T_water_in < C * (T_water_in - T_sat self).
Proof.
  intros Hp Ht C.
  pose proof (effectiveness_pos _ Hp) as He0.
  pose proof (effectiveness_lt_1 (specs self)) as He1.
  pose proof (flow_capacity_pos _ Hp) as HC. fold C in HC.
  assert (Hmax : 0 < C * (T_water_in - T_sat self))
    by (apply Rmult_lt_0_compat; lra).
  assert (Heq : charge_power self T_water_in
                = effectiveness (specs self) * (C * (T_water_in - T_sat self))).
  { unfold charge_power; cbv zeta. fold C.
    apply Rmax_right. apply Rlt_le, Rmult_lt_0_compat; assumption. }
  split; [exact Heq |]. rewrite Heq. split; nra.
Qed.

(** The temperature change of the water is the power over the flow
    capacity: a fraction of the driving difference. *)
Lemma water_rise_inside (C P D : R) :
  0 < C -> 0 < P < C * D -> 0 < P / C < D.
Proof.
  intros HC [HP0 HP1]. split.
  - apply Rdiv_lt_0_compat; assumption.
  - apply Rmult_lt_reg_r with C; [exact HC |].
    unfold Rdiv. rewrite Rmult_assoc, Rinv_l, Rmult_1_r by lra. lra.
Qed.

(** X3. With positive specifications [step_discharge] never returns a
    negative power nor an outlet colder than the inlet; past the guards the
    water leaves strictly warmer than it entered and strictly colder than
    the medium, and the returned power is below the power that would bring
    the water to the medium temperature. *)
Theorem step_discharge_returns (self : ThermalBatteryModel)
    (T_water_in dt : R) :
  positive_specs (specs self) ->
  let Q := fst (fst (step_discharge self T_water_in dt)) in
  let T_water_out := snd (fst (step_discharge self T_water_in dt)) in
  0 <= Q
  /\ T_water_in <= T_water_out
  /\ (~ discharge_guard self T_water_in ->
      T_water_in < T_water_out < T_sat self
      /\ Q < m_dot_design (specs self) * cp_water (specs self)
             * (T_sat self - T_water_in)).
Proof.
  intros Hp. cbv zeta.
  pose proof (flow_capacity_pos _ Hp) as HC.
  destruct (step_discharge_case self T_water_in dt)
    as [G|G H0|s P G HP Hl|s P G HP Hl Hf|s P G HP Hl Hf]; cbn [fst snd].
  - split; [lra | split; [lra | intros Hn; contradiction]].
  - assert (Ht : T_water_in + 0.5 < T_sat self)
      by (unfold discharge_guard in G; lra).
    pose proof (discharge_power_inside self T_water_in Hp Ht) as [_ Hin].
    cbv zeta in Hin. lra.
  - assert (Ht : T_water_in + 0.5 < T_sat self)
      by (unfold discharge_guard in G; lra).
    pose proof (discharge_power_inside self T_water_in Hp Ht) as [_ Hin].
    pose proof (water_rise_inside _ _ _ HC Hin). subst s P.
    repeat split; try intros _; try lra.
  - assert (Ht : T_water_in + 0.5 < T_sat self)
      by (unfold discharge_guard in G; lra).
    pose proof (discharge_power_inside self T_water_in Hp Ht) as [_ Hin].
    pose proof (water_rise_inside _ _ _ HC Hin). subst s P.
    repeat split; try intros _; try lra.
  - assert (Ht : T_water_in + 0.5 < T_sat self)
      by (unfold discharge_guard in G; lra).
    pose proof (discharge_power_inside self T_water_in Hp Ht) as [_ Hin].
    pose proof (water_rise_inside _ _ _ HC Hin). subst s P.
    cbv zeta in Hin. repeat split; try intros _; try lra.
Qed.

Lemma step_discharge_returns_witness :
  positive_specs default_specs
  /\ ~ discharge_guard (state_of 58 0.05 0) 40
  /\ 40 < snd (fst (step_discharge (state_of 58 0.05 0) 40 60)) < 58.
Proof.
  split; [exact default_specs_positive |].
  assert (Hg : ~ discharge_guard (state_of 58 0.05 0) 40) by by_fields.
  split; [exact Hg |].
  exact (proj1 (proj2 (proj2
    (step_discharge_returns (state_of 58 0.05 0) 40 60
       default_specs_positive)) Hg)).
Defined.

(** X4. With positive specifications [step_charge] never returns a negative
    power nor an outlet warmer than the inlet; past the guards the returned
    power is positive and below the power that would cool the water to the
    medium temperature, and the water leaves strictly colder than it entered
    and strictly warmer than the medium. *)
Theorem step_charge_returns (self : ThermalBatteryModel)
    (T_water_in dt : R) :
  positive_specs (specs self) ->
  let Q := fst (fst (step_charge self T_water_in dt)) in
  let T_water_out := snd (fst (step_charge self T_water_in dt)) in
  0 <= Q
  /\ T_water_out <= T_water_in
  /\ (~ charge_guard self T_water_in ->
      T_sat self < T_water_out < T_water_in
      /\ 0 < Q < m_dot_design (specs self) * cp_water (specs self)
                 * (T_water_in - T_sat self)).
Proof.
  intros Hp. cbv zeta.
  pose proof (flow_capacity_pos _ Hp) as HC.
  destruct (step_charge_case self T_water_in dt)
    as [G|G H0|s P G HP Hl|s P G HP Hl Hf|s P G HP Hl Hf]; cbn [fst snd].
  - split; [lra | split; [lra | intros Hn; contradiction]].
  - assert (Ht : T_sat self + 0.5 < T_water_in)
      by (unfold charge_guard in G; lra).
    pose proof (charge_power_inside self T_water_in Hp Ht) as [_ Hin].
    cbv zeta in Hin. lra.
  - assert (Ht : T_sat self + 0.5 < T_water_in)
      by (unfold charge_guard in G; lra).
    pose proof (charge_power_inside self T_water_in Hp Ht) as [_ Hin].
    pose proof (water_rise_inside _ _ _ HC Hin). subst s P.
    cbv zeta in Hin. repeat split; try intros _; try lra.
  - assert (Ht : T_sat self + 0.5 < T_water_in)
      by (unfold charge_guard in G; lra).
    pose proof (charge_power_inside self T_water_in Hp Ht) as [_ Hin].
    pose proof (water_rise_inside _ _ _ HC Hin). subst s P.
    cbv zeta in Hin. repeat split; try intros _; try lra.
  - assert (Ht : T_sat self + 0.5 < T_water_in)
      by (unfold charge_guard in G; lra).
    pose proof (charge_power_inside self T_water_in Hp Ht) as [_ Hin].
    pose proof (water_rise_inside _ _ _ HC Hin). subst s P.
    cbv zeta in Hin. repeat split; try intros _; try lra.
Qed.

Lemma step_charge_returns_witness :
  positive_specs default_specs
  /\ ~ charge_guard (state_of 20 1 0) 70
  /\ 20 < snd (fst (step_charge (state_of 20 1 0) 70 60)) < 70.
Proof.
  split; [exact default_specs_positive |].
  assert (Hg : ~ charge_guard (state_of 20 1 0) 70) by by_fields.
  split; [exact Hg |].
  exact (proj1 (proj2 (proj2
    (step_charge_returns (state_of 20 1 0) 70 60
       default_specs_positive)) Hg)).
Defined.

(** ** Temperature and phase along a step *)

(** The temperature change of a sensible branch is positive. *)
Lemma sensible_change_pos (P dt M cp : R) :
  0 < P -> 0 < dt -> 0 < M -> 0 < cp -> 0 < P * dt / (M * cp).
Proof.
  intros HP Hdt HM Hcp.
  apply Rdiv_lt_0_compat; apply Rmult_lt_0_compat; assumption.
Qed.

(** The solid fraction moved by a latent branch is positive. *)
Lemma latent_change_pos (P dt H M : R) :
  0 < P -> 0 < dt -> 0 < H -> 0 < M -> 0 < P * dt / H / M.
Proof.
  intros HP Hdt HH HM.
  repeat apply Rdiv_lt_0_compat; try assumption.
  apply Rmult_lt_0_compat; assumption.
Qed.

Lemma step_discharge_consistent (self : ThermalBatteryModel)
    (T_water_in dt : R) :
  positive_specs (specs self) -> 0 < dt ->
  phase_consistent self ->
  phase_consistent (snd (step_discharge self T_water_in dt)).
Proof.
  intros [HH Hcs Hcl HM _ _ _ _] Hdt [Hcold Hwarm]. unfold phase_consistent.
  destruct (step_discharge_case self T_water_in dt)
    as [G|G H0|s P G HP Hl|s P G HP Hl Hf|s P G HP Hl Hf];
    cbn [snd specs T_sat solid_fraction set_time];
    try (split; assumption).
  - pose proof (Rmax_l (T_phase s)
                  (T_sat self - P * dt / (M_sat s * cp_sat_liquid s))).
    subst s. split; intros Ht; lra.
  - split; intros Ht; lra.
  - pose proof (sensible_change_pos P dt _ _ HP Hdt HM Hcs). subst s.
    unfold discharge_guard, depleted in G. split; intros Ht; lra.
Qed.

Lemma step_charge_consistent (self : ThermalBatteryModel)
    (T_water_in dt : R) :
  positive_specs (specs self) -> 0 < dt ->
  phase_consistent self ->
  phase_consistent (snd (step_charge self T_water_in dt)).
Proof.
  intros [HH Hcs Hcl HM _ _ _ _] Hdt [Hcold Hwarm]. unfold phase_consistent.
  destruct (step_charge_case self T_water_in dt)
    as [G|G H0|s P G HP Hl|s P G HP Hl Hf|s P G HP Hl Hf];
    cbn [snd specs T_sat solid_fraction set_time];
    try (split; assumption).
  - pose proof (Rmin_l (T_phase s)
                  (T_sat self + P * dt / (M_sat s * cp_sat_solid s))).
    subst s. split; intros Ht; lra.
  - split; intros Ht; lra.
  - pose proof (sensible_change_pos P dt _ _ HP Hdt HM Hcl). subst s.
    split; intros Ht; lra.
Qed.

Lemma initial_states_consistent (s : ITB100Specs) :
  phase_consistent (discharge_initial_state s)
  /\ (20 <= T_phase s -> phase_consistent (charge_initial_state s)).
Proof. unfold phase_consistent; cbn. repeat split; intros; lra. Qed.

(** X5. Phase consistency is an invariant of the engine: with positive
    specifications and a positive [dt], if the medium is fully solid
    ([solid_fraction >= 0.99]) whenever it is below the phase-change
    temperature and fully liquid ([solid_fraction <= 0.01]) whenever it is
    above, the same holds after [step_discharge] and after [step_charge].
    It holds in the initial state of [simulate_discharge], and in the one of
    [simulate_charge] when the phase-change temperature is at least 20. *)
Theorem phase_consistent_invariant :
  (forall (self : ThermalBatteryModel) (T_water_in dt : R),
     positive_specs (specs self) -> 0 < dt ->
     phase_consistent self ->
     phase_consistent (snd (step_discharge self T_water_in dt))
     /\ phase_consistent (snd (step_charge self T_water_in dt)))
  /\ (forall s : ITB100Specs,
        phase_consistent (discharge_initial_state s)
        /\ (20 <= T_phase s -> phase_consistent (charge_initial_state s))).
Proof.
  split.
  - intros self T_water_in dt Hp Hdt Hc. split.
    + apply step_discharge_consistent; assumption.
    + apply step_charge_consistent; assumption.
  - apply initial_states_consistent.
Qed.

Lemma phase_consistent_invariant_witness :
  (positive_specs default_specs /\ 0 < 60
   /\ phase_consistent (discharge_initial_state default_specs))
  /\ phase_consistent
       (snd (step_discharge (discharge_initial_state default_specs) 40 60)).
Proof.
  assert (H0 : phase_consistent (discharge_initial_state default_specs))
    by (exact (proj1 (proj2 phase_consistent_invariant default_specs))).
  assert (Hdt : 0 < 60) by lra.
  split; [split; [exact default_specs_positive | split; [exact Hdt | exact H0]] |].
  exact (proj1 (proj1 phase_consistent_invariant
                  (discharge_initial_state default_specs) 40 60
                  default_specs_positive Hdt H0)).
Defined.

Lemma step_discharge_cools (self : ThermalBatteryModel)
    (T_water_in dt : R) :
  positive_specs (specs self) -> 0 < dt ->
  phase_consistent self ->
  T_sat (snd (step_discharge self T_water_in dt)) <= T_sat self.
Proof.
  intros [HH Hcs Hcl HM _ _ _ _] Hdt [Hcold Hwarm].
  destruct (step_discharge_case self T_water_in dt)
    as [G|G H0|s P G HP Hl|s P G HP Hl Hf|s P G HP Hl Hf];
    cbn [snd T_sat set_time]; try lra.
  - pose proof (sensible_change_pos P dt _ _ HP Hdt HM Hcl). subst s.
    apply Rmax_lub; lra.
  - subst s. lra.
  - pose proof (sensible_change_pos P dt _ _ HP Hdt HM Hcs). subst s. lra.
Qed.

Lemma step_charge_warms (self : ThermalBatteryModel)
    (T_water_in dt : R) :
  positive_specs (specs self) -> 0 < dt ->
  phase_consistent self ->
  T_sat self <= T_sat (snd (step_charge self T_water_in dt)).
Proof.
  intros [HH Hcs Hcl HM _ _ _ _] Hdt [Hcold Hwarm].
  destruct (step_charge_case self T_water_in dt)
    as [G|G H0|s P G HP Hl|s P G HP Hl Hf|s P G HP Hl Hf];
    cbn [snd T_sat set_time]; try lra.
  - pose proof (sensible_change_pos P dt _ _ HP Hdt HM Hcs). subst s.
    apply Rmin_glb; lra.
  - subst s. lra.
  - pose proof (sensible_change_pos P dt _ _ HP Hdt HM Hcl). subst s. lra.
Qed.

(** X6. On a phase-consistent state, with positive specifications and a
    positive [dt], discharging never warms the medium and charging never
    cools it; the liquid-cooling branch stops at the phase-change
    temperature and the solid-heating branch stops there too. *)
Theorem temperature_monotone (self : ThermalBatteryModel)
    (T_water_in dt : R) :
  positive_specs (specs self) -> 0 < dt ->
  phase_consistent self ->
  let Tp := T_phase (specs self) in
  T_sat (snd (step_discharge self T_water_in dt)) <= T_sat self
  /\ T_sat self <= T_sat (snd (step_charge self T_water_in dt))
  /\ (Tp <= T_sat self ->
      ~ solid_cooling_regime self ->
      Tp <= T_sat (snd (step_discharge self T_water_in dt)))
  /\ (T_sat self < Tp - 0.1 ->
      T_sat (snd (step_charge self T_water_in dt)) <= Tp).
Proof.
  intros Hp Hdt Hc Tp. subst Tp.
  split; [| split; [| split]].
  - apply step_discharge_cools; assumption.
  - apply step_charge_warms; assumption.
  - intros Hge Hns.
    destruct (step_discharge_case self T_water_in dt)
      as [G|G H0|s P G HP Hl|s P G HP Hl Hf|s P G HP Hl Hf];
      cbn [snd T_sat set_time]; try lra; try (subst s; lra).
    + apply Rmax_l.
    + exfalso. apply Hns. split; assumption.
  - intros Hlt.
    destruct (step_charge_case self T_water_in dt)
      as [G|G H0|s P G HP Hl|s P G HP Hl Hf|s P G HP Hl Hf];
      cbn [snd T_sat set_time]; try lra; try (subst s; lra).
    + apply Rmin_l.
Qed.

Lemma temperature_monotone_witness :
  (positive_specs default_specs /\ 0 < 60
   /\ phase_consistent (state_of 70 0 0))
  /\ T_sat (snd (step_discharge (state_of 70 0 0) 40 60)) <= 70
  /\ 58 <= T_sat (snd (step_discharge (state_of 70 0 0) 40 60)).
Proof.
  assert (Hc : phase_consistent (state_of 70 0 0))
    by (unfold phase_consistent; cbn; lra).
  assert (Hdt : 0 < 60) by lra.
  pose proof (temperature_monotone (state_of 70 0 0) 40 60
                default_specs_positive Hdt Hc) as [H1 [_ [H3 _]]].
  split; [split; [exact default_specs_positive | split; [exact Hdt | exact Hc]] |].
  split; [exact H1 |].
  apply H3; [cbn; lra | unfold solid_cooling_regime; cbn; lra].
Defined.

(** X7. Outside the phase-consistent states the latent branches move the
    temperature against the direction of the heat flow: discharging a medium
    that is below the phase-change temperature and not yet fully solid
    ([solid_fraction < 0.99]) puts its temperature up to the phase-change
    temperature while its stored energy falls, and charging a medium above
    the phase-change temperature that is not yet fully liquid
    ([solid_fraction > 0.01]) puts it down to the phase-change temperature
    while its stored energy rises. *)
Theorem latent_branch_resets_temperature (self : ThermalBatteryModel)
    (T_water_in dt : R) :
  positive_specs (specs self) -> 0 < dt ->
  (T_water_in + 0.5 < T_sat self < T_phase (specs self) ->
   solid_fraction self < 0.99 ->
   T_sat (snd (step_discharge self T_water_in dt)) = T_phase (specs self)
   /\ E_stored (snd (step_discharge self T_water_in dt)) < E_stored self)
  /\ (T_phase (specs self) < T_sat self < T_water_in - 0.5 ->
      0.01 < solid_fraction self ->
      T_sat (snd (step_charge self T_water_in dt)) = T_phase (specs self)
      /\ E_stored self < E_stored (snd (step_charge self T_water_in dt))).
Proof.
  intros Hp Hdt. split.
  - intros Ht Hf.
    pose proof (discharge_power_pos self T_water_in Hp (proj1 Ht)) as HP0.
    destruct (step_discharge_case self T_water_in dt)
      as [G|G H0|s P G HP Hl|s P G HP Hl Hf'|s P G HP Hl Hf'];
      cbn [snd T_sat E_stored].
    + exfalso. unfold discharge_guard, depleted in G. lra.
    + exfalso. lra.
    + exfalso. subst s. lra.
    + split; [reflexivity |].
      assert (0 < P * dt) by (apply Rmult_lt_0_compat; assumption). lra.
    + exfalso. lra.
  - intros Ht Hf.
    assert (Hin : T_sat self + 0.5 < T_water_in) by lra.
    pose proof (charge_power_pos self T_water_in Hp Hin) as HP0.
    destruct (step_charge_case self T_water_in dt)
      as [G|G H0|s P G HP Hl|s P G HP Hl Hf'|s P G HP Hl Hf'];
      cbn [snd T_sat E_stored].
    + exfalso. unfold charge_guard, fully_charged in G. lra.
    + exfalso. lra.
    + exfalso. subst s. lra.
    + split; [reflexivity |].
      assert (0 < P * dt) by (apply Rmult_lt_0_compat; assumption). lra.
    + exfalso. lra.
Qed.

Lemma latent_branch_resets_temperature_witness :
  (positive_specs default_specs /\ 0 < 60
   /\ 40 + 0.5 < 50 < 58 /\ 0.5 < 0.99)
  /\ T_sat (snd (step_discharge (state_of 50 0.5 1000) 40 60)) = 58
  /\ E_stored (snd (step_discharge (state_of 50 0.5 1000) 40 60)) < 1000.
Proof.
  assert (Hdt : 0 < 60) by lra.
  split; [split; [exact default_specs_positive | lra] |].
  apply (proj1 (latent_branch_resets_temperature (state_of 50 0.5 1000) 40 60
                  default_specs_positive Hdt)); cbn; lra.
Defined.

Lemma step_discharge_fraction (self : ThermalBatteryModel)
    (T_water_in dt : R) :
  positive_specs (specs self) -> 0 < dt ->
  solid_fraction self <= 1 ->
  solid_fraction self
  <= solid_fraction (snd (step_discharge self T_water_in dt)) <= 1.
Proof.
  intros [HH _ _ HM _ _ _ _] Hdt Hf.
  destruct (step_discharge_case self T_water_in dt)
    as [G|G H0|s P G HP Hl|s P G HP Hl Hf'|s P G HP Hl Hf'];
    cbn [snd solid_fraction set_time]; try lra.
  pose proof (latent_change_pos P dt _ _ HP Hdt HH HM). subst s.
  split; [apply Rmin_glb; lra | apply Rmin_l].
Qed.

Lemma step_charge_fraction (self : ThermalBatteryModel)
    (T_water_in dt : R) :
  positive_specs (specs self) -> 0 < dt ->
  0 <= solid_fraction self ->
  0 <= solid_fraction (snd (step_charge self T_water_in dt))
    <= solid_fraction self.
Proof.
  intros [HH _ _ HM _ _ _ _] Hdt Hf.
  destruct (step_charge_case self T_water_in dt)
    as [G|G H0|s P G HP Hl|s P G HP Hl Hf'|s P G HP Hl Hf'];
    cbn [snd solid_fraction set_time]; try lra.
  pose proof (latent_change_pos P dt _ _ HP Hdt HH HM). subst s.
  split; [apply Rmax_l | apply Rmax_lub; lra].
Qed.

(** X8. With positive specifications and a positive [dt], discharging never
    lowers a solid fraction that is at most 1, charging never raises one
    that is at least 0, and the solid fraction moves in the latent branches
    only. *)
Theorem solid_fraction_monotone (self : ThermalBatteryModel)
    (T_water_in dt : R) :
  positive_specs (specs self) -> 0 < dt ->
  (solid_fraction self <= 1 ->
   solid_fraction self
   <= solid_fraction (snd (step_discharge self T_water_in dt)))
  /\ (0 <= solid_fraction self ->
      solid_fraction (snd (step_charge self T_water_in dt))
      <= solid_fraction self)
  /\ (~ releases_latent_heat self T_water_in ->
      solid_fraction (snd (step_discharge self T_water_in dt))
      = solid_fraction self)
  /\ (~ absorbs_latent_heat self T_water_in ->
      solid_fraction (snd (step_charge self T_water_in dt))
      = solid_fraction self).
Proof.
  intros Hp Hdt. split; [| split; [| split]].
  - intros Hf. apply step_discharge_fraction; assumption.
  - intros Hf. apply step_charge_fraction; assumption.
  - intros Hn.
    destruct (step_discharge_case self T_water_in dt)
      as [G|G H0|s P G HP Hl|s P G HP Hl Hf'|s P G HP Hl Hf'];
      cbn [snd solid_fraction set_time]; try reflexivity.
    exfalso. apply Hn. repeat split; assumption.
  - intros Hn.
    destruct (step_charge_case self T_water_in dt)
      as [G|G H0|s P G HP Hl|s P G HP Hl Hf'|s P G HP Hl Hf'];
      cbn [snd solid_fraction set_time]; try reflexivity.
    exfalso. apply Hn. repeat split; assumption.
Qed.

Lemma solid_fraction_monotone_witness :
  (positive_specs default_specs /\ 0 < 60 /\ 0.05 <= 1)
  /\ 0.05 <= solid_fraction (snd (step_discharge (state_of 58 0.05 0) 40 60)).
Proof.
  assert (Hdt : 0 < 60) by lra.
  split; [split; [exact default_specs_positive | lra] |].
  apply (proj1 (solid_fraction_monotone (state_of 58 0.05 0) 40 60
                  default_specs_positive Hdt)); cbn; lra.
Defined.

(** X9. Energy and solid fraction in the latent branches.  When
    [step_discharge] releases latent heat, the energy taken from the store
    equals the latent heat of the mass solidified as long as the solid
    fraction stays at or below 1; when the step would carry the solid
    fraction past 1 it is clipped to 1 and the store loses more energy than
    the solidified mass accounts for.  [step_charge] is the mirror at 0. *)
Theorem latent_energy_balance (self : ThermalBatteryModel)
    (T_water_in dt : R) :
  positive_specs (specs self) -> 0 < dt ->
  let H := delta_H_fusion (specs self) in
  let M := M_sat (specs self) in
  (releases_latent_heat self T_water_in ->
   let self' := snd (step_discharge self T_water_in dt) in
   let dE := E_stored self - E_stored self' in
   let df := solid_fraction self' - solid_fraction self in
   dE = discharge_power self T_water_in * dt
   /\ (solid_fraction self + dE / H / M <= 1 -> df * (H * M) = dE)
   /\ (1 < solid_fraction self + dE / H / M ->
       solid_fraction self' = 1 /\ df * (H * M) < dE))
  /\ (absorbs_latent_heat self T_water_in ->
      let self' := snd (step_charge self T_water_in dt) in
      let dE := E_stored self' - E_stored self in
      let df := solid_fraction self - solid_fraction self' in
      dE = charge_power self T_water_in * dt
      /\ (0 <= solid_fraction self - dE / H / M -> df * (H * M) = dE)
      /\ (solid_fraction self - dE / H / M < 0 ->
          solid_fraction self' = 0 /\ df * (H * M) < dE)).
Proof.
  intros Hp Hdt H M. pose proof Hp as [HH _ _ HM _ _ _ _].
  fold H in HH. fold M in HM.
  assert (HHM : 0 < H * M) by (apply Rmult_lt_0_compat; assumption).
  assert (Hback : forall x : R, x / H / M * (H * M) = x)
    by (intros x; field; split; lra).
  split.
  - intros [Hg [Hl Hf]]. cbv zeta.
    assert (Ht : T_water_in + 0.5 < T_sat self)
      by (unfold discharge_guard in Hg; lra).
    pose proof (discharge_power_pos self T_water_in Hp Ht) as HP0.
    destruct (step_discharge_case self T_water_in dt)
      as [G|G H0|s P G HP Hl'|s P G HP Hl' Hf'|s P G HP Hl' Hf'];
      cbn [snd solid_fraction E_stored set_time].
    + contradiction.
    + exfalso. lra.
    + exfalso. subst s. lra.
    + subst s P. fold H M.
      set (P := discharge_power self T_water_in) in *.
      replace (E_stored self - (E_stored self - P * dt)) with (P * dt) by ring.
      split; [reflexivity |]. split.
      * intros Hle. rewrite Rmin_right by exact Hle.
        replace (solid_fraction self + P * dt / H / M - solid_fraction self)
          with (P * dt / H / M) by ring.
        apply Hback.
      * intros Hgt. rewrite Rmin_left by lra. split; [reflexivity |].
        pose proof (Hback (P * dt)) as Hb.
        assert ((1 - solid_fraction self) * (H * M)
                < P * dt / H / M * (H * M))
          by (apply Rmult_lt_compat_r; [exact HHM | lra]).
        lra.
    + exfalso. lra.
  - intros [Hg [Hl Hf]]. cbv zeta.
    assert (Ht : T_sat self + 0.5 < T_water_in)
      by (unfold charge_guard in Hg; lra).
    pose proof (charge_power_pos self T_water_in Hp Ht) as HP0.
    destruct (step_charge_case self T_water_in dt)
      as [G|G H0|s P G HP Hl'|s P G HP Hl' Hf'|s P G HP Hl' Hf'];
      cbn [snd solid_fraction E_stored set_time].
    + contradiction.
    + exfalso. lra.
    + exfalso. subst s. lra.
    + subst s P. fold H M.
      set (P := charge_power self T_water_in) in *.
      replace (E_stored self + P * dt - E_stored self) with (P * dt) by ring.
      split; [reflexivity |]. split.
      * intros Hle. rewrite Rmax_right by exact Hle.
        replace (solid_fraction self - (solid_fraction self - P * dt / H / M))
          with (P * dt / H / M) by ring.
        apply Hback.
      * intros Hgt. rewrite Rmax_left by lra. split; [reflexivity |].
        pose proof (Hback (P * dt)) as Hb.
        assert ((solid_fraction self - 0) * (H * M)
                < P * dt / H / M * (H * M))
          by (apply Rmult_lt_compat_r; [exact HHM | lra]).
        lra.
    + exfalso. lra.
Qed.

Lemma latent_energy_balance_witness :
  (positive_specs default_specs /\ 0 < 60
   /\ releases_latent_heat (state_of 58 0.05 0) 40)
  /\ E_stored (state_of 58 0.05 0)
     - E_stored (snd (step_discharge (state_of 58 0.05 0) 40 60))
     = discharge_power (state_of 58 0.05 0) 40 * 60.
Proof.
  assert (Hdt : 0 < 60) by lra.
  assert (Hr : releases_latent_heat (state_of 58 0.05 0) 40).
  { unfold releases_latent_heat. split; [by_fields | cbn; lra]. }
  split; [split; [exact default_specs_positive | split; [exact Hdt | exact Hr]] |].
  exact (proj1 (proj1 (latent_energy_balance (state_of 58 0.05 0) 40 60
                         default_specs_positive Hdt) Hr)).
Defined.

(** ** The histories of a discharge run *)

Lemma monotone_chain (f : nat -> R) (N : nat) :
  (forall k : nat, (k < N)%nat -> f (S k) <= f k) ->
  forall i j : nat, (i <= j <= N)%nat -> f j <= f i.
Proof.
  intros Hstep i j [Hij HjN]. induction Hij as [|j Hij IH].
  - apply Rle_refl.
  - eapply Rle_trans; [apply Hstep; lia | apply IH; lia].
Qed.

Lemma discharge_state_at_specs (s : ITB100Specs) (T_supply dt : R) (k : nat) :
  specs (discharge_state_at s T_supply dt k) = s.
Proof. unfold discharge_state_at. apply discharge_steps_specs. Qed.

(** What holds of the battery all along a discharge run. *)
Lemma discharge_run_invariant (s : ITB100Specs) (T_supply dt : R) (k : nat) :
  positive_specs s -> 0 < dt ->
  let model := discharge_state_at s T_supply dt k in
  phase_consistent model
  /\ 0.05 <= solid_fraction model <= 1
  /\ T_sat model <= T_phase s.
Proof.
  intros Hp Hdt. cbv zeta. induction k as [|k [Hc [Hf Ht]]].
  - split; [apply initial_states_consistent |]. cbn. lra.
  - rewrite discharge_state_at_S.
    assert (Hp' : positive_specs (specs (discharge_state_at s T_supply dt k)))
      by (rewrite discharge_state_at_specs; exact Hp).
    split; [apply step_discharge_consistent; assumption |].
    pose proof (step_discharge_fraction _ T_supply dt Hp' Hdt (proj2 Hf)).
    pose proof (step_discharge_cools _ T_supply dt Hp' Hdt Hc).
    split; lra.
Qed.

Lemma discharge_history_SOC (s : ITB100Specs) (T_supply dt : R) (n : nat) :
  SOC_history (discharge_history s T_supply dt n)
  = map (fun j => get_state_of_charge (discharge_state_at s T_supply dt (S j)))
      (seq 0 n).
Proof.
  induction n as [|n IH]; [reflexivity|].
  rewrite seq_S, map_app. cbn [discharge_history SOC_history]. rewrite IH.
  reflexivity.
Qed.

Lemma discharge_history_T_out (s : ITB100Specs) (T_supply dt : R) (n : nat) :
  T_out_history (discharge_history s T_supply dt n)
  = map (fun j => snd (discharge_call s T_supply dt j)) (seq 0 n).
Proof.
  induction n as [|n IH]; [reflexivity|].
  rewrite seq_S, map_app. cbn [discharge_history T_out_history]. rewrite IH.
  reflexivity.
Qed.

Lemma length_map_seq (f : nat -> R) (n : nat) : length (map f (seq 0 n)) = n.
Proof. rewrite length_map, length_seq. reflexivity. Qed.

(** Returned power and outlet of any call, without a sign condition on the
    specifications beyond positivity. *)
Lemma step_discharge_power_nonneg (self : ThermalBatteryModel)
    (T_water_in dt : R) :
  0 <= fst (fst (step_discharge self T_water_in dt)).
Proof.
  destruct (step_discharge_case self T_water_in dt)
    as [G|G H0|s P G HP Hl|s P G HP Hl Hf|s P G HP Hl Hf];
    cbn [fst]; lra.
Qed.

Lemma step_discharge_outlet_ge (self : ThermalBatteryModel)
    (T_water_in dt : R) :
  positive_specs (specs self) ->
  T_water_in <= snd (fst (step_discharge self T_water_in dt)).
Proof.
  intros Hp. pose proof (flow_capacity_pos _ Hp) as HC.
  destruct (step_discharge_case self T_water_in dt)
    as [G|G H0|s P G HP Hl|s P G HP Hl Hf|s P G HP Hl Hf];
    cbn [fst snd]; try lra;
    assert (0 < P / (m_dot_design s * cp_water s))
      by (apply Rdiv_lt_0_compat; [exact HP | subst s; exact HC]); lra.
Qed.

(** X10. With positive specifications and a positive [dt], the six arrays
    returned by [simulate_discharge] have one common length [n >= 1]; along
    them the state of charge never increases, the solid fraction never
    decreases and the medium temperature never increases; and every sample
    has a power of at least zero, an outlet at least as warm as the supply,
    a solid fraction in [0.05, 1], a medium temperature at most the
    phase-change temperature and a state of charge in [0, 1]. *)
Theorem discharge_histories_monotone
    (s : ITB100Specs) (T_supply T_return_target dt : R) :
  positive_specs s -> 0 < dt ->
  exists (res : DischargeResult) (n : nat),
    simulate_discharge s T_supply T_return_target dt = Some (Returns res)
    /\ (1 <= n)%nat
    /\ (length (d_time res) = n /\ length (d_T_sat res) = n
        /\ length (d_T_out res) = n /\ length (d_Q res) = n
        /\ length (d_SOC res) = n /\ length (d_solid_fraction res) = n)
    /\ (forall i j : nat, (i <= j < n)%nat ->
          nth j (d_SOC res) 0 <= nth i (d_SOC res) 0
          /\ nth i (d_solid_fraction res) 0 <= nth j (d_solid_fraction res) 0
          /\ nth j (d_T_sat res) 0 <= nth i (d_T_sat res) 0)
    /\ (forall i : nat, (i < n)%nat ->
          0 <= nth i (d_Q res) 0
          /\ T_supply <= nth i (d_T_out res) 0
          /\ 0.05 <= nth i (d_solid_fraction res) 0 <= 1
          /\ nth i (d_T_sat res) 0 <= T_phase s
          /\ 0 <= nth i (d_SOC res) 0 <= 1).
Proof.
  intros Hp Hdt.
  destruct (simulate_discharge_run s T_supply T_return_target dt Hdt)
    as [n [Hn [Hfuel _]]].
  exists (discharge_result (discharge_history s T_supply dt n)), n.
  split; [apply Hfuel, Nat.le_refl |]. split; [exact Hn |].
  cbn [discharge_result d_time d_T_sat d_T_out d_Q d_SOC d_solid_fraction].
  rewrite discharge_history_time, discharge_history_T_sat,
    discharge_history_T_out, discharge_history_Q, discharge_history_SOC,
    discharge_history_solid_fraction.
  assert (Hp' : forall k,
            positive_specs (specs (discharge_state_at s T_supply dt k)))
    by (intros k; rewrite discharge_state_at_specs; exact Hp).
  split; [rewrite !length_map_seq; repeat split |]. split.
  - intros i j Hij. rewrite !nth_map_seq by lia. repeat split.
    + apply (monotone_chain
               (fun k => get_state_of_charge
                           (discharge_state_at s T_supply dt (S k))) n);
        [| lia].
      intros k _. rewrite (discharge_state_at_S s T_supply dt (S k)).
      apply step_discharge_soc; [| exact Hdt].
      rewrite discharge_state_at_specs. apply Hp.
    + apply Ropp_le_cancel.
      apply (monotone_chain
               (fun k => - solid_fraction
                             (discharge_state_at s T_supply dt (S k))) n);
        [| lia].
      intros k _. rewrite (discharge_state_at_S s T_supply dt (S k)).
      apply Ropp_le_contravar.
      apply step_discharge_fraction; [apply Hp' | exact Hdt |].
      apply (discharge_run_invariant s T_supply dt (S k) Hp Hdt).
    + apply (monotone_chain
               (fun k => T_sat (discharge_state_at s T_supply dt (S k))) n);
        [| lia].
      intros k _. rewrite (discharge_state_at_S s T_supply dt (S k)).
      apply step_discharge_cools; [apply Hp' | exact Hdt |].
      apply (discharge_run_invariant s T_supply dt (S k) Hp Hdt).
  - intros i Hi. rewrite !nth_map_seq by exact Hi.
    destruct (discharge_run_invariant s T_supply dt (S i) Hp Hdt)
      as [_ [Hf Ht]].
    split; [| split; [| split; [exact Hf | split; [exact Ht |]]]].
    + unfold discharge_call.
      pose proof (step_discharge_power_nonneg
                    (discharge_state_at s T_supply dt i) T_supply dt).
      lra.
    + unfold discharge_call. apply step_discharge_outlet_ge, Hp'.
    + apply clamp_bounds.
Qed.

Lemma discharge_histories_monotone_witness :
  (positive_specs default_specs /\ 0 < 60)
  /\ exists (res : DischargeResult) (n : nat),
       simulate_discharge default_specs 40 45 60 = Some (Returns res)
       /\ (1 <= n)%nat
       /\ length (d_SOC res) = n
       /\ (forall i j : nat, (i <= j < n)%nat ->
             nth j (d_SOC res) 0 <= nth i (d_SOC res) 0).
Proof.
  assert (Hdt : 0 < 60) by lra.
  split; [split; [exact default_specs_positive | exact Hdt] |].
  destruct (discharge_histories_monotone default_specs 40 45 60
              default_specs_positive Hdt)
    as [res [n [Hrun [Hn [Hlen [Hmono _]]]]]].
  exists res, n. repeat split; try assumption.
  - apply Hlen.
  - intros i j Hij. apply (Hmono i j Hij).
Defined.

(** ** Energy reported and energy moved *)

Lemma sum_snoc (a : list R) (x : R) :
  fold_right Rplus 0 (a ++ [x]) = fold_right Rplus 0 a + x.
Proof. induction a as [|y a IH]; cbn; [ring | rewrite IH; ring]. Qed.

Lemma sum_map_nonneg (f : nat -> R) (l : list nat) :
  (forall j : nat, 0 <= f j) -> 0 <= fold_right Rplus 0 (map f l).
Proof.
  intros Hf. induction l as [|j l IH]; cbn; [lra |].
  pose proof (Hf j). lra.
Qed.

(** The trapezoidal rule on an evenly spaced grid, for samples that are not
    negative: between zero and the rectangle sum less half the first
    sample. *)
Lemma trapz_uniform (f g : nat -> R) (h : R) :
  0 <= h ->
  (forall j : nat, 0 <= f j) ->
  (forall j : nat, g (S j) - g j = h) ->
  forall n k : nat,
    0 <= trapz (map f (seq k n)) (map g (seq k n))
    /\ trapz (map f (seq k n)) (map g (seq k n))
       <= h * fold_right Rplus 0 (map f (seq k n))
          - match n with O => 0 | S _ => h * f k / 2 end.
Proof.
  intros Hh Hf Hg. induction n as [|n IH]; intros k.
  - cbn. lra.
  - destruct n as [|n].
    + cbn. pose proof (Hf k). nra.
    + specialize (IH (S k)). destruct IH as [IH0 IH1].
      change (seq k (S (S n))) with (k :: S k :: seq (S (S k)) n).
      change (seq (S k) (S n)) with (S k :: seq (S (S k)) n) in IH0, IH1.
      cbn [map trapz fold_right] in *.
      rewrite Hg. pose proof (Hf k). pose proof (Hf (S k)).
      split; nra.
Qed.

Lemma step_discharge_energy_ge (self : ThermalBatteryModel)
    (T_water_in dt : R) :
  0 < dt ->
  E_stored (snd (step_discharge self T_water_in dt))
  <= E_stored self - fst (fst (step_discharge self T_water_in dt)) * dt.
Proof.
  intros Hdt.
  destruct (step_discharge_case self T_water_in dt)
    as [G|G H0|s P G HP Hl|s P G HP Hl Hf|s P G HP Hl Hf];
    cbn [fst snd E_stored set_time]; try lra.
  assert (0 < P * dt) by (apply Rmult_lt_0_compat; assumption). lra.
Qed.

(** The power delivered over a run, summed in kW and weighted by the step
    in hours, is covered by the energy that left the store. *)
Lemma discharge_delivered_le (s : ITB100Specs) (T_supply dt : R) (n : nat) :
  0 < dt ->
  dt / 3600
  * fold_right Rplus 0
      (map (fun j => fst (discharge_call s T_supply dt j) / 1000) (seq 0 n))
  * 3.6e6
  <= E_stored (discharge_state_at s T_supply dt 0)
     - E_stored (discharge_state_at s T_supply dt n).
Proof.
  intros Hdt. induction n as [|n IH].
  - cbn [seq map fold_right]. lra.
  - rewrite seq_S, map_app. cbn [Nat.add map]. rewrite sum_snoc.
    rewrite discharge_state_at_S.
    pose proof (step_discharge_energy_ge
                  (discharge_state_at s T_supply dt n) T_supply dt Hdt) as Hs.
    fold (discharge_call s T_supply dt n) in Hs.
    set (Q := fst (discharge_call s T_supply dt n)) in *.
    set (S0 := fold_right Rplus 0
                 (map (fun j => fst (discharge_call s T_supply dt j) / 1000)
                    (seq 0 n))) in *.
    assert (Hk : 3.6e6 = 3600000) by lra. rewrite Hk in *.
    replace (dt / 3600 * (S0 + Q / 1000) * 3600000)
      with (dt / 3600 * S0 * 3600000 + Q * dt) by field.
    lra.
Qed.

(** X11. For every positive [dt], the total energy [simulate_discharge]
    reports (the trapezoidal integral of the power series, in kWh) is not
    negative and, converted to joules, never exceeds the energy that left
    the store during the run: the rated capacity minus the energy stored
    after the last step.  The reported average power is not negative. *)
Theorem discharge_energy_accounting
    (s : ITB100Specs) (T_supply T_return_target dt : R) :
  0 < dt ->
  exists (res : DischargeResult) (n : nat),
    simulate_discharge s T_supply T_return_target dt = Some (Returns res)
    /\ length (d_Q res) = n
    /\ 0 <= d_total_energy res
    /\ d_total_energy res * 3.6e6
       <= E_storage s * 3.6e6
          - E_stored (discharge_state_at s T_supply dt n)
    /\ 0 <= d_avg_power res.
Proof.
  intros Hdt.
  destruct (simulate_discharge_run s T_supply T_return_target dt Hdt)
    as [n [Hn [Hfuel _]]].
  exists (discharge_result (discharge_history s T_supply dt n)), n.
  split; [apply Hfuel, Nat.le_refl |].
  cbn [discharge_result d_Q d_total_energy d_avg_power].
  rewrite discharge_history_time, discharge_history_Q.
  set (f := fun j => fst (discharge_call s T_supply dt j) / 1000).
  assert (Hf : forall j, 0 <= f j).
  { intros j. unfold f, discharge_call.
    pose proof (step_discharge_power_nonneg
                  (discharge_state_at s T_supply dt j) T_supply dt). lra. }
  assert (Hg : forall j, INR (S j) * dt / 3600 - INR j * dt / 3600 = dt / 3600)
    by (intros j; rewrite S_INR; field).
  assert (Hh : 0 <= dt / 3600) by lra.
  destruct (trapz_uniform f (fun j => INR j * dt / 3600) (dt / 3600)
              Hh Hf Hg n 0%nat) as [Ht0 Ht1].
  pose proof (discharge_delivered_le s T_supply dt n Hdt) as Hsum.
  fold f in Hsum.
  split; [apply length_map_seq |]. split; [exact Ht0 |]. split.
  - change (E_stored (discharge_state_at s T_supply dt 0))
      with (E_storage s * 3.6e6) in Hsum.
    destruct n as [|n]; [lia |]. pose proof (Hf 0%nat). nra.
  - unfold mean. rewrite length_map_seq.
    pose proof (sum_map_nonneg f (seq 0 n) Hf).
    assert (0 < INR n) by (apply lt_0_INR; lia).
    apply Rmult_le_pos; [assumption | apply Rlt_le, Rinv_0_lt_compat; assumption].
Qed.

Lemma discharge_energy_accounting_witness :
  0 < 60
  /\ exists (res : DischargeResult) (n : nat),
       simulate_discharge default_specs 40 45 60 = Some (Returns res)
       /\ 0 <= d_total_energy res
       /\ d_total_energy res * 3.6e6
          <= 16.71 * 3.6e6 - E_stored (discharge_state_at default_specs 40 60 n).
Proof.
  assert (Hdt : 0 < 60) by lra.
  split; [exact Hdt |].
  destruct (discharge_energy_accounting default_specs 40 45 60 Hdt)
    as [res [n [Hrun [_ [H0 [H1 _]]]]]].
  exists res, n. repeat split; assumption.
Defined.

(** ** The histories of a charge run *)

(** The loop again, with where it stops: it leaves before the end of the
    profile exactly when a state of charge of 99% is recorded, which then is
    the last sample. *)
Lemma charge_loop_stop (s : ITB100Specs) (solar_profile T_collector : list R)
    (dt : R) (remaining : nat) :
  forall i : nat,
    (i + remaining <= length solar_profile)%nat ->
    (i + remaining <= length T_collector)%nat ->
    exists n : nat,
      (i <= n <= i + remaining)%nat
      /\ charge_loop remaining i (charge_state_at s T_collector dt i)
           solar_profile T_collector dt (INR i * dt)
           (charge_history s solar_profile T_collector dt i)
         = Returns (charge_state_at s T_collector dt n, INR n * dt,
                    charge_history s solar_profile T_collector dt n)
      /\ (forall j : nat, (i < j < n)%nat ->
            get_state_of_charge (charge_state_at s T_collector dt j) < 0.99)
      /\ ((n < i + remaining)%nat ->
          (i < n)%nat
          /\ 0.99 <= get_state_of_charge (charge_state_at s T_collector dt n))
      /\ ((0 < remaining)%nat -> (i < n)%nat).
Proof.
  induction remaining as [|remaining IH]; intros i Hs Hc.
  - exists i. repeat split; try lia; reflexivity.
  - cbn [charge_loop].
    rewrite index_in_range by lia. cbn [bind].
    rewrite index_in_range by lia. cbn [bind].
    assert (Hi : (i < length T_collector)%nat) by lia.
    pose proof (charge_state_at_S s T_collector dt i Hi) as Hnext.
    assert (Hcall : fst (step_charge (charge_state_at s T_collector dt i)
                           (nth i T_collector 0) dt)
                    = charge_call s T_collector dt i) by reflexivity.
    destruct (step_charge (charge_state_at s T_collector dt i)
                (nth i T_collector 0) dt) as [[Q_actual T_out] model].
    cbn [fst snd] in Hnext, Hcall. subst model.
    rewrite time_after_step.
    match goal with
    | |- context [if _ then Returns (_, _, ?h) else _] =>
        assert (Hh : h = charge_history s solar_profile T_collector dt (S i))
          by (cbn [charge_history]; rewrite <- Hcall; reflexivity);
        rewrite Hh
    end.
    destruct (Rleb_spec 0.99
                (get_state_of_charge (charge_state_at s T_collector dt (S i))))
      as [Hfull|Hfull].
    + exists (S i). repeat split; try lia; try reflexivity. exact Hfull.
    + destruct (IH (S i)) as [n [Hn [Hrun [Hbelow [Hstop _]]]]]; [lia | lia |].
      exists n. split; [lia |]. split; [exact Hrun |]. split; [| split].
      * intros j Hj. destruct (Nat.eq_dec j (S i)) as [->|Hne];
          [lra | apply Hbelow; lia].
      * intros Hlt. destruct Hstop as [Hin Hsoc]; [lia |].
        split; [lia | exact Hsoc].
      * intros _. lia.
Qed.

(** The whole charge run, for a collector array at least as long as the
    power profile. *)
Lemma simulate_charge_run (s : ITB100Specs)
    (solar_profile T_collector : list R) (dt : R) :
  (length solar_profile <= length T_collector)%nat ->
  exists n : nat,
    (n <= length solar_profile)%nat
    /\ simulate_charge s solar_profile T_collector dt
       = (let h := charge_history s solar_profile T_collector dt n in
          Returns {|
            c_time := time_history h;
            c_T_sat := T_sat_history h;
            c_T_out := T_out_history h;
            c_Q := Q_history h;
            c_Q_available := Q_available_history h;
            c_SOC := SOC_history h;
            c_solid_fraction := solid_fraction_history h;
            c_total_energy := trapz (Q_history h) (time_history h);
            c_avg_power := mean (Q_history h);
            c_duration := last_or_zero (time_history h) |})
    /\ (forall j : nat, (0 < j < n)%nat ->
          get_state_of_charge (charge_state_at s T_collector dt j) < 0.99)
    /\ ((n < length solar_profile)%nat ->
        (0 < n)%nat
        /\ 0.99 <= get_state_of_charge (charge_state_at s T_collector dt n))
    /\ ((0 < length solar_profile)%nat -> (0 < n)%nat).
Proof.
  intros Hlen.
  destruct (charge_loop_stop s solar_profile T_collector dt
              (length solar_profile) 0)
    as [n [Hn [Hrun [Hbelow [Hstop Hsome]]]]]; [lia | exact Hlen |].
  exists n. split; [lia |]. split; [| repeat split].
  - unfold simulate_charge, ThermalBatteryModel_init. cbn [bind].
    replace (INR 0 * dt) with 0 in Hrun by (cbn; ring).
    change (set_E_stored _ 0) with (charge_state_at s T_collector dt 0).
    change empty_history with (charge_history s solar_profile T_collector dt 0).
    rewrite Hrun. cbn [bind]. reflexivity.
  - exact Hbelow.
  - apply Hstop. lia.
  - apply Hstop. lia.
  - exact Hsome.
Qed.

(** X12. When the collector array is at least as long as the power profile,
    [simulate_charge] returns seven arrays of one common length [n], at most
    the length of the profile, sampled at the times [i * dt] (in hours); an
    empty profile gives [n = 0], a total energy and a duration of zero, any
    other profile gives at least one sample.  Every recorded state of charge
    but the last is below 99%, and when the run is shorter than the profile
    its last recorded state of charge is at least 99%. *)
Theorem charge_run_shape (s : ITB100Specs)
    (solar_profile T_collector : list R) (dt : R) :
  (length solar_profile <= length T_collector)%nat ->
  exists (res : ChargeResult) (n : nat),
    simulate_charge s solar_profile T_collector dt = Returns res
    /\ (n <= length solar_profile)%nat
    /\ (length (c_time res) = n /\ length (c_T_sat res) = n
        /\ length (c_T_out res) = n /\ length (c_Q res) = n
        /\ length (c_Q_available res) = n /\ length (c_SOC res) = n
        /\ length (c_solid_fraction res) = n)
    /\ c_time res = map (fun i => INR i * dt / 3600) (seq 0 n)
    /\ (forall i : nat, (S i < n)%nat -> nth i (c_SOC res) 0 < 0.99)
    /\ ((n < length solar_profile)%nat ->
        (1 <= n)%nat /\ 0.99 <= nth (pred n) (c_SOC res) 0)
    /\ (solar_profile = [] ->
        n = 0%nat /\ c_total_energy res = 0 /\ c_duration res = 0)
    /\ (solar_profile <> [] -> (1 <= n)%nat).
Proof.
  intros Hlen.
  destruct (simulate_charge_run s solar_profile T_collector dt Hlen)
    as [n [Hn [Hrun [Hbelow [Hstop Hsome]]]]].
  eexists. exists n. split; [exact Hrun |]. cbv zeta.
  cbn [c_time c_T_sat c_T_out c_Q c_Q_available c_SOC c_solid_fraction
       c_total_energy c_duration].
  rewrite charge_history_time, charge_history_T_sat, charge_history_T_out,
    charge_history_Q, charge_history_Q_available, charge_history_SOC,
    charge_history_solid_fraction.
  split; [exact Hn |].
  split; [rewrite !length_map_seq; repeat split |].
  split; [reflexivity |]. split; [| split; [| split]].
  - intros i Hi. rewrite nth_map_seq by lia. apply Hbelow. lia.
  - intros Hlt. destruct (Hstop Hlt) as [Hpos Hsoc]. split; [lia |].
    rewrite nth_map_seq by lia.
    replace (S (pred n)) with n by lia. exact Hsoc.
  - intros ->. cbn [length] in Hn. assert (n = 0%nat) as -> by lia.
    repeat split; reflexivity.
  - intros Hne. apply Hsome. destruct solar_profile; [contradiction | cbn; lia].
Qed.

Lemma charge_run_shape_witness :
  (length [1000; 2000] <= length [70; 80])%nat
  /\ exists (res : ChargeResult) (n : nat),
       simulate_charge default_specs [1000; 2000] [70; 80] 60 = Returns res
       /\ (n <= 2)%nat
       /\ length (c_SOC res) = n
       /\ (forall i : nat, (S i < n)%nat -> nth i (c_SOC res) 0 < 0.99).
Proof.
  split; [cbn; lia |].
  destruct (charge_run_shape default_specs [1000; 2000] [70; 80] 60)
    as [res [n [Hrun [Hn [Hlen [_ [Hbelow _]]]]]]]; [cbn; lia |].
  exists res, n. repeat split; try assumption. apply Hlen.
Defined.

(** The loop fails at the first index the collector array does not have,
    unless it has stopped before. *)
Lemma charge_loop_index_error (s : ITB100Specs)
    (solar_profile T_collector : list R) (dt : R) (remaining : nat) :
  forall (i : nat) (t : R) (h : History),
    (i <= length T_collector < i + remaining)%nat ->
    (i + remaining <= length solar_profile)%nat ->
    (forall j : nat, (i < j <= length T_collector)%nat ->
       get_state_of_charge (charge_state_at s T_collector dt j) < 0.99) ->
    charge_loop remaining i (charge_state_at s T_collector dt i)
      solar_profile T_collector dt t h
    = Raises IndexError.
Proof.
  induction remaining as [|remaining IH]; intros i t h Hi Hs Hbelow.
  - lia.
  - cbn [charge_loop].
    rewrite index_in_range by lia. cbn [bind].
    destruct (Nat.eq_dec i (length T_collector)) as [Heq|Hne].
    + unfold index. rewrite (proj2 (nth_error_None T_collector i)) by lia.
      reflexivity.
    + assert (Hlt : (i < length T_collector)%nat) by lia.
      rewrite index_in_range by exact Hlt. cbn [bind].
      pose proof (charge_state_at_S s T_collector dt i Hlt) as Hnext.
      destruct (step_charge (charge_state_at s T_collector dt i)
                  (nth i T_collector 0) dt) as [[Q_actual T_out] model].
      cbn [snd] in Hnext. subst model.
      destruct (Rleb_spec 0.99
                  (get_state_of_charge (charge_state_at s T_collector dt (S i))))
        as [Hfull|Hfull].
      * exfalso. specialize (Hbelow (S i)). assert (Hj : (i < S i <= length T_collector)%nat) by lia.
        specialize (Hbelow Hj). lra.
      * apply IH; [lia | lia |]. intros j Hj. apply Hbelow. lia.
Qed.

(** X13. When the collector array is shorter than the power profile and the
    battery has not reached a state of charge of 99% within the samples the
    collector array does have, [simulate_charge] raises [IndexError]. *)
Theorem charge_short_collector_raises (s : ITB100Specs)
    (solar_profile T_collector : list R) (dt : R) :
  (length T_collector < length solar_profile)%nat ->
  (forall j : nat, (1 <= j <= length T_collector)%nat ->
     get_state_of_charge (charge_state_at s T_collector dt j) < 0.99) ->
  simulate_charge s solar_profile T_collector dt = Raises IndexError.
Proof.
  intros Hlen Hbelow.
  unfold simulate_charge, ThermalBatteryModel_init. cbn [bind].
  change (set_E_stored _ 0) with (charge_state_at s T_collector dt 0).
  rewrite (charge_loop_index_error s solar_profile T_collector dt
             (length solar_profile) 0); [reflexivity | lia | lia |].
  intros j Hj. apply Hbelow. lia.
Qed.

(** One minute of charging from the depleted state is far from a full
    battery. *)
Lemma first_charge_step_soc :
  get_state_of_charge (charge_state_at default_specs [70] 60 1) < 0.99.
Proof.
  assert (Hg : ~ charge_guard (charge_initial_state default_specs) 70)
    by by_fields.
  assert (Ht : T_sat (charge_initial_state default_specs) + 0.5 < 70)
    by (cbn; lra).
  pose proof (charge_power_inside (charge_initial_state default_specs) 70
                default_specs_positive Ht) as [_ HP].
  cbv zeta in HP.
  rewrite (charge_state_at_S default_specs [70] 60 0) by (cbn; lia).
  change (charge_state_at default_specs [70] 60 0)
    with (charge_initial_state default_specs).
  change (nth 0 [70] 0) with 70.
  unfold get_state_of_charge. rewrite step_charge_specs, step_charge_energy.
  rewrite (step_charge_power _ _ _ Hg).
  set (P := charge_power (charge_initial_state default_specs) 70) in *.
  cbn [charge_initial_state specs T_sat E_stored default_specs E_storage
       m_dot_design cp_water] in *.
  assert (Hfrac : (0 + P * 60) / (16.71 * 3.6e6) < 0.99).
  { apply Rmult_lt_reg_r with (16.71 * 3.6e6); [lra |].
    unfold Rdiv. rewrite Rmult_assoc, Rinv_l by lra. lra. }
  apply Rmax_lub_lt; [lra |].
  eapply Rle_lt_trans; [apply Rmin_r | exact Hfrac].
Qed.

Lemma charge_short_collector_raises_witness :
  (length [70] < length [1000; 1000])%nat
  /\ simulate_charge default_specs [1000; 1000] [70] 60 = Raises IndexError.
Proof.
  split; [cbn; lia |].
  apply (charge_short_collector_raises default_specs [1000; 1000] [70] 60).
  - cbn; lia.
  - intros j Hj. cbn [length] in Hj.
    assert (j = 1%nat) as -> by lia. exact first_charge_step_soc.
Defined.

Lemma step_charge_power_nonneg (self : ThermalBatteryModel)
    (T_water_in dt : R) :
  0 <= fst (fst (step_charge self T_water_in dt)).
Proof.
  destruct (step_charge_case self T_water_in dt)
    as [G|G H0|s P G HP Hl|s P G HP Hl Hf|s P G HP Hl Hf];
    cbn [fst]; lra.
Qed.

(** On an evenly spaced grid the trapezoidal rule is monotone in the
    samples. *)
Lemma trapz_uniform_monotone (f f' g : nat -> R) (h : R) :
  0 <= h ->
  (forall j : nat, f j <= f' j) ->
  (forall j : nat, g (S j) - g j = h) ->
  forall n k : nat,
    trapz (map f (seq k n)) (map g (seq k n))
    <= trapz (map f' (seq k n)) (map g (seq k n)).
Proof.
  intros Hh Hf Hg. induction n as [|n IH]; intros k.
  - cbn. lra.
  - destruct n as [|n].
    + cbn. lra.
    + specialize (IH (S k)).
      change (seq k (S (S n))) with (k :: S k :: seq (S (S k)) n).
      change (seq (S k) (S n)) with (S k :: seq (S (S k)) n) in IH.
      cbn [map trapz] in *.
      rewrite Hg. pose proof (Hf k). pose proof (Hf (S k)). nra.
Qed.

(** The power recorded over a charge run, summed in kW and weighted by the
    step in hours, is covered by the energy that entered the store. *)
Lemma charge_recorded_le (s : ITB100Specs) (solar_profile T_collector : list R)
    (dt : R) (n : nat) :
  0 < dt -> (n <= length T_collector)%nat ->
  dt / 3600
  * fold_right Rplus 0
      (map (fun i => Rmin (fst (charge_call s T_collector dt i))
                       (nth i solar_profile 0) / 1000) (seq 0 n))
  * 3.6e6
  <= E_stored (charge_state_at s T_collector dt n).
Proof.
  intros Hdt. induction n as [|n IH]; intros Hn.
  - cbn. lra.
  - rewrite seq_S, map_app. cbn [Nat.add map]. rewrite sum_snoc.
    rewrite charge_state_at_S by lia. rewrite step_charge_energy.
    fold (charge_call s T_collector dt n).
    specialize (IH ltac:(lia)).
    pose proof (Rmin_l (fst (charge_call s T_collector dt n))
                  (nth n solar_profile 0)) as Hmin.
    set (Q := fst (charge_call s T_collector dt n)) in *.
    set (Qr := Rmin Q (nth n solar_profile 0)) in *.
    set (S0 := fold_right Rplus 0 _) in *.
    assert (Hk : 3.6e6 = 3600000) by lra. rewrite Hk in *.
    replace (dt / 3600 * (S0 + Qr / 1000) * 3600000)
      with (dt / 3600 * S0 * 3600000 + Qr * dt) by field.
    assert (Qr * dt <= Q * dt) by (apply Rmult_le_compat_r; lra).
    lra.
Qed.

(** X14. For a positive [dt], a power profile without negative entries and
    a collector array at least as long, the total energy [simulate_charge]
    reports (in kWh) is not negative, never exceeds the trapezoidal integral
    of the available-power series it returns, and, converted to joules,
    never exceeds the energy stored in the battery at the end of the run. *)
Theorem charge_energy_accounting (s : ITB100Specs)
    (solar_profile T_collector : list R) (dt : R) :
  0 < dt ->
  (length solar_profile <= length T_collector)%nat ->
  Forall (fun Q_available => 0 <= Q_available) solar_profile ->
  exists (res : ChargeResult) (n : nat),
    simulate_charge s solar_profile T_collector dt = Returns res
    /\ length (c_Q res) = n
    /\ 0 <= c_total_energy res
    /\ c_total_energy res <= trapz (c_Q_available res) (c_time res)
    /\ c_total_energy res * 3.6e6
       <= E_stored (charge_state_at s T_collector dt n).
Proof.
  intros Hdt Hlen Hpos.
  destruct (simulate_charge_run s solar_profile T_collector dt Hlen)
    as [n [Hn [Hrun _]]].
  eexists. exists n. split; [exact Hrun |]. cbv zeta.
  cbn [c_time c_Q c_Q_available c_total_energy].
  rewrite charge_history_time, charge_history_Q, charge_history_Q_available.
  set (f := fun i => Rmin (fst (charge_call s T_collector dt i))
                       (nth i solar_profile 0) / 1000).
  set (f' := fun i => nth i solar_profile 0 / 1000).
  assert (Hav : forall i, 0 <= nth i solar_profile 0).
  { intros i. destruct (Nat.lt_ge_cases i (length solar_profile)) as [Hi|Hi].
    - apply (proj1 (Forall_forall _ _) Hpos). apply nth_In, Hi.
    - rewrite nth_overflow by exact Hi. lra. }
  assert (Hf : forall i, 0 <= f i).
  { intros i. unfold f, charge_call.
    pose proof (step_charge_power_nonneg
                  (charge_state_at s T_collector dt i)
                  (nth i T_collector 0) dt).
    pose proof (Hav i).
    assert (0 <= Rmin (fst (fst (step_charge
                                   (charge_state_at s T_collector dt i)
                                   (nth i T_collector 0) dt)))
                   (nth i solar_profile 0)) by (apply Rmin_glb; assumption).
    lra. }
  assert (Hff : forall i, f i <= f' i).
  { intros i. unfold f, f'.
    pose proof (Rmin_r (fst (charge_call s T_collector dt i))
                  (nth i solar_profile 0)). lra. }
  assert (Hg : forall j, INR (S j) * dt / 3600 - INR j * dt / 3600 = dt / 3600)
    by (intros j; rewrite S_INR; field).
  assert (Hh : 0 <= dt / 3600) by lra.
  destruct (trapz_uniform f (fun j => INR j * dt / 3600) (dt / 3600)
              Hh Hf Hg n 0%nat) as [Ht0 Ht1].
  pose proof (trapz_uniform_monotone f f' (fun j => INR j * dt / 3600)
                (dt / 3600) Hh Hff Hg n 0%nat) as Hmono.
  pose proof (charge_recorded_le s solar_profile T_collector dt n Hdt
                ltac:(lia)) as Hsum.
  fold f in Hsum.
  split; [apply length_map_seq |]. split; [exact Ht0 |].
  split; [exact Hmono |].
  destruct n as [|n]; [cbn in *; lra |]. pose proof (Hf 0%nat). nra.
Qed.

Lemma charge_energy_accounting_witness :
  (0 < 60 /\ (length [1000; 2000] <= length [70; 80])%nat
   /\ Forall (fun Q_available => 0 <= Q_available) [1000; 2000])
  /\ exists (res : ChargeResult) (n : nat),
       simulate_charge default_specs [1000; 2000] [70; 80] 60 = Returns res
       /\ 0 <= c_total_energy res
       /\ c_total_energy res * 3.6e6
          <= E_stored (charge_state_at default_specs [70; 80] 60 n).
Proof.
  assert (Hdt : 0 < 60) by lra.
  assert (Hlen : (length [1000; 2000] <= length [70; 80])%nat) by (cbn; lia).
  assert (Hpos : Forall (fun Q_available => 0 <= Q_available) [1000; 2000])
    by (repeat constructor; lra).
  split; [split; [exact Hdt | split; [exact Hlen | exact Hpos]] |].
  destruct (charge_energy_accounting default_specs [1000; 2000] [70; 80] 60
              Hdt Hlen Hpos) as [res [n [Hrun [_ [H0 [_ H1]]]]]].
  exists res, n. repeat split; assumption.
Defined.

Lemma charge_state_at_specs (s : ITB100Specs) (T_collector : list R) (dt : R)
    (k : nat) :
  specs (charge_state_at s T_collector dt k) = s.
Proof. unfold charge_state_at. apply charge_steps_specs. Qed.

(** What holds of the battery all along a charge run. *)
Lemma charge_run_invariant (s : ITB100Specs) (T_collector : list R) (dt : R)
    (k : nat) :
  positive_specs s -> 0 < dt -> 20 <= T_phase s ->
  (k <= length T_collector)%nat ->
  let model := charge_state_at s T_collector dt k in
  phase_consistent model
  /\ 0 <= solid_fraction model <= 1
  /\ 20 <= T_sat model.
Proof.
  intros Hp Hdt HT. cbv zeta. induction k as [|k IH]; intros Hk.
  - split; [apply initial_states_consistent, HT |]. cbn. lra.
  - destruct IH as [Hc [Hf Ht]]; [lia |].
    rewrite charge_state_at_S by lia.
    assert (Hp' : positive_specs (specs (charge_state_at s T_collector dt k)))
      by (rewrite charge_state_at_specs; exact Hp).
    split; [apply step_charge_consistent; assumption |].
    pose proof (step_charge_fraction _ (nth k T_collector 0) dt Hp' Hdt
                  (proj1 Hf)).
    pose proof (step_charge_warms _ (nth k T_collector 0) dt Hp' Hdt Hc).
    split; lra.
Qed.

Lemma monotone_chain_up (f : nat -> R) (N : nat) :
  (forall k : nat, (k < N)%nat -> f k <= f (S k)) ->
  forall i j : nat, (i <= j <= N)%nat -> f i <= f j.
Proof.
  intros Hstep i j [Hij HjN]. induction Hij as [|j Hij IH].
  - apply Rle_refl.
  - eapply Rle_trans; [apply IH; lia | apply Hstep; lia].
Qed.

(** X15. With positive specifications, a phase-change temperature of at
    least 20, a positive [dt] and a collector array at least as long as the
    power profile, along the arrays returned by [simulate_charge] the state
    of charge never decreases, the solid fraction never increases and the
    medium temperature never decreases; every recorded solid fraction is in
    [0, 1] and every recorded medium temperature is at least 20. *)
Theorem charge_histories_monotone (s : ITB100Specs)
    (solar_profile T_collector : list R) (dt : R) :
  positive_specs s -> 0 < dt -> 20 <= T_phase s ->
  (length solar_profile <= length T_collector)%nat ->
  exists (res : ChargeResult) (n : nat),
    simulate_charge s solar_profile T_collector dt = Returns res
    /\ length (c_SOC res) = n
    /\ (forall i j : nat, (i <= j < n)%nat ->
          nth i (c_SOC res) 0 <= nth j (c_SOC res) 0
          /\ nth j (c_solid_fraction res) 0 <= nth i (c_solid_fraction res) 0
          /\ nth i (c_T_sat res) 0 <= nth j (c_T_sat res) 0)
    /\ (forall i : nat, (i < n)%nat ->
          0 <= nth i (c_solid_fraction res) 0 <= 1
          /\ 20 <= nth i (c_T_sat res) 0).
Proof.
  intros Hp Hdt HT Hlen.
  destruct (simulate_charge_run s solar_profile T_collector dt Hlen)
    as [n [Hn [Hrun _]]].
  eexists. exists n. split; [exact Hrun |]. cbv zeta.
  cbn [c_T_sat c_SOC c_solid_fraction].
  rewrite charge_history_T_sat, charge_history_SOC,
    charge_history_solid_fraction.
  assert (Hp' : forall k,
            positive_specs (specs (charge_state_at s T_collector dt k)))
    by (intros k; rewrite charge_state_at_specs; exact Hp).
  split; [apply length_map_seq |]. split.
  - intros i j Hij. rewrite !nth_map_seq by lia. repeat split.
    + apply (monotone_chain_up
               (fun k => get_state_of_charge
                           (charge_state_at s T_collector dt (S k)))
               (pred n)); [| lia].
      intros k Hk. rewrite (charge_state_at_S s T_collector dt (S k)) by lia.
      apply step_charge_soc; [| exact Hdt].
      rewrite charge_state_at_specs. apply Hp.
    + apply (monotone_chain
               (fun k => solid_fraction
                           (charge_state_at s T_collector dt (S k)))
               (pred n)); [| lia].
      intros k Hk. rewrite (charge_state_at_S s T_collector dt (S k)) by lia.
      apply step_charge_fraction; [apply Hp' | exact Hdt |].
      apply (charge_run_invariant s T_collector dt (S k) Hp Hdt HT). lia.
    + apply (monotone_chain_up
               (fun k => T_sat (charge_state_at s T_collector dt (S k)))
               (pred n)); [| lia].
      intros k Hk. rewrite (charge_state_at_S s T_collector dt (S k)) by lia.
      apply step_charge_warms; [apply Hp' | exact Hdt |].
      apply (charge_run_invariant s T_collector dt (S k) Hp Hdt HT). lia.
  - intros i Hi. rewrite !nth_map_seq by exact Hi.
    destruct (charge_run_invariant s T_collector dt (S i) Hp Hdt HT)
      as [_ [Hf Ht]]; [lia |].
    split; assumption.
Qed.

Lemma charge_histories_monotone_witness :
  (positive_specs default_specs /\ 0 < 60 /\ 20 <= T_phase default_specs
   /\ (length [1000; 2000] <= length [70; 80])%nat)
  /\ exists (res : ChargeResult) (n : nat),
       simulate_charge default_specs [1000; 2000] [70; 80] 60 = Returns res
       /\ length (c_SOC res) = n
       /\ (forall i j : nat, (i <= j < n)%nat ->
             nth i (c_SOC res) 0 <= nth j (c_SOC res) 0).
Proof.
  assert (Hdt : 0 < 60) by lra.
  assert (HT : 20 <= T_phase default_specs) by (cbn; lra).
  assert (Hlen : (length [1000; 2000] <= length [70; 80])%nat) by (cbn; lia).
  split; [repeat split; try assumption; apply default_specs_positive |].
  destruct (charge_histories_monotone default_specs [1000; 2000] [70; 80] 60
              default_specs_positive Hdt HT Hlen)
    as [res [n [Hrun [Hn [Hmono _]]]]].
  exists res, n. repeat split; try assumption.
  intros i j Hij. apply (Hmono i j Hij).
Defined.

(** ** The solar profile *)

(** The three arrays, sample by sample. *)
Lemma generate_solar_profile_samples (location date : String.string)
    (collector_area collector_efficiency : R) :
  generate_solar_profile location date collector_area collector_efficiency
  = (map sample_hour (seq 0 73),
     map (sample_power collector_area collector_efficiency) (seq 0 73),
     map sample_temperature (seq 0 73)).
Proof.
  unfold generate_solar_profile, linspace. cbv zeta.
  rewrite !map_map. reflexivity.
Qed.

Lemma exp_nonpos_le_1 (x : R) : x <= 0 -> 0 < exp x <= 1.
Proof.
  intros Hx. split; [apply exp_pos |].
  destruct Hx as [Hlt | ->].
  - apply Rlt_le. rewrite <- exp_0. apply exp_increasing, Hlt.
  - rewrite exp_0. apply Rle_refl.
Qed.

Lemma sample_irradiance_bounds (i : nat) : 0 < sample_irradiance i <= 680.
Proof.
  unfold sample_irradiance.
  assert (Hx : - ((sample_hour i - 12) ^ 2) / 4.5 <= 0).
  { pose proof (pow2_ge_0 (sample_hour i - 12)). lra. }
  pose proof (exp_nonpos_le_1 _ Hx). lra.
Qed.

Lemma sample_temperature_bounds (i : nat) : 60 <= sample_temperature i <= 95.
Proof.
  unfold sample_temperature, clip. split.
  - apply Rmin_glb; [lra | apply Rmax_r].
  - apply Rmin_l.
Qed.

Lemma sample_hour_value (i : nat) : sample_hour i = 9 + INR i / 12.
Proof.
  unfold sample_hour.
  replace (INR (73 - 1)) with 72 by (rewrite INR_IZR_INZ; reflexivity).
  lra.
Qed.

(** X16. For every collector area and efficiency, [generate_solar_profile]
    returns three arrays of 73 samples; the times run from 9 to 15 hours in
    steps of 1/12 hour; every collector temperature lies in [60, 95]; and
    when area and efficiency are not negative every power lies between zero
    and 680 W per unit of area and efficiency. *)
Theorem solar_profile_shape (location date : String.string)
    (collector_area collector_efficiency : R) :
  let '(time_hours, Q_collector, T_collector) :=
    generate_solar_profile location date collector_area collector_efficiency in
  (length time_hours = 73%nat /\ length Q_collector = 73%nat
   /\ length T_collector = 73%nat)
  /\ (forall i : nat, (i < 73)%nat -> nth i time_hours 0 = 9 + INR i / 12)
  /\ nth 0 time_hours 0 = 9 /\ nth 72 time_hours 0 = 15
  /\ Forall (fun T => 60 <= T <= 95) T_collector
  /\ (0 <= collector_area -> 0 <= collector_efficiency ->
      Forall (fun Q => 0 <= Q <= 680 * collector_area * collector_efficiency)
        Q_collector).
Proof.
  rewrite generate_solar_profile_samples.
  split; [rewrite !length_map_seq; repeat split |].
  split; [intros i Hi; rewrite nth_map_seq by exact Hi;
          apply sample_hour_value |].
  split; [rewrite nth_map_seq by lia; rewrite sample_hour_value; cbn; lra |].
  split.
  { rewrite nth_map_seq by lia. rewrite sample_hour_value.
    replace (INR 72) with 72 by (rewrite INR_IZR_INZ; reflexivity). lra. }
  split.
  - apply Forall_forall. intros T HT. apply in_map_iff in HT.
    destruct HT as [i [<- _]]. apply sample_temperature_bounds.
  - intros Ha He. apply Forall_forall. intros Q HQ. apply in_map_iff in HQ.
    destruct HQ as [i [<- _]]. unfold sample_power.
    pose proof (sample_irradiance_bounds i) as [HI0 HI1].
    assert (0 <= collector_area * collector_efficiency)
      by (apply Rmult_le_pos; assumption).
    split; nra.
Qed.

Lemma solar_profile_shape_witness :
  (0 <= 12 /\ 0 <= 0.65)
  /\ Forall (fun Q => 0 <= Q <= 680 * 12 * 0.65)
       (snd (fst (generate_solar_profile "Syracuse_NY" "2025-01-15" 12 0.65))).
Proof.
  split; [lra |].
  pose proof (solar_profile_shape "Syracuse_NY" "2025-01-15" 12 0.65) as H.
  destruct (generate_solar_profile "Syracuse_NY" "2025-01-15" 12 0.65)
    as [[time_hours Q_collector] T_collector].
  cbn [fst snd]. apply H; lra.
Defined.

Lemma exp_le (x y : R) : x <= y -> exp x <= exp y.
Proof.
  intros [Hlt | ->]; [apply Rlt_le, exp_increasing, Hlt | apply Rle_refl].
Qed.

Lemma sample_irradiance_morning (i j : nat) :
  (i <= j <= 36)%nat -> sample_irradiance i <= sample_irradiance j.
Proof.
  intros [Hij Hj]. unfold sample_irradiance.
  rewrite !sample_hour_value.
  apply le_INR in Hij. apply le_INR in Hj.
  replace (INR 36) with 36 in Hj by (rewrite INR_IZR_INZ; reflexivity).
  pose proof (pos_INR i) as Hi0.
  assert (Hsq : (9 + INR j / 12 - 12) ^ 2 <= (9 + INR i / 12 - 12) ^ 2)
    by nra.
  assert (Hexp : exp (- ((9 + INR i / 12 - 12) ^ 2) / 4.5)
                 <= exp (- ((9 + INR j / 12 - 12) ^ 2) / 4.5))
    by (apply exp_le; lra).
  lra.
Qed.

Lemma sample_irradiance_afternoon (i j : nat) :
  (36 <= i <= j)%nat -> sample_irradiance j <= sample_irradiance i.
Proof.
  intros [Hi Hij]. unfold sample_irradiance.
  rewrite !sample_hour_value.
  apply le_INR in Hij. apply le_INR in Hi.
  replace (INR 36) with 36 in Hi by (rewrite INR_IZR_INZ; reflexivity).
  assert (Hsq : (9 + INR i / 12 - 12) ^ 2 <= (9 + INR j / 12 - 12) ^ 2)
    by nra.
  assert (Hexp : exp (- ((9 + INR j / 12 - 12) ^ 2) / 4.5)
                 <= exp (- ((9 + INR i / 12 - 12) ^ 2) / 4.5))
    by (apply exp_le; lra).
  lra.
Qed.

Lemma sample_irradiance_noon : sample_irradiance 36 = 680.
Proof.
  unfold sample_irradiance. rewrite sample_hour_value.
  replace (INR 36) with 36 by (rewrite INR_IZR_INZ; reflexivity).
  replace (- ((9 + 36 / 12 - 12) ^ 2) / 4.5) with 0 by lra.
  rewrite exp_0. lra.
Qed.

(** The collector temperature follows the irradiance. *)
Lemma sample_temperature_monotone (i j : nat) :
  sample_irradiance i <= sample_irradiance j ->
  sample_temperature i <= sample_temperature j.
Proof.
  intros Hij. unfold sample_temperature, clip.
  apply Rle_min_compat_l, Rle_max_compat_r.
  assert (Hexp : exp (-3 * (sample_irradiance j / (800 * 0.85)))
                 <= exp (-3 * (sample_irradiance i / (800 * 0.85))))
    by (apply exp_le; lra).
  lra.
Qed.

(** X17. The generated profile rises to solar noon (sample 36) and falls
    after it.  The collector temperature does not fall from one sample to a
    later one up to noon and does not rise from one sample to a later one
    after noon.  With a non-negative area and efficiency the same holds of
    the power, whose noon value, 680 W per unit of area and efficiency, is
    the largest of the day. *)
Theorem solar_profile_peaks_at_noon (location date : String.string)
    (collector_area collector_efficiency : R) :
  let '(_, Q_collector, T_collector) :=
    generate_solar_profile location date collector_area collector_efficiency in
  nth 36 Q_collector 0 = 680 * collector_area * collector_efficiency
  /\ (forall i j : nat, (i <= j <= 36)%nat ->
        nth i T_collector 0 <= nth j T_collector 0)
  /\ (forall i j : nat, (36 <= i <= j)%nat -> (j <= 72)%nat ->
        nth j T_collector 0 <= nth i T_collector 0)
  /\ (0 <= collector_area -> 0 <= collector_efficiency ->
      (forall i j : nat, (i <= j <= 36)%nat ->
         nth i Q_collector 0 <= nth j Q_collector 0)
      /\ (forall i j : nat, (36 <= i <= j)%nat -> (j <= 72)%nat ->
            nth j Q_collector 0 <= nth i Q_collector 0)
      /\ (forall i : nat, (i <= 72)%nat ->
            nth i Q_collector 0 <= nth 36 Q_collector 0)).
Proof.
  rewrite generate_solar_profile_samples.
  split; [| split; [| split]].
  - rewrite nth_map_seq by lia. unfold sample_power.
    rewrite sample_irradiance_noon. reflexivity.
  - intros i j Hij. rewrite !nth_map_seq by lia.
    apply sample_temperature_monotone, sample_irradiance_morning, Hij.
  - intros i j Hij Hj. rewrite !nth_map_seq by lia.
    apply sample_temperature_monotone, sample_irradiance_afternoon, Hij.
  - intros Ha He.
    assert (Hae : 0 <= collector_area * collector_efficiency)
      by (apply Rmult_le_pos; assumption).
    split; [| split].
    + intros i j Hij. rewrite !nth_map_seq by lia. unfold sample_power.
      pose proof (sample_irradiance_morning i j Hij). nra.
    + intros i j Hij Hj. rewrite !nth_map_seq by lia. unfold sample_power.
      pose proof (sample_irradiance_afternoon i j Hij). nra.
    + intros i Hi. rewrite !nth_map_seq by lia. unfold sample_power.
      rewrite sample_irradiance_noon.
      pose proof (sample_irradiance_bounds i). nra.
Qed.

Lemma solar_profile_peaks_at_noon_witness :
  (0 <= 12 /\ 0 <= 0.65 /\ (36 <= 40 <= 60)%nat /\ (60 <= 72)%nat)
  /\ nth 60 (snd (fst (generate_solar_profile
                         "Syracuse_NY" "2025-01-15" 12 0.65))) 0
     <= nth 40 (snd (fst (generate_solar_profile
                            "Syracuse_NY" "2025-01-15" 12 0.65))) 0
  /\ nth 60 (snd (generate_solar_profile
                    "Syracuse_NY" "2025-01-15" 12 0.65)) 0
     <= nth 40 (snd (generate_solar_profile
                       "Syracuse_NY" "2025-01-15" 12 0.65)) 0.
Proof.
  assert (Hij : (36 <= 40 <= 60)%nat) by lia.
  assert (Hj : (60 <= 72)%nat) by lia.
  split; [split; [lra | split; [lra | split; [exact Hij | exact Hj]]] |].
  pose proof (solar_profile_peaks_at_noon
                "Syracuse_NY" "2025-01-15" 12 0.65) as H.
  destruct (generate_solar_profile "Syracuse_NY" "2025-01-15" 12 0.65)
    as [[time_hours Q_collector] T_collector].
  cbn [fst snd].
  destruct H as [_ [_ [HT HQ]]]. destruct HQ as [_ [Hfall _]]; [lra | lra |].
  split; [apply Hfall; assumption | apply HT; assumption].
Defined.

(** X18. The generated profile drives a charge run without failure: with
    positive specifications, a non-negative collector area and efficiency
    and any [dt], [simulate_charge] on the generated power and temperature
    arrays returns a result with between 1 and 73 samples, and every
    recorded absorbed power is at most the noon output of the collectors
    (in kW). *)
Theorem charge_on_solar_profile (s : ITB100Specs)
    (location date : String.string)
    (collector_area collector_efficiency dt : R) :
  positive_specs s ->
  0 <= collector_area -> 0 <= collector_efficiency ->
  let '(_, Q_solar, T_solar) :=
    generate_solar_profile location date collector_area collector_efficiency in
  exists (res : ChargeResult) (n : nat),
    simulate_charge s Q_solar T_solar dt = Returns res
    /\ (1 <= n <= 73)%nat
    /\ length (c_Q res) = n
    /\ (forall i : nat, (i < n)%nat ->
          nth i (c_Q res) 0
          <= 680 * collector_area * collector_efficiency / 1000).
Proof.
  intros _ Ha He. rewrite generate_solar_profile_samples.
  set (Q_solar := map (sample_power collector_area collector_efficiency)
                    (seq 0 73)).
  set (T_solar := map sample_temperature (seq 0 73)).
  assert (HlenQ : length Q_solar = 73%nat) by apply length_map_seq.
  assert (HlenT : length T_solar = 73%nat) by apply length_map_seq.
  destruct (simulate_charge_run s Q_solar T_solar dt)
    as [n [Hn [Hrun [_ [_ Hsome]]]]]; [lia |].
  eexists. exists n. split; [exact Hrun |]. cbv zeta. cbn [c_Q].
  rewrite charge_history_Q.
  split; [split; [apply Hsome; lia | lia] |].
  split; [apply length_map_seq |].
  intros i Hi. rewrite nth_map_seq by exact Hi.
  assert (Hav : nth i Q_solar 0
                <= 680 * collector_area * collector_efficiency).
  { unfold Q_solar. rewrite nth_map_seq by lia. unfold sample_power.
    pose proof (sample_irradiance_bounds i).
    assert (0 <= collector_area * collector_efficiency)
      by (apply Rmult_le_pos; assumption).
    nra. }
  pose proof (Rmin_r (fst (charge_call s T_solar dt i)) (nth i Q_solar 0)).
  lra.
Qed.

Lemma charge_on_solar_profile_witness :
  (positive_specs default_specs /\ 0 <= 12 /\ 0 <= 0.65)
  /\ exists (res : ChargeResult) (n : nat),
       simulate_charge default_specs
         (snd (fst (generate_solar_profile "Syracuse_NY" "2025-01-15" 12 0.65)))
         (snd (generate_solar_profile "Syracuse_NY" "2025-01-15" 12 0.65)) 60
       = Returns res
       /\ (1 <= n <= 73)%nat.
Proof.
  assert (Ha : 0 <= 12) by lra. assert (He : 0 <= 0.65) by lra.
  split; [split; [exact default_specs_positive | split; assumption] |].
  pose proof (charge_on_solar_profile default_specs
                "Syracuse_NY" "2025-01-15" 12 0.65 60
                default_specs_positive Ha He) as H.
  destruct (generate_solar_profile "Syracuse_NY" "2025-01-15" 12 0.65)
    as [[time_hours Q_collector] T_collector].
  cbn [fst snd]. destruct H as [res [n [Hrun [Hn _]]]].
  exists res, n. split; assumption.
Defined.

(** ** Economic analysis *)

Lemma some_eq (A : Type) (a b : A) : Some a = Some b -> a = b.
Proof. intros H. injection H as H. exact H. Qed.

Lemma float_div_some (x y q : R) :
  float_div x y = Some q -> y <> 0 /\ q = x / y.
Proof.
  unfold float_div. destruct (Req_dec_T y 0) as [Hy|Hy]; [discriminate |].
  intros [= <-]. split; [exact Hy | reflexivity].
Qed.



Lemma np_sum_scale (c : R) (f : nat -> R) (l : list nat) :
  np_sum (map (fun y => c / f y) l) = c * np_sum (map (fun y => 1 / f y) l).
Proof.
  unfold np_sum. induction l as [|y l IH]; cbn [map fold_right].
  - ring.
  - rewrite IH. unfold Rdiv. ring.
Qed.

Lemma annuity_factor_bounds : 8.53 < annuity_factor < 8.54.
Proof.
  unfold annuity_factor, np_sum. cbn [seq map fold_right pow]. lra.
Qed.

(** X20. When [calculate_annual_savings] returns, the net annual savings
    are not zero and are the fuel savings less the pump cost; the simple
    payback times the net savings is the capital cost; the ten-year net
    present value is the net savings times the annuity factor of ten years
    at 3% (between 8.53 and 8.54) less the capital cost; and for positive
    net savings the net present value is non-negative exactly when the
    simple payback is at most that factor. *)
Theorem payback_and_present_value (self_specs : ITB100Specs)
    (cycles_per_year : Z) (heat_source : String.string) (r : AnnualSavings) :
  calculate_annual_savings self_specs cycles_per_year heat_source = Some r ->
  net_annual_savings r <> 0
  /\ net_annual_savings r = annual_fuel_savings r - annual_pump_cost r
  /\ simple_payback_years r * net_annual_savings r = capital_cost self_specs
  /\ npv_10yr r
     = net_annual_savings r * annuity_factor - capital_cost self_specs
  /\ 8.53 < annuity_factor < 8.54
  /\ (0 < net_annual_savings r ->
      (0 <= npv_10yr r <-> simple_payback_years r <= annuity_factor)).
Proof.
  unfold calculate_annual_savings. cbv zeta.
  remember (E_storage self_specs * IZR cycles_per_year / _ * _) as fuel.
  remember (50 * _ * IZR cycles_per_year / 1000 * 0.15) as pump.
  remember (fuel - pump) as net eqn:Hdef.
  destruct (float_div (capital_cost self_specs) net) as [payback|] eqn:Hpay;
    [| discriminate].
  destruct (float_div (capital_cost self_specs)
              (E_storage self_specs * IZR cycles_per_year
               * lifetime_years self_specs)) as [cost|];
    [| discriminate].
  intros Heq. apply some_eq in Heq. subst r.
  cbv beta iota delta [net_annual_savings annual_fuel_savings
                       annual_pump_cost simple_payback_years npv_10yr].
  apply float_div_some in Hpay. destruct Hpay as [Hnet ->].
  assert (Hback : capital_cost self_specs / net * net = capital_cost self_specs)
    by (field; exact Hnet).
  assert (Hnpv : np_sum (map (fun y => net / (1 + 0.03) ^ y) (seq 1 10))
                 = net * annuity_factor)
    by (unfold annuity_factor; apply np_sum_scale).
  rewrite Hnpv.
  split; [exact Hnet |]. split; [exact Hdef |]. split; [exact Hback |].
  split; [reflexivity |]. split; [apply annuity_factor_bounds |].
  intros Hpos.
  assert (Hdiv : capital_cost self_specs / net <= annuity_factor
                 <-> capital_cost self_specs <= annuity_factor * net).
  { split; intros H.
    - rewrite <- Hback. apply Rmult_le_compat_r; lra.
    - apply Rmult_le_reg_r with net; [exact Hpos |]. rewrite Hback. exact H. }
  rewrite Hdiv. split; intros H; lra.
Qed.

(** The call made by [main] for natural gas returns. *)
Lemma annual_savings_natural_gas :
  exists r : AnnualSavings,
    calculate_annual_savings default_specs 150 "natural_gas" = Some r.
Proof.
  unfold calculate_annual_savings. cbv zeta.
  change (dict_get fuel_costs "natural_gas" 0.10) with (0.80 / 29.3).
  change (contains "gas" "natural_gas") with true. cbv iota.
  cbn [default_specs E_storage t_discharge_design t_charge_design
       capital_cost lifetime_years].
  unfold float_div.
  destruct (Req_dec_T _ 0) as [H0|_]; [exfalso; lra |].
  destruct (Req_dec_T _ 0) as [H0|_]; [exfalso; lra |].
  eexists. reflexivity.
Qed.

Lemma payback_and_present_value_witness :
  exists r : AnnualSavings,
    calculate_annual_savings default_specs 150 "natural_gas" = Some r
    /\ simple_payback_years r * net_annual_savings r = 3500
    /\ npv_10yr r = net_annual_savings r * annuity_factor - 3500.
Proof.
  destruct annual_savings_natural_gas as [r Hr].
  exists r. split; [exact Hr |].
  pose proof (payback_and_present_value default_specs 150 "natural_gas" r Hr)
    as [_ [_ [Hpay [Hnpv _]]]].
  split; [exact Hpay | exact Hnpv].
Defined.




(** ** Exhausted and saturated batteries *)

(** X22. A depleted battery (fully solid and below the phase-change
    temperature) is left exactly as it is by any sequence of discharge
    calls, and a fully charged one (fully liquid and at least 5 degrees
    above the phase-change temperature) by any sequence of charge calls,
    whatever the inlet temperatures and time steps: not even the elapsed
    time advances. *)
Theorem exhausted_battery_is_stable (self : ThermalBatteryModel)
    (calls : list (R * R)) :
  (depleted self -> discharge_steps self calls = self)
  /\ (fully_charged self -> charge_steps self calls = self).
Proof.
  split; intros H; induction calls as [|[T_water_in dt] calls IH];
    cbn [discharge_steps charge_steps]; try reflexivity.
  - destruct (step_discharge_case self T_water_in dt)
      as [G|G H0|s P G HP Hl|s P G HP Hl Hf|s P G HP Hl Hf];
      try (exfalso; apply G; left; exact H).
    exact IH.
  - destruct (step_charge_case self T_water_in dt)
      as [G|G H0|s P G HP Hl|s P G HP Hl Hf|s P G HP Hl Hf];
      try (exfalso; apply G; left; exact H).
    exact IH.
Qed.

Lemma exhausted_battery_is_stable_witness :
  depleted (state_of 20 1 0)
  /\ discharge_steps (state_of 20 1 0) [(40, 60); (10, 30)] = state_of 20 1 0.
Proof.
  assert (H : depleted (state_of 20 1 0)) by (unfold depleted; cbn; lra).
  split; [exact H |].
  exact (proj1 (exhausted_battery_is_stable (state_of 20 1 0)
                  [(40, 60); (10, 30)]) H).
Defined.
